(** * FileAdaptor: markup tree to ADF conversion and page linkage

  A shallow embedding of [src/lib/adaptors/file.ts] (class [FileAdaptor]):
  [htmlToAdf], [traverse], [convertMermaidToImage], [convertObs2Adf] and
  [getConfluenceLink], together with the DOM, string and promise
  primitives those methods rely on.

  Collaborators that live outside this file of the repository (the ADF
  builder, the properties adaptor, the content directors, the Confluence
  client, Obsidian's vault and renderer, mermaid) appear either as fields
  of the environment record [Env] or as small models that follow the
  written specification; the latter are marked as such. *)

From Stdlib Require Import String Ascii List Arith Lia Bool Permutation.
From stdpp Require Import base option list strings gmap.
Import ListNotations.
Set Warnings "-register-all".
Open Scope string_scope.
Open Scope list_scope.

(* ================================================================== *)
(** ** JavaScript string primitives used by the adaptor *)
(* ================================================================== *)

Module Js.

(** [s.startsWith(p)] *)
Definition startsWith (p s : string) : bool := String.prefix p s.

(** [s.replace(pat, rep)] with a string pattern: only the first
    occurrence is replaced. *)
Definition replace (pat rep s : string) : string :=
  match String.index 0 pat s with
  | Some i =>
      String.substring 0 i s +:+ rep +:+
      String.substring (i + String.length pat)
                       (String.length s - (i + String.length pat)) s
  | None => s
  end.

(** A string of this development is a sequence of bytes that holds
    UTF-8, as the string literals of this file do; a JavaScript string is
    read through that encoding.  [bytes] writes a string byte by byte. *)
Definition bytes (l : list nat) : string :=
  string_of_list_ascii (map ascii_of_nat l).

(** The code points [String.prototype.trim] strips, in UTF-8: WhiteSpace
    and LineTerminator of ECMAScript, that is TAB, LF, VT, FF, CR, SPACE,
    U+00A0, U+1680, U+2000 to U+200A, U+2028, U+2029, U+202F, U+205F,
    U+3000 and U+FEFF.  The no-break space U+00A0 is the two bytes 194,
    160; the byte 160 alone is no code point, and ends others (195, 160
    is U+00E0). *)
Definition whiteSpace : list string :=
  map bytes
    [[9]; [10]; [11]; [12]; [13]; [32];
     [194; 160];
     [225; 154; 128];
     [226; 128; 128]; [226; 128; 129]; [226; 128; 130]; [226; 128; 131];
     [226; 128; 132]; [226; 128; 133]; [226; 128; 134]; [226; 128; 135];
     [226; 128; 136]; [226; 128; 137]; [226; 128; 138];
     [226; 128; 168]; [226; 128; 169];
     [226; 128; 175];
     [226; 129; 159];
     [227; 128; 128];
     [239; 187; 191]].

(** [w] is one white-space code point. *)
Definition isWhite (w : string) : bool := existsb (String.eqb w) whiteSpace.

(** [s.trimStart()]: a code point of one, two or three bytes is dropped
    from the front as long as it is white space. *)
Fixpoint trimStart (s : string) : string :=
  match s with
  | String a r1 =>
      if isWhite (String a "") then trimStart r1
      else
        match r1 with
        | String b r2 =>
            if isWhite (String a (String b "")) then trimStart r2
            else
              match r2 with
              | String c r3 =>
                  if isWhite (String a (String b (String c "")))
                  then trimStart r3 else s
              | EmptyString => s
              end
        | EmptyString => s
        end
  | EmptyString => s
  end.

(** [s.trimEnd()]: going from the end, what is left of the rest is put
    behind the byte at hand, and dropped when the two make up one
    white-space code point. *)
Fixpoint trimEnd (s : string) : string :=
  match s with
  | String a r =>
      let t := String a (trimEnd r) in
      if isWhite t then "" else t
  | EmptyString => ""
  end.

(** [s.trim()] *)
Definition trim (s : string) : string := trimEnd (trimStart s).

(** ASCII lower case, as HTML uses it to compare names and the values of
    some attributes. *)
Definition lowerChar (c : ascii) : ascii :=
  let n := nat_of_ascii c in
  if Nat.leb 65 n && Nat.leb n 90 then ascii_of_nat (n + 32) else c.

Fixpoint toAsciiLower (s : string) : string :=
  match s with
  | String c r => String (lowerChar c) (toAsciiLower r)
  | EmptyString => EmptyString
  end.

(** Truthiness of a string value: every string but the empty one. *)
Definition truthy (s : string) : bool := negb (String.eqb s "").

(** [Boolean(v)] for a value that is a string or [null]. *)
Definition Boolean (v : option string) : bool :=
  match v with
  | Some s => truthy s
  | None => false
  end.

(** [Number(c)] for a one-character string holding a decimal digit;
    anything else is NaN, which we render as [0]. *)
Definition digit (c : option ascii) : nat :=
  match c with
  | Some a =>
      let n := nat_of_ascii a in
      if Nat.leb 48 n && Nat.leb n 57 then n - 48 else 0
  | None => 0
  end.

End Js.

(* ================================================================== *)
(** ** The rendered markup tree (DOM) *)
(* ================================================================== *)

Module Dom.

(** The nodes of a rendered HTML document.  An element carries its
    [nodeName] (in upper case, as HTML elements have it), its [classList],
    its attributes (names in lower case, as the HTML parser and
    [setAttribute] store them) and its [childNodes]; a text node carries
    its data.  A comment node is to the adaptor what an empty text node
    is: no element, no text, a name without a case in [traverse]. *)
Inductive Node : Type :=
| Element (name : string) (classes : list string)
          (attrs : list (string * string)) (kids : list Node)
| Text (data : string).

Definition nodeName (n : Node) : string :=
  match n with
  | Element name _ _ _ => name
  | Text _ => "#text"
  end.

Definition classList (n : Node) : list string :=
  match n with
  | Element _ cs _ _ => cs
  | Text _ => []
  end.

Definition attributes (n : Node) : list (string * string) :=
  match n with
  | Element _ _ a _ => a
  | Text _ => []
  end.

Definition childNodes (n : Node) : list Node :=
  match n with
  | Element _ _ _ kids => kids
  | Text _ => []
  end.

Definition isElement (n : Node) : bool :=
  match n with
  | Element _ _ _ _ => true
  | Text _ => false
  end.

(** [node.children]: the element children only. *)
Definition children (n : Node) : list Node :=
  List.filter isElement (childNodes n).

(** [node.textContent]: the text of all text descendants, in order. *)
Fixpoint textContent (n : Node) : string :=
  match n with
  | Text d => d
  | Element _ _ _ kids =>
      (fix cat (l : list Node) : string :=
         match l with
         | [] => ""
         | k :: l' => textContent k +:+ cat l'
         end) kids
  end.

(** An element followed by all elements below it, in document order. *)
Fixpoint subtree (n : Node) : list Node :=
  match n with
  | Text _ => []
  | Element _ _ _ kids => n :: flat_map subtree kids
  end.

(** The elements strictly below [n], in document order. *)
Definition descendants (n : Node) : list Node :=
  flat_map subtree (childNodes n).

(** [el.getAttr(name)] (Obsidian's alias of [getAttribute]). *)
Fixpoint lookupAttr (name : string) (a : list (string * string))
  : option string :=
  match a with
  | [] => None
  | (k, v) :: a' => if String.eqb k name then Some v else lookupAttr name a'
  end.

Definition getAttr (n : Node) (name : string) : option string :=
  lookupAttr name (attributes n).

(** [el.classList.contains(c)] *)
Definition classList_contains (n : Node) (c : string) : bool :=
  existsb (String.eqb c) (classList n).

(** The selectors that occur in the adaptor: a type selector, a type
    selector with an attribute selector [[attr="value"]], and a selector
    list.  A type selector is kept in the upper-case form that [nodeName]
    has for the HTML elements of a rendered document. *)
Inductive Selector : Type :=
| SelTag (tag : string)
| SelTagAttr (tag attr value : string)
| SelList (s1 s2 : Selector).

(** The attributes whose values a selector compares without regard to
    ASCII case on the elements of an HTML document (HTML, "Case-sensitivity
    of selectors"); [type] is one of them. *)
Definition caseInsensitiveValue (attr : string) : bool :=
  existsb (String.eqb attr)
    ["accept"; "accept-charset"; "align"; "alink"; "axis"; "bgcolor";
     "charset"; "checked"; "clear"; "codetype"; "color"; "compact";
     "declare"; "defer"; "dir"; "direction"; "disabled"; "enctype"; "face";
     "frame"; "hreflang"; "http-equiv"; "lang"; "language"; "link"; "media";
     "method"; "multiple"; "nohref"; "noresize"; "noshade"; "nowrap";
     "readonly"; "rel"; "rev"; "rules"; "scope"; "scrolling"; "selected";
     "shape"; "target"; "text"; "type"; "valign"; "valuetype"; "vlink"].

(** [[attr="value"]] on an element whose attribute [attr] is [v']. *)
Definition valueMatches (attr value v' : string) : bool :=
  if caseInsensitiveValue attr
  then String.eqb (Js.toAsciiLower v') (Js.toAsciiLower value)
  else String.eqb v' value.

Fixpoint matches (s : Selector) (n : Node) : bool :=
  match s with
  | SelTag t => isElement n && String.eqb (nodeName n) t
  | SelTagAttr t a v =>
      isElement n && String.eqb (nodeName n) t &&
      match getAttr n a with
      | Some v' => valueMatches a v v'
      | None => false
      end
  | SelList s1 s2 => matches s1 n || matches s2 n
  end.

Definition querySelectorAll (s : Selector) (n : Node) : list Node :=
  List.filter (matches s) (descendants n).

Definition querySelector (s : Selector) (n : Node) : option Node :=
  head (querySelectorAll s n).

(** ["tr"], ["td, th"], ["li"], ['input[type="checkbox"]'], ["code"] *)
Definition sel_tr : Selector := SelTag "TR".
Definition sel_td_th : Selector := SelList (SelTag "TD") (SelTag "TH").
Definition sel_li : Selector := SelTag "LI".
Definition sel_checkbox : Selector := SelTagAttr "INPUT" "type" "checkbox".
Definition sel_code : Selector := SelTag "CODE".

(** [createEl("p")] followed by [p.append(child)] for each child. *)
Definition createEl_with (name : string) (kids : list Node) : Node :=
  Element name [] [] kids.

End Dom.

(* ================================================================== *)
(** ** ADF elements and the document builder *)
(* ================================================================== *)

Module Adf.

(** Modelled from the spec: the element variants of [lib/builder/types]
    (section 3, "SDFElement"), which is not part of the sources at hand.
    Inline content is produced by the content directors only and is kept
    as a sequence of text runs.  [MediaSingle] keeps the three arguments
    the adaptor hands to [mediaSingleItem]. *)
Inductive AdfElement : Type :=
| Heading (level : nat) (text : string)
| Paragraph (inline : list string)
| Table (rows : list AdfElement)
| TableRow (cells : list (list AdfElement))
| OrderedList (items : list AdfElement)
| BulletList (items : list AdfElement)
| ListItem (content : list AdfElement)
| TaskList (items : list AdfElement)
| TaskItem (text : string) (checked : bool)
| CodeBlock (text : string)
| Blockquote (text : string)
| HorizontalRule
| MediaSingle (id collection layout : string).

(** Modelled from the spec: the builder of [lib/builder/adf] (section
    4.1).  [addItem] appends to an ordered sequence, the element
    constructors are pure, [build] returns the accumulated sequence. *)
Record ADFBuilder : Type := mkBuilder { items : list AdfElement }.

Definition newBuilder : ADFBuilder := mkBuilder [].

Definition addItem (e : AdfElement) (b : ADFBuilder) : ADFBuilder :=
  mkBuilder (items b ++ [e]).

Definition addItems (es : list AdfElement) (b : ADFBuilder) : ADFBuilder :=
  fold_left (fun acc e => addItem e acc) es b.

Definition build (b : ADFBuilder) : list AdfElement := items b.

Definition headingItem := Heading.
Definition tableItem := Table.
Definition tableRowItem := TableRow.
Definition orderedListItem := OrderedList.
Definition bulletListItem := BulletList.
Definition listItem := ListItem.
Definition taskListItem := TaskList.
Definition taskItem := TaskItem.
Definition codeBlockItem := CodeBlock.
Definition blockquoteItem := Blockquote.
Definition horizontalRuleItem := HorizontalRule.
Definition mediaSingleItem := MediaSingle.

Definition isCodeBlock (e : AdfElement) : bool :=
  match e with CodeBlock _ => true | _ => false end.

Definition isMediaSingle (e : AdfElement) : bool :=
  match e with MediaSingle _ _ _ => true | _ => false end.

Definition isTaskList (e : AdfElement) : bool :=
  match e with TaskList _ => true | _ => false end.

End Adf.

Import Dom Adf.

(* ================================================================== *)
(** ** Outcomes and [Promise.all] *)
(* ================================================================== *)

(** The outcome of an awaited call: a value, or a thrown error. *)
Inductive Result (A : Type) : Type :=
| Ok (a : A)
| Throw (e : string).

Arguments Ok {A} a.
Arguments Throw {A} e.

Definition isOk {A} (r : Result A) : bool :=
  match r with Ok _ => true | Throw _ => false end.

Definition mapResult {A B} (f : A -> B) (r : Result A) : Result B :=
  match r with Ok a => Ok (f a) | Throw e => Throw e end.

Module Promise.

(** A promise that has run to its end is described by the time at which
    it settles and by its outcome.  Branches of a fan-out are started in
    array order and settle in the order of their times; branches with
    equal times settle in array order. *)
Definition Settled (A : Type) : Type := (nat * Result A)%type.

Fixpoint indexed {A} (i : nat) (l : list A) : list (nat * A) :=
  match l with
  | [] => []
  | x :: l' => (i, x) :: indexed (S i) l'
  end.

Fixpoint insertByTime {A} (x : nat * Settled A) (q : list (nat * Settled A))
  : list (nat * Settled A) :=
  match q with
  | [] => [x]
  | y :: q' =>
      if Nat.ltb (fst (snd y)) (fst (snd x))
      then y :: insertByTime x q'
      else x :: q
  end.

(** The order in which the branches settle. *)
Definition completionOrder {A} (l : list (nat * Settled A))
  : list (nat * Settled A) :=
  fold_right insertByTime [] l.

(** The join: each fulfilled branch stores its value in the slot of its
    own array position; the first rejection rejects the whole join. *)
Fixpoint settle {A} (now : nat) (slots : list (option A))
    (q : list (nat * Settled A)) : nat * Result (list (option A)) :=
  match q with
  | [] => (now, Ok slots)
  | (i, (t, Ok v)) :: q' => settle t (<[i := Some v]> slots) q'
  | (_, (t, Throw e)) :: _ => (t, Throw e)
  end.

(** [Promise.all(tasks)]: settles once every branch is fulfilled, with
    the values read out in array order, or as soon as one is rejected. *)
Definition all {A} (tasks : list (Settled A)) : Settled (list A) :=
  let r := settle 0 (replicate (length tasks) None)
                  (completionOrder (indexed 0 tasks)) in
  (fst r, mapResult (omap id) (snd r)).

(** The spec's words for the join: "collect into a pre-sized indexed slot
    array by original index, wait for all, then read out in index order";
    on success that is the array of the branches' values. *)
Fixpoint sequential {A} (tasks : list (Settled A)) : Result (list A) :=
  match tasks with
  | [] => Ok []
  | (_, Ok v) :: tasks' => mapResult (cons v) (sequential tasks')
  | (_, Throw e) :: _ => Throw e
  end.

Definition fulfilled {A} (tasks : list (Settled A)) : bool :=
  forallb (fun t => isOk (snd t)) tasks.

End Promise.

(* ================================================================== *)
(** ** The world around the adaptor *)
(* ================================================================== *)

(** Obsidian's [TFile] and the other kind of [TAbstractFile]. *)
Record TFile : Type := mkTFile { file_path : string; file_name : string }.

Inductive TAbstractFile : Type :=
| AFile (f : TFile)
| AFolder (folder_path : string).

(** Modelled from the spec: the response shapes of [lib/confluence/types]
    (section 6), [createPage -> {id, spaceId, links:{base, webui}}] and
    [uploadFile -> {results: [{extensions: {fileId}}]}]; a missing
    response and a missing [extensions] field are what the adaptor's
    optional chaining guards against. *)
Record PageResponse : Type := mkPageResponse {
  page_id : string;
  page_spaceId : string;
  links_base : string;
  links_webui : string
}.

Record AttachmentExtensions : Type := mkExtensions { fileId : string }.
Record AttachmentResult : Type :=
  mkAttachment { extensions : option AttachmentExtensions }.
Record AttachmentResponse : Type :=
  mkAttachmentResponse { results : list AttachmentResult }.

(** The single entry of the multipart body built for an upload. *)
Record FormFile : Type := mkFormFile {
  form_field : string;
  form_filename : string;
  form_type : string;
  form_content : string
}.

(** Calls that leave the adaptor, in the order in which they are made.
    A content director shows twice: when it is constructed
    ([new ParagraphDirector(...)], [new TableDirector(...)]) and when it
    is run ([director.addItems(node, path)]). *)
Inductive Event : Type :=
| EGetFirstLinkpathDest (path : string)
| EGetAbstractFileByPath (path : string)
| EVaultRead (file : TFile)
| EVaultModify (file : TFile) (data : string)
| ECreatePage (spaceId pageTitle : string)
| EUpdatePage (pageId pageTitle : string) (adf : list AdfElement)
| EUploadFile (pageId : string) (form : FormFile)
| EMermaidRender (id code : string)
| EMarkdownRender (text path : string)
| ENewParagraphDirector
| ENewTableDirector
| EParagraphDirector (node : Node) (path : string)
| ETableDirector (cell : Node) (path : string)
| ENotice (message : string)
| EConsoleError (message : string).

Definition isCreatePage (e : Event) : bool :=
  match e with ECreatePage _ _ => true | _ => false end.
Definition isUpdatePage (e : Event) : bool :=
  match e with EUpdatePage _ _ _ => true | _ => false end.
Definition isUploadFile (e : Event) : bool :=
  match e with EUploadFile _ _ => true | _ => false end.
Definition isVaultModify (e : Event) : bool :=
  match e with EVaultModify _ _ => true | _ => false end.
Definition isMarkdownRender (e : Event) : bool :=
  match e with EMarkdownRender _ _ => true | _ => false end.

(** A call on the Remote Client ([this.client.page], [this.client.attachement]). *)
Definition isRemoteCall (e : Event) : bool :=
  isCreatePage e || isUpdatePage e || isUploadFile e.

(** What a traversal may do to the outside: look the file up, read it,
    render and upload diagrams, construct and run content directors, log
    an error. *)
Definition isTraversalEvent (e : Event) : bool :=
  match e with
  | EGetAbstractFileByPath _ | EVaultRead _ | EUploadFile _ _
  | EMermaidRender _ _ | ENewParagraphDirector | ENewTableDirector
  | EParagraphDirector _ _ | ETableDirector _ _
  | EConsoleError _ => true
  | _ => false
  end.

(** The collaborators of [FileAdaptor]: constructor arguments ([app],
    [client], [spaceId]), the imported modules, and the browser.  The
    content directors are taken as what they append to the builder they
    are bound to, or the error they throw; [latency] is the time a
    director takes on a node, which fixes the completion order of a
    fan-out. *)
Record Env : Type := mkEnv {
  spaceId : string;
  getFirstLinkpathDest : string -> option TFile;
  getAbstractFileByPath : string -> option TAbstractFile;
  loadProperties : string -> Result (gmap string string);
  toFile : gmap string string -> string -> string;
  createPage : string -> string -> Result PageResponse;
  updatePage : string -> string -> list AdfElement -> Result unit;
  uploadFile : string -> FormFile -> Result (option AttachmentResponse);
  mermaidRender : string -> string -> Result string;
  firstElementChild : string -> option Node;
  serializeToString : Node -> string;
  markdownRender : string -> string -> list Node;
  paragraphDirector : Node -> string -> Result (list AdfElement);
  tableDirector : Node -> string -> Result (list AdfElement);
  latency : Node -> nat;
  randomSuffix : nat -> string;
  dateNow : nat -> string
}.

(** The mutable part of the world: the vault's files by path, the calls
    made so far, and a counter that stands for the passing of time between
    calls of [Math.random] and [Date.now]. *)
Record State : Type := mkState {
  vault : gmap string string;
  trace : list Event;
  clock : nat
}.

(** Computations of the adaptor: they read and change the state and
    return a value or throw. *)
Definition M (A : Type) : Type := State -> Result A * State.

Definition ret {A} (a : A) : M A := fun st => (Ok a, st).

Definition bind {A B} (m : M A) (k : A -> M B) : M B :=
  fun st =>
    match m st with
    | (Ok a, st') => k a st'
    | (Throw e, st') => (Throw e, st')
    end.

Definition throw {A} (e : string) : M A := fun st => (Throw e, st).

Definition lift {A} (r : Result A) : M A := fun st => (r, st).

(** [try { m } catch (error) { h error }] *)
Definition tryCatch {A} (m : M A) (h : string -> M A) : M A :=
  fun st =>
    match m st with
    | (Ok a, st') => (Ok a, st')
    | (Throw e, st') => h e st'
    end.

Definition emit (e : Event) : M unit :=
  fun st => (Ok tt, mkState (vault st) (trace st ++ [e]) (clock st)).

Definition emitAll (es : list Event) : M unit :=
  fun st => (Ok tt, mkState (vault st) (trace st ++ es) (clock st)).

Definition tick : M nat :=
  fun st => (Ok (clock st), mkState (vault st) (trace st) (S (clock st))).

Notation "'let!' x ':=' m 'in' k" := (bind m (fun x => k))
  (at level 10, x pattern, m at level 100, k at level 200,
   format "'[v' 'let!'  x  ':='  m  'in' '/' k ']'").

Fixpoint foldM {A B} (f : A -> B -> M A) (l : list B) (a : A) : M A :=
  match l with
  | [] => ret a
  | x :: l' => let! a' := f a x in foldM f l' a'
  end.

(** [await this.app.vault.read(file)] *)
Definition vaultRead (file : TFile) : M string :=
  let! _ := emit (EVaultRead file) in
  fun st =>
    match vault st !! file_path file with
    | Some data => (Ok data, st)
    | None => (Throw "ENOENT", st)
    end.

(** [await this.app.vault.modify(file, data)] *)
Definition vaultModify (file : TFile) (data : string) : M unit :=
  let! _ := emit (EVaultModify file data) in
  fun st =>
    match vault st !! file_path file with
    | Some _ =>
        (Ok tt, mkState (<[file_path file := data]> (vault st))
                        (trace st) (clock st))
    | None => (Throw "ENOENT", st)
    end.

(** Modelled from the spec: [PropertiesAdaptor.addProperties] of
    [lib/adaptors/properties] (section 6: "a flat string-keyed map merged
    into a metadata block"); the patch wins over what was loaded.  Parsing
    ([loadProperties]) and serialising ([toFile]) are fields of [Env]. *)
Definition addProperties (patch props : gmap string string)
  : gmap string string := patch ∪ props.

(** A property read through a cast [as string]. *)
Definition asString (v : option string) : string := default "undefined" v.

(** A branch of a fan-out: the calls it makes when it is started, and the
    way it settles. *)
Record Branch (A : Type) : Type := mkBranch {
  started : list Event;
  settled : Promise.Settled A
}.
Arguments mkBranch {A} _ _.
Arguments started {A} _.
Arguments settled {A} _.

(** [Promise.all(xs.map(async x => ...))] seen from inside a branch: the
    inner branches are started in array order, the join settles as
    [Promise.all] does. *)
Definition joinBranches {A} (bs : list (Branch A)) : Branch (list A) :=
  mkBranch (flat_map started bs) (Promise.all (map settled bs)).

(** [await] of a branch. *)
Definition await {A} (b : Branch A) : M A :=
  let! _ := emitAll (started b) in
  lift (snd (settled b)).

Definition thenMap {A B} (f : A -> B) (b : Branch A) : Branch B :=
  mkBranch (started b) (fst (settled b), mapResult f (snd (settled b))).

(* ================================================================== *)
(** ** [FileAdaptor] *)
(* ================================================================== *)

Section FileAdaptor.

Variable env : Env.

Definition quoted (s : string) : string :=
  String (ascii_of_nat 34) s +:+ String (ascii_of_nat 34) EmptyString.

Definition xmlDeclaration : string :=
  "<?xml version=" +:+ quoted "1.0" +:+ " encoding=" +:+ quoted "UTF-8" +:+
  " standalone=" +:+ quoted "no" +:+ "?>" +:+
  String (ascii_of_nat 10) EmptyString.

(** [el.setAttribute(name, value)] *)
Fixpoint setAttr (name value : string) (a : list (string * string))
  : list (string * string) :=
  match a with
  | [] => [(name, value)]
  | (k, v) :: a' =>
      if String.eqb k name then (k, value) :: a'
      else (k, v) :: setAttr name value a'
  end.

Definition setAttribute (name value : string) (n : Node) : Node :=
  match n with
  | Element tag cs a kids => Element tag cs (setAttr name value a) kids
  | Text d => Text d
  end.

(** [attachmentResponse?.results[0]?.extensions], then [.fileId]. *)
Definition firstFileId (response : option AttachmentResponse)
  : option string :=
  match response with
  | Some r =>
      match results r with
      | first :: _ =>
          match extensions first with
          | Some ext => Some (fileId ext)
          | None => None
          end
      | [] => None
      end
  | None => None
  end.

(** The body of the [try] block of [convertMermaidToImage]. *)
Definition renderAndUpload (mermaidCode pageId : string) : M (option string) :=
  let! r := tick in
  let id := "mermaid-" +:+ randomSuffix env r in
  let! _ := emit (EMermaidRender id mermaidCode) in
  let! svg := lift (mermaidRender env id mermaidCode) in
  match firstElementChild env svg with
  | None => throw "TypeError: svgElement is null"
  | Some svgElement =>
      let svgElement :=
        setAttribute "style" "background-color: white;"
          (setAttribute "height" "800"
             (setAttribute "width" "1200" svgElement)) in
      let svgString := xmlDeclaration +:+ serializeToString env svgElement in
      let! now := tick in
      let filename := "mermaid-" +:+ dateNow env now +:+ ".svg" in
      let formData := mkFormFile "file" filename "image/svg+xml" svgString in
      let! _ := emit (EUploadFile pageId formData) in
      let! attachmentResponse := lift (uploadFile env pageId formData) in
      ret (firstFileId attachmentResponse)
  end.

Definition convertMermaidToImage (mermaidCode pageId : string)
  : M (option string) :=
  tryCatch (renderAndUpload mermaidCode pageId)
    (fun error =>
       let! _ := emit (EConsoleError
                         ("Error in convertMermaidToImage: " +:+ error)) in
       ret None).

Definition isHeadingName (name : string) : bool :=
  existsb (String.eqb name) ["H1"; "H2"; "H3"; "H4"; "H5"; "H6"].

(** [Array.from(codeElement.classList).find(cls =>
      cls.startsWith('language-'))?.replace('language-', '')] *)
Definition languageOf (codeElement : Node) : option string :=
  option_map (Js.replace "language-" "")
    (List.find (Js.startsWith "language-") (classList codeElement)).

(** The [try] block of the mermaid case: the builder with the image
    appended when the [break] inside it is reached, nothing otherwise. *)
Definition tryMermaid (codeText filePath : string) (builder : ADFBuilder)
  : M (option ADFBuilder) :=
  let! _ := emit (EGetAbstractFileByPath filePath) in
  match getAbstractFileByPath env filePath with
  | Some (AFile file) =>
      let! fileData := vaultRead file in
      let! properties := lift (loadProperties env fileData) in
      match properties !! "pageId" with
      | Some pageId =>
          if Js.truthy pageId then
            let! fileId := convertMermaidToImage codeText pageId in
            match fileId with
            | Some fileId =>
                if Js.truthy fileId then
                  ret (Some (addItem
                               (mediaSingleItem fileId "attachment" "wide")
                               builder))
                else ret None
            | None => ret None
            end
          else ret None
      | None => ret None
      end
  | _ => ret None
  end.

(** The [async (cell) => ...] callback of the table case. *)
Definition cellBranch (filePath : string) (cell : Node)
  : Branch (list AdfElement) :=
  mkBranch [ENewTableDirector; ETableDirector cell filePath]
    (latency env cell,
     mapResult (fun es => build (addItems es newBuilder))
               (tableDirector env cell filePath)).

(** The [async (row) => ...] callback of the table case. *)
Definition rowBranch (filePath : string) (row : Node) : Branch AdfElement :=
  thenMap tableRowItem
    (joinBranches (map (cellBranch filePath) (querySelectorAll sel_td_th row))).

Definition isTaskListNode (node : Node) : bool :=
  Nat.eqb (length (querySelectorAll sel_li node))
          (length (querySelectorAll sel_checkbox node)).

(** The [async (li) => ...] callback of the list case: the director is
    constructed for every child, and run for the children of a list that
    is not a task list. *)
Definition itemBranch (isTaskList : bool) (filePath : string) (li : Node)
  : Branch AdfElement :=
  if isTaskList then
    mkBranch [ENewParagraphDirector]
      (0, Ok (taskItem (Js.trim (textContent li))
                       (Js.Boolean (getAttr li "data-task"))))
  else
    let p := createEl_with "P" (childNodes li) in
    mkBranch [ENewParagraphDirector; EParagraphDirector p filePath]
      (latency env p,
       mapResult (fun es => listItem (build (addItems es newBuilder)))
                 (paragraphDirector env p filePath)).

Definition traverse (node : Node) (builder : ADFBuilder) (filePath : string)
  : M ADFBuilder :=
  let name := nodeName node in
  if isHeadingName name then
    ret (addItem (headingItem (Js.digit (String.get 1 name))
                              (textContent node)) builder)
  else if String.eqb name "TABLE" then
    let tableRows := querySelectorAll sel_tr node in
    let! tableContent :=
      await (joinBranches (map (rowBranch filePath) tableRows)) in
    ret (addItem (tableItem tableContent) builder)
  else if String.eqb name "PRE" then
    match querySelector sel_code node with
    | Some codeElement =>
        let codeText := textContent codeElement in
        let language := languageOf codeElement in
        let rest :=
          if negb (classList_contains codeElement "language-yaml")
          then addItem (codeBlockItem codeText) builder
          else builder in
        match language with
        | Some lang =>
            if String.eqb lang "mermaid" then
              let! image :=
                tryCatch (tryMermaid codeText filePath builder)
                  (fun error =>
                     let! _ := emit (EConsoleError
                                 ("Error processing mermaid diagram: "
                                  +:+ error)) in
                     ret None) in
              match image with
              | Some builder' => ret builder'
              | None => ret rest
              end
            else ret rest
        | None => ret rest
        end
    | None => ret builder
    end
  else if String.eqb name "P" then
    let! _ := emit ENewParagraphDirector in
    let! _ := emit (EParagraphDirector node filePath) in
    let! es := lift (paragraphDirector env node filePath) in
    ret (addItems es builder)
  else if String.eqb name "OL" || String.eqb name "UL" then
    let isTaskList := isTaskListNode node in
    let! listItems :=
      await (joinBranches
               (map (itemBranch isTaskList filePath) (children node))) in
    if isTaskList then ret (addItem (taskListItem listItems) builder)
    else if String.eqb name "OL"
    then ret (addItem (orderedListItem listItems) builder)
    else ret (addItem (bulletListItem listItems) builder)
  else if String.eqb name "BLOCKQUOTE" then
    ret (addItem (blockquoteItem (textContent node)) builder)
  else if String.eqb name "HR" then
    ret (addItem horizontalRuleItem builder)
  else ret builder.

Definition htmlToAdf (container : Node) (filePath : string)
  : M (list AdfElement) :=
  let! builder :=
    foldM (fun b node => traverse node b filePath)
          (childNodes container) newBuilder in
  ret (build builder).

(** [MarkdownRenderer.render] fills the container; its children are what
    the renderer has put there when the traversal starts. *)
Definition convertObs2Adf (text path : string) : M (list AdfElement) :=
  let! _ := emit (EMarkdownRender text path) in
  let container := Element "DIV" [] [] (markdownRender env text path) in
  htmlToAdf container path.

Definition getConfluenceLink (path : string) : M string :=
  let! _ := emit (EGetFirstLinkpathDest path) in
  match getFirstLinkpathDest env path with
  | None => ret "#"
  | Some file =>
      let! fileData := vaultRead file in
      let! properties := lift (loadProperties env fileData) in
      let cached :=
        match properties !! "confluenceUrl" with
        | Some url => Js.truthy url
        | None => false
        end in
      if cached then ret (asString (properties !! "confluenceUrl"))
      else
        let! _ := emit (ECreatePage (spaceId env) (file_name file)) in
        let! response :=
          lift (createPage env (spaceId env) (file_name file)) in
        let confluenceUrl := links_base response +:+ links_webui response in
        let properties' :=
          addProperties
            (<["pageId" := page_id response]>
               (<["spaceId" := page_spaceId response]>
                  {["confluenceUrl" := confluenceUrl]}))
            properties in
        let! _ := vaultModify file (toFile env properties' fileData) in
        let! adf := convertObs2Adf fileData path in
        let pageId := asString (properties' !! "pageId") in
        let! _ := emit (EUpdatePage pageId (file_name file) adf) in
        let! _ := lift (updatePage env pageId (file_name file) adf) in
        let! _ := emit (ENotice ("Page Created: " +:+ file_name file)) in
        ret confluenceUrl
  end.

End FileAdaptor.

(* ================================================================== *)
(** ** Notions used to state the properties *)
(* ================================================================== *)

(** The node kinds [traverse] has a case for. *)
Definition recognized (n : Node) : bool :=
  let name := nodeName n in
  isHeadingName name || String.eqb name "TABLE" || String.eqb name "PRE"
  || String.eqb name "P" || (String.eqb name "OL" || String.eqb name "UL")
  || String.eqb name "BLOCKQUOTE" || String.eqb name "HR".

(** The recognized nodes that always stand for exactly one element:
    every kind but the paragraph, and the code block only when it has a
    code element that does not carry the metadata class. *)
Definition singleElement (n : Node) : bool :=
  let name := nodeName n in
  if String.eqb name "P" then false
  else if String.eqb name "PRE" then
    match querySelector sel_code n with
    | Some c => negb (classList_contains c "language-yaml")
    | None => false
    end
  else recognized n.

(** What one top-level node adds to the output sequence: one element of
    its kind for a heading, a table, a blockquote and a horizontal rule;
    for a list one [TaskList] when it is classified as a task list, else
    one [OrderedList] for an [OL] and one [BulletList] for a [UL]; for a
    code block one [CodeBlock] (not with the class [language-yaml]), one
    [MediaSingle] (only with the language tag [mermaid]) or nothing (only
    with the class [language-yaml], or without a code element); for a
    paragraph what its director appends; nothing for any other node. *)
Definition contributes (env : Env) (path : string) (node : Node)
    (chunk : list AdfElement) : Prop :=
  let name := nodeName node in
  if isHeadingName name then
    chunk = [Heading (Js.digit (String.get 1 name)) (textContent node)]
  else if String.eqb name "TABLE" then exists rows, chunk = [Table rows]
  else if String.eqb name "PRE" then
    match querySelector sel_code node with
    | Some c =>
        (chunk = [CodeBlock (textContent c)]
         /\ classList_contains c "language-yaml" = false)
        \/ (exists id, chunk = [MediaSingle id "attachment" "wide"]
            /\ languageOf c = Some "mermaid")
        \/ (chunk = [] /\ classList_contains c "language-yaml" = true)
    | None => chunk = []
    end
  else if String.eqb name "P" then paragraphDirector env node path = Ok chunk
  else if String.eqb name "OL" || String.eqb name "UL" then
    exists items,
      chunk = [if isTaskListNode node then TaskList items
               else if String.eqb name "OL" then OrderedList items
               else BulletList items]
  else if String.eqb name "BLOCKQUOTE" then
    chunk = [Blockquote (textContent node)]
  else if String.eqb name "HR" then chunk = [HorizontalRule]
  else chunk = [].

(** The page id the mermaid case finds for the document at [path], if it
    finds one: the path names a file, the file can be read, its metadata
    parses and holds a non-empty [pageId]. *)
Definition linkedPageId (env : Env) (path : string) (st : State)
  : option string :=
  match getAbstractFileByPath env path with
  | Some (AFile file) =>
      match vault st !! file_path file with
      | Some data =>
          match loadProperties env data with
          | Ok props =>
              match props !! "pageId" with
              | Some pageId => if Js.truthy pageId then Some pageId else None
              | None => None
              end
          | Throw _ => None
          end
      | None => None
      end
  | _ => None
  end.

(** The list items of a node: its element children that are [LI]. *)
Definition itemChildren (node : Node) : list Node :=
  List.filter (matches sel_li) (children node).

(** The task item read off one list item. *)
Definition taskItemOf (li : Node) : AdfElement :=
  TaskItem (Js.trim (textContent li)) (Js.Boolean (getAttr li "data-task")).

(** Calls one after the other, stopping at the first error. *)
Fixpoint mapR {A B} (f : A -> Result B) (l : list A) : Result (list B) :=
  match l with
  | [] => Ok []
  | x :: l' =>
      match f x with
      | Ok y => mapResult (cons y) (mapR f l')
      | Throw e => Throw e
      end
  end.

(** The spec's words for one table cell: "a fresh sub-builder plus the
    table-cell Content Director run on that cell alone". *)
Definition cellDirect (env : Env) (path : string) (cell : Node)
  : Result (list AdfElement) :=
  match tableDirector env cell path with
  | Ok es => Ok (build (addItems es newBuilder))
  | Throw e => Throw e
  end.

(** The rows and cells the table case selects ([querySelectorAll("tr")]
    on the table, [querySelectorAll("td, th")] on each of them),
    converted one after the other. *)
Definition tableSelected (env : Env) (path : string) (node : Node)
  : Result (list (list (list AdfElement))) :=
  mapR (fun row => mapR (cellDirect env path) (querySelectorAll sel_td_th row))
       (querySelectorAll sel_tr node).

(** The spec's words for the structure of a table ("tables expose
    row/cell sub-structure"): the rows of a table are its [TR] children
    and the [TR] children of its sections, in source order; the cells of a
    row are its [TD] and [TH] children. *)
Definition isSection (n : Node) : bool :=
  matches (SelList (SelTag "THEAD") (SelList (SelTag "TBODY") (SelTag "TFOOT")))
          n.

Definition ownRows (table : Node) : list Node :=
  flat_map (fun k => if matches sel_tr k then [k]
                     else if isSection k
                          then List.filter (matches sel_tr) (children k)
                          else [])
           (children table).

Definition ownCells (row : Node) : list Node :=
  List.filter (matches sel_td_th) (children row).

(** The spec's words for a table: a direct, non-concurrent conversion,
    row after row and cell after cell. *)
Definition tableDirect (env : Env) (path : string) (node : Node)
  : Result (list (list (list AdfElement))) :=
  mapR (fun row => mapR (cellDirect env path) (ownCells row)) (ownRows node).

(** Nothing is nested in the table: the [tr] elements below it are its
    own rows, and the [td] and [th] elements below a row are the row's
    own cells. *)
Definition unnested (node : Node) : Prop :=
  querySelectorAll sel_tr node = ownRows node
  /\ Forall (fun row => querySelectorAll sel_td_th row = ownCells row)
            (ownRows node).

(** Nothing below [n], [n] included, is a row or a cell. *)
Definition bare (n : Node) : bool :=
  forallb (fun d => negb (matches sel_tr d) && negb (matches sel_td_th d))
          (subtree n).

(** A row as the HTML parser builds it, with nothing nested in its cells:
    its cells are among its children, and no other row or cell lies below
    it. *)
Definition plainRow (row : Node) : bool :=
  forallb (fun k => if matches sel_td_th k
                    then forallb bare (childNodes k) else bare k)
          (childNodes row).

(** A table as the HTML parser builds it, with nothing nested in it: its
    rows are among its children and the children of its sections. *)
Definition plainTable (table : Node) : bool :=
  forallb (fun k =>
             if matches sel_tr k then plainRow k
             else if isSection k
                  then forallb (fun r => if matches sel_tr r
                                         then plainRow r else bare r)
                               (childNodes k)
                  else bare k)
          (childNodes table).

(** The spec's words for trimmed text.  [blank s]: the string is a run of
    white-space code points; [trimmed s t]: [t] is [s] without the white
    space at its two ends, and has none left there. *)
Inductive blank : string -> Prop :=
| blank_nil : blank ""
| blank_cons w s : Js.isWhite w = true -> blank s -> blank (w +:+ s).

Definition startsWhite (t : string) : Prop :=
  exists w r, Js.isWhite w = true /\ t = w +:+ r.

Definition endsWhite (t : string) : Prop :=
  exists l w, Js.isWhite w = true /\ t = l +:+ w.

Definition trimmed (s t : string) : Prop :=
  exists l r, s = l +:+ t +:+ r /\ blank l /\ blank r
              /\ ~ startsWhite t /\ ~ endsWhite t.

(** The same environment with other completion times. *)
Definition withLatency (lat : Node -> nat) (env : Env) : Env :=
  mkEnv (spaceId env) (getFirstLinkpathDest env) (getAbstractFileByPath env)
        (loadProperties env) (toFile env) (createPage env) (updatePage env)
        (uploadFile env) (mermaidRender env) (firstElementChild env)
        (serializeToString env) (markdownRender env) (paragraphDirector env)
        (tableDirector env) lat (randomSuffix env) (dateNow env).

(** The identity written on first linkage. *)
Definition identityOf (response : PageResponse) : gmap string string :=
  <["pageId" := page_id response]>
    (<["spaceId" := page_spaceId response]>
       {["confluenceUrl" := links_base response +:+ links_webui response]}).

(** [st'] is [st] after some calls that all satisfy [P]; the vault is
    the same. *)
Definition extends (P : Event -> bool) (st st' : State) : Prop :=
  vault st' = vault st /\
  exists evs, trace st' = trace st ++ evs /\ forallb P evs = true.

(** A computation that leaves the vault alone and only makes calls that
    satisfy [P]. *)
Definition only {A} (P : Event -> bool) (m : M A) : Prop :=
  forall st r st', m st = (r, st') -> extends P st st'.

Definition isListName (node : Node) : Prop :=
  nodeName node = "OL" \/ nodeName node = "UL".

(** The state [st] after the calls [calls], with the vault and the clock
    as they were. *)
Definition afterCalls (st : State) (calls : list Event) : State :=
  mkState (vault st) (trace st ++ calls) (clock st).

(** The calls of a task list: one paragraph director constructed per
    element child, none of them run. *)
Definition taskListCalls (node : Node) : list Event :=
  map (fun _ => ENewParagraphDirector) (children node).

(** The calls a table starts: one table-cell director constructed and
    run per cell, row by row and cell by cell. *)
Definition tableCalls (path : string) (node : Node) : list Event :=
  flat_map (fun row =>
              flat_map (fun cell =>
                          [ENewTableDirector; ETableDirector cell path])
                       (querySelectorAll sel_td_th row))
           (querySelectorAll sel_tr node).

(** [traverse] returns normally, having appended exactly [chunk]. *)
Definition appends (env : Env) (node : Node) (b : ADFBuilder)
    (path : string) (st : State) (chunk : list AdfElement) : Prop :=
  exists b' st',
    traverse env node b path st = (Ok b', st')
    /\ items b' = items b ++ chunk.

(** What the code block case does once the mermaid attempt is over or
    was not made. *)
Definition fallbackChunk (c : Node) : list AdfElement :=
  if classList_contains c "language-yaml" then []
  else [CodeBlock (textContent c)].

Definition consoleHandler (prefix : string) (error : string)
  : M (option ADFBuilder) :=
  let! _ := emit (EConsoleError (prefix +:+ error)) in ret None.

(** The cached remote URL, if the properties hold a non-empty one. *)
Definition cachedUrl (properties : gmap string string) : option string :=
  match properties !! "confluenceUrl" with
  | Some url => if Js.truthy url then Some url else None
  | None => None
  end.

(** How many of the calls in [evs] satisfy [Q]. *)
Definition count (Q : Event -> bool) (evs : list Event) : nat :=
  length (List.filter Q evs).

Section Notions.
Variable env : Env.

(** One list item converted on its own: a synthetic paragraph made of
    the item's child nodes, a fresh sub-builder, the paragraph director. *)
Definition listItemDirect (path : string) (li : Node) : Result AdfElement :=
  mapResult (fun es => listItem (build (addItems es newBuilder)))
    (paragraphDirector env (createEl_with "P" (childNodes li)) path).

(** The render identifier and the upload body of a pipeline run that
    starts in state [st]. *)
Definition renderId (st : State) : string :=
  "mermaid-" +:+ randomSuffix env (clock st).

Definition uploadBody (st : State) (svgElement : Node) : FormFile :=
  mkFormFile "file"
    ("mermaid-" +:+ dateNow env (S (clock st)) +:+ ".svg")
    "image/svg+xml"
    (xmlDeclaration +:+
     serializeToString env
       (setAttribute "style" "background-color: white;"
          (setAttribute "height" "800"
             (setAttribute "width" "1200" svgElement)))).

(** The value of a pipeline run, stage by stage. *)
Definition pipelineValue (code pageId : string) (st : State)
  : option string :=
  match mermaidRender env (renderId st) code with
  | Ok svg =>
      match firstElementChild env svg with
      | Some el =>
          match uploadFile env pageId (uploadBody st el) with
          | Ok response => firstFileId response
          | Throw _ => None
          end
      | None => None
      end
  | Throw _ => None
  end.

(** The image the mermaid attempt appends, if it gets that far. *)
Definition imageChunk (c : Node) (path : string) (st : State)
  : option AdfElement :=
  match linkedPageId env path st with
  | Some pageId =>
      match pipelineValue (textContent c) pageId st with
      | Some fileId =>
          if Js.truthy fileId
          then Some (MediaSingle fileId "attachment" "wide") else None
      | None => None
      end
  | None => None
  end.

(** The document at [path] as [getConfluenceLink] finds it: the file the
    path resolves to, its text, and the metadata parsed from the text. *)
Definition documentAt (path : string) (st : State) (file : TFile)
    (fileData : string) (properties : gmap string string) : Prop :=
  getFirstLinkpathDest env path = Some file
  /\ vault st !! file_path file = Some fileData
  /\ loadProperties env fileData = Ok properties.

(** The source text with the metadata block of the new identity. *)
Definition annotated (properties : gmap string string)
    (response : PageResponse) (fileData : string) : string :=
  toFile env (addProperties (identityOf response) properties) fileData.

(** The state in which the content conversion of a first linkage starts:
    the page has been created, the annotated source is in the vault, the
    renderer has been called on the text read at the beginning. *)
Definition stateBeforeTraversal path st file fileData properties response
  : State :=
  mkState (<[file_path file := annotated properties response fileData]>
             (vault st))
          (trace st ++
           [EGetFirstLinkpathDest path; EVaultRead file;
            ECreatePage (spaceId env) (file_name file);
            EVaultModify file (annotated properties response fileData);
            EMarkdownRender fileData path])
          (clock st).

Definition renderedContainer (fileData path : string) : Node :=
  Element "DIV" [] [] (markdownRender env fileData path).

End Notions.

(* ================================================================== *)
(** ** A small world to run the adaptor in *)
(* ================================================================== *)

Module Sample.

Definition noteFile : TFile := mkTFile "note.md" "note.md".

Definition response : PageResponse :=
  mkPageResponse "42" "SPACE" "https://wiki" "/pages/42".

(** A toy metadata format: the block is the page id in brackets in front
    of the text. *)
Definition env : Env := {|
  spaceId := "SPACE";
  getFirstLinkpathDest p :=
    if String.eqb p "note" then Some noteFile else None;
  getAbstractFileByPath p :=
    if String.eqb p "note" then Some (AFile noteFile)
    else if String.eqb p "dir" then Some (AFolder "dir") else None;
  loadProperties text :=
    if String.prefix "[42]" text then Ok (identityOf response) else Ok ∅;
  toFile props text := "[" +:+ asString (props !! "pageId") +:+ "]" +:+ text;
  createPage space title := Ok response;
  updatePage pageId title adf := Ok tt;
  uploadFile pageId form :=
    Ok (Some (mkAttachmentResponse
                [mkAttachment (Some (mkExtensions "file-7"))]));
  mermaidRender id code :=
    if String.eqb code "graph TD" then Ok "<svg></svg>"
    else Throw "Parse error";
  firstElementChild markup := Some (Element "svg" [] [] []);
  serializeToString n := "<svg/>";
  markdownRender text path :=
    [Element "H1" [] [] [Text "Title"]; Text " ";
     Element "PRE" [] []
       [Element "CODE" ["language-mermaid"] [] [Text "graph TD"]]];
  paragraphDirector node path := Ok [Paragraph [textContent node]];
  tableDirector cell path := Ok [Paragraph [textContent cell]];
  latency node := 10 - String.length (textContent node);
  randomSuffix n := "x";
  dateNow n := "0"
|}.

(** The vault before and after the first linkage of the note. *)
Definition fresh : State := mkState {["note.md" := "body"]} [] 0.
Definition linked : State := mkState {["note.md" := "[42]body"]} [] 0.

(** [- [x] a] / [- [ ] b] as rendered: the item carries the state of its
    checkbox in [data-task]. *)
Definition checkbox : Node := Element "INPUT" [] [("type", "checkbox")] [].

Definition taskList : Node :=
  Element "UL" ["contains-task-list"] []
    [Text " ";
     Element "LI" ["task-list-item"; "is-checked"] [("data-task", "x")]
       [checkbox; Text "a"];
     Text " ";
     Element "LI" ["task-list-item"] [("data-task", "")]
       [checkbox; Text "b"];
     Text " "].

(** Three items, three checkboxes, all of them in the first item. *)
Definition lopsided : Node :=
  Element "UL" [] []
    [Element "LI" [] [] [checkbox; checkbox; checkbox; Text "a"];
     Element "LI" [] [] [Text "b"];
     Element "LI" [] [] [Text "c"]].

(** [- [ ] a] with [- [ ] b] nested under it: one item child, two list
    items and two checkboxes below the node. *)
Definition nested : Node :=
  Element "UL" [] []
    [Element "LI" [] [("data-task", "")]
       [checkbox; Text "a";
        Element "UL" [] []
          [Element "LI" [] [("data-task", "")] [checkbox; Text "b"]]]].

(** The same list with white space around the text of its items: a
    space in front, a no-break space (U+00A0) and a line feed behind. *)
Definition spacedTaskList : Node :=
  Element "UL" ["contains-task-list"] []
    [Element "LI" ["task-list-item"; "is-checked"] [("data-task", "x")]
       [checkbox; Text " a b"; Text (Js.bytes [194; 160; 10])];
     Element "LI" ["task-list-item"] [("data-task", "")]
       [checkbox; Text (Js.bytes [9]); Text "b"]].

(** An item whose checkbox has its type written in upper case, and whose
    [data-task] is a blank: a non-empty string. *)
Definition shouting : Node :=
  Element "UL" [] []
    [Element "LI" [] [("data-task", " ")]
       [Element "INPUT" [] [("type", "CHECKBOX")] []; Text "a"]].

(** A list without any list item: its only element child is a [DIV]. *)
Definition strayList : Node :=
  Element "UL" [] [] [Element "DIV" [] [] [Text "x"]].

Definition plainList : Node :=
  Element "OL" [] []
    [Element "LI" [] [] [Text "one"]; Element "LI" [] [] [Text "three"]].

Definition emptyList : Node := Element "UL" [] [] [Text " "].

Definition cell (tag text : string) : Node := Element tag [] [] [Text text].

Definition table : Node :=
  Element "TABLE" [] []
    [Element "THEAD" [] []
       [Element "TR" [] [] [cell "TH" "h1"; cell "TH" "h-two"]];
     Element "TBODY" [] []
       [Element "TR" [] [] [cell "TD" "a"; cell "TD" "bcd"]]].

(** One row of two cells, the second of which holds a table of one row
    and one cell. *)
Definition innerTable : Node :=
  Element "TABLE" [] []
    [Element "TBODY" [] [] [Element "TR" [] [] [cell "TD" "in"]]].

Definition nestedTable : Node :=
  Element "TABLE" [] []
    [Element "TBODY" [] []
       [Element "TR" [] []
          [cell "TD" "a"; Element "TD" [] [] [innerTable]]]].

Definition code (cls text : string) : Node :=
  Element "PRE" [] [] [Element "CODE" [cls] [] [Text text]].

(** A code block whose code element carries two language classes: its
    language tag is [mermaid], and it carries [language-yaml] too. *)
Definition mermaidYamlElement (text : string) : Node :=
  Element "CODE" ["language-mermaid"; "language-yaml"] [] [Text text].

Definition mermaidYaml (text : string) : Node :=
  Element "PRE" [] [] [mermaidYamlElement text].

Definition yamlOnly : Node :=
  Element "DIV" [] [] [code "language-yaml" "pageId: 42"].

End Sample.

Definition sampleDocument : Node :=
  Element "DIV" [] []
    [Element "H2" [] [] [Text "Plan"]; Text " ";
     Element "SPAN" [] [] [Text "skipped"];
     Sample.code "language-js" "let x";
     Element "HR" [] [] []; Sample.plainList].

(** A checkbox in the outer item only, with a plain list nested under
    it: one item child and one checkbox, but two list items below. *)
Definition nestedPlain : Node :=
  Element "UL" [] []
    [Element "LI" [] [("data-task", "")]
       [Sample.checkbox; Text "a";
        Element "UL" [] [] [Element "LI" [] [] [Text "b"]]]].

Definition sampleRows : list (list (list AdfElement)) :=
  [[[Paragraph ["h1"]]; [Paragraph ["h-two"]]];
   [[Paragraph ["a"]]; [Paragraph ["bcd"]]]].

Definition codeElement (cls text : string) : Node :=
  Element "CODE" [cls] [] [Text text].

(* ------------------------------------------------------------------ *)
(** *** Further notions: builders, calls, failing collaborators *)
(* ------------------------------------------------------------------ *)

(** The builder [b] followed by what the builder [c] holds. *)
Definition appendTo (b c : ADFBuilder) : ADFBuilder :=
  mkBuilder (items b ++ items c).

(** The outcome of a step run on a fresh builder, seen from a builder
    that already holds the items of [b]. *)
Definition rebase (b : ADFBuilder) (r : Result ADFBuilder * State)
  : Result ADFBuilder * State :=
  (mapResult (appendTo b) (fst r), snd r).



Definition isMermaidRender (e : Event) : bool :=
  match e with EMermaidRender _ _ => true | _ => false end.

(** The element handed to the serializer: the rendered element with the
    three attributes set as lines 114-116 set them. *)
Definition sized (svgElement : Node) : Node :=
  setAttribute "style" "background-color: white;"
    (setAttribute "height" "800" (setAttribute "width" "1200" svgElement)).



(** The node kinds whose case calls a collaborator: paragraphs, tables,
    lists that are not task lists, and code blocks tagged [mermaid]. *)
Definition callsOut (node : Node) : bool :=
  let name := nodeName node in
  if isHeadingName name then false
  else if String.eqb name "TABLE" then true
  else if String.eqb name "PRE" then
    match querySelector sel_code node with
    | Some c =>
        match languageOf c with
        | Some lang => String.eqb lang "mermaid"
        | None => false
        end
    | None => false
    end
  else if String.eqb name "P" then true
  else if String.eqb name "OL" || String.eqb name "UL"
  then negb (isTaskListNode node)
  else false.

(** What a node of the other kinds leaves in the record of calls: the
    directors a task list constructs, and nothing else. *)
Definition quietCalls (node : Node) : list Event :=
  if String.eqb (nodeName node) "OL" || String.eqb (nodeName node) "UL"
  then taskListCalls node else [].

(** The synthetic paragraph the list case builds for an item. *)
Definition itemParagraph (li : Node) : Node :=
  createEl_with "P" (childNodes li).

(** The same environment with other content directors. *)
Definition withDirectors
    (par tab : Node -> string -> Result (list AdfElement)) (env : Env) : Env :=
  mkEnv (spaceId env) (getFirstLinkpathDest env) (getAbstractFileByPath env)
        (loadProperties env) (toFile env) (createPage env) (updatePage env)
        (uploadFile env) (mermaidRender env) (firstElementChild env)
        (serializeToString env) (markdownRender env) par tab
        (latency env) (randomSuffix env) (dateNow env).

(** The same environment with another Remote Client for pages. *)
Definition withPages
    (create : string -> string -> Result PageResponse)
    (update : string -> string -> list AdfElement -> Result unit)
    (env : Env) : Env :=
  mkEnv (spaceId env) (getFirstLinkpathDest env) (getAbstractFileByPath env)
        (loadProperties env) (toFile env) create update
        (uploadFile env) (mermaidRender env) (firstElementChild env)
        (serializeToString env) (markdownRender env)
        (paragraphDirector env) (tableDirector env)
        (latency env) (randomSuffix env) (dateNow env).

(** Directors that reject the text [bad] and convert the rest as the
    sample directors do. *)
Definition pickyDirector (node : Node) (path : string)
  : Result (list AdfElement) :=
  if String.eqb (textContent node) "bad" then Throw "malformed inline content"
  else Ok [Paragraph [textContent node]].

Definition pickyEnv : Env :=
  withDirectors pickyDirector pickyDirector Sample.env.

(** A Remote Client that is down. *)
Definition offlineEnv : Env :=
  withPages (fun _ _ => Throw "503") (fun _ _ _ => Throw "503") Sample.env.


(** A vault that knows the note under its file path only: the link text
    [note] resolves through the metadata cache, and is no path of the
    vault. *)
Definition linkOnlyEnv : Env :=
  mkEnv "SPACE" (getFirstLinkpathDest Sample.env)
        (fun p => if String.eqb p "note.md"
                  then Some (AFile Sample.noteFile) else None)
        (loadProperties Sample.env)
        (toFile Sample.env) (createPage Sample.env) (updatePage Sample.env)
        (uploadFile Sample.env) (mermaidRender Sample.env)
        (firstElementChild Sample.env) (serializeToString Sample.env)
        (markdownRender Sample.env) (paragraphDirector Sample.env)
        (tableDirector Sample.env) (latency Sample.env)
        (randomSuffix Sample.env) (dateNow Sample.env).

Definition paragraph (text : string) : Node :=
  Element "P" [] [] [Text text].

(** The calls a list that is not a task list starts: one paragraph
    director constructed per element child and run on the synthetic
    paragraph of the child. *)
Definition listCalls (path : string) (node : Node) : list Event :=
  flat_map (fun li => [ENewParagraphDirector;
                       EParagraphDirector (itemParagraph li) path])
           (children node).

(** A table with a cell the picky director rejects. *)
Definition brokenTable : Node :=
  Element "TABLE" [] []
    [Element "TR" [] [] [Sample.cell "TD" "a"; Sample.cell "TD" "bad"];
     Element "TR" [] [] [Sample.cell "TD" "c"; Sample.cell "TD" "d"]].

(** A rendered diagram that comes with a width of its own, and a
    serializer that shows the size it is given. *)
Definition rawSvg : Node :=
  Element "svg" [] [("width", "100%"); ("id", "m1")] [Text "g"].

Definition svgEnv : Env :=
  mkEnv "SPACE" (getFirstLinkpathDest Sample.env)
        (getAbstractFileByPath Sample.env) (loadProperties Sample.env)
        (toFile Sample.env) (createPage Sample.env) (updatePage Sample.env)
        (uploadFile Sample.env) (mermaidRender Sample.env)
        (fun _ => Some rawSvg)
        (fun n => asString (getAttr n "width") +:+ "x" +:+
                  asString (getAttr n "height"))
        (markdownRender Sample.env) (paragraphDirector Sample.env)
        (tableDirector Sample.env) (latency Sample.env)
        (randomSuffix Sample.env) (dateNow Sample.env).

(* ================================================================== *)
(** ** Facts about the primitives *)
(* ================================================================== *)

Lemma items_addItems es b : items (addItems es b) = items b ++ es.
Proof.
  revert b. induction es as [|e es IH]; intros b; simpl.
  - by rewrite app_nil_r.
  - rewrite IH. simpl. by rewrite <- app_assoc.
Qed.

Example trim_sample : Js.trim "  a b
 " = "a b".
Proof. reflexivity. Qed.

(** A no-break space, a line separator and a byte order mark are white
    space; the last byte of an accented letter is not. *)
Example trim_unicode_sample :
  Js.trim (Js.bytes [194; 160; 226; 128; 168; 97; 32; 195; 160; 239; 187; 191])
  = Js.bytes [97; 32; 195; 160]
  /\ Js.trim (Js.bytes [195; 160]) = Js.bytes [195; 160].
Proof. split; reflexivity. Qed.


Lemma append_cons a s t : String a s +:+ t = String a (s +:+ t).
Proof. reflexivity. Qed.
Lemma append_nil_l s : "" +:+ s = s.
Proof. reflexivity. Qed.
Lemma append_nil_r s : s +:+ "" = s.
Proof. induction s as [|a s IH]; [done|]. by rewrite append_cons, IH. Qed.
Lemma append_assoc s t u : (s +:+ t) +:+ u = s +:+ (t +:+ u).
Proof. induction s as [|a s IH]; [done|]. by rewrite !append_cons, IH. Qed.

(** A white-space code point takes one, two or three bytes. *)
Lemma isWhite_cases w :
  Js.isWhite w = true ->
  (exists a, w = String a "")
  \/ (exists a b, w = String a (String b ""))
  \/ (exists a b c, w = String a (String b (String c ""))).
Proof.
  unfold Js.isWhite. intros H. apply existsb_exists in H as (w' & Hin & Heq).
  apply String.eqb_eq in Heq. subst w'.
  vm_compute in Hin.
  repeat (destruct Hin as [<-|Hin]; [eauto 10|]). done.
Qed.

Lemma blank_one w : Js.isWhite w = true -> blank w.
Proof. intros H. rewrite <- (append_nil_r w). apply blank_cons; [done|constructor]. Qed.

Lemma blank_app l r : blank l -> blank r -> blank (l +:+ r).
Proof.
  induction 1 as [|w s Hw Hs IH]; intros Hr; [done|].
  rewrite append_assoc. apply blank_cons; auto.
Qed.

Lemma trimStart_spec_fuel n : forall s, String.length s <= n ->
  exists l, s = l +:+ Js.trimStart s /\ blank l /\ ~ startsWhite (Js.trimStart s).
Proof.
  induction n as [|n IH]; intros s Hlen.
  - destruct s; [|simpl in Hlen; lia]. exists "". split; [done|].
    split; [constructor|]. intros (w & r & Hw & Heq).
    destruct (isWhite_cases _ Hw) as [(a0 & ->)|[(a0 & b' & ->)|(a0 & b' & c0 & ->)]];
      discriminate Heq.
  - destruct s as [|a r1].
    { exists "". split; [done|]. split; [constructor|].
      intros (w & r & Hw & Heq).
      destruct (isWhite_cases _ Hw) as [(a0 & ->)|[(a0 & b' & ->)|(a0 & b' & c0 & ->)]];
        discriminate Heq. }
    cbn [Js.trimStart]. simpl in Hlen.
    destruct (Js.isWhite (String a "")) eqn:H1.
    { destruct (IH r1) as (l & Hl & Hb & Hn); [lia|].
      exists (String a "" +:+ l). split; [|split; [|done]].
      - rewrite append_assoc. cbn. by rewrite <- Hl.
      - by apply blank_cons. }
    destruct r1 as [|b r2].
    { exists "". split; [done|]. split; [constructor|].
      intros (w & r & Hw & Heq).
      destruct (isWhite_cases _ Hw) as [(a' & ->)|[(a' & b' & ->)|(a' & b' & c0 & ->)]];
        cbn in Heq; inversion Heq; subst; congruence. }
    simpl in Hlen.
    destruct (Js.isWhite (String a (String b ""))) eqn:H2.
    { destruct (IH r2) as (l & Hl & Hb & Hn); [lia|].
      exists (String a (String b "") +:+ l). split; [|split; [|done]].
      - rewrite append_assoc. cbn. by rewrite <- Hl.
      - by apply blank_cons. }
    destruct r2 as [|c r3].
    { exists "". split; [done|]. split; [constructor|].
      intros (w & r & Hw & Heq).
      destruct (isWhite_cases _ Hw) as [(a' & ->)|[(a' & b' & ->)|(a' & b' & c0 & ->)]];
        cbn in Heq; inversion Heq; subst; congruence. }
    simpl in Hlen.
    destruct (Js.isWhite (String a (String b (String c "")))) eqn:H3.
    { destruct (IH r3) as (l & Hl & Hb & Hn); [lia|].
      exists (String a (String b (String c "")) +:+ l). split; [|split; [|done]].
      - rewrite append_assoc. cbn. by rewrite <- Hl.
      - by apply blank_cons. }
    exists "". split; [done|]. split; [constructor|].
    intros (w & r & Hw & Heq).
    destruct (isWhite_cases _ Hw) as [(a' & ->)|[(a' & b' & ->)|(a' & b' & c' & ->)]];
        cbn in Heq; inversion Heq; subst; congruence.
Qed.

Lemma trimStart_spec s :
  exists l, s = l +:+ Js.trimStart s /\ blank l /\ ~ startsWhite (Js.trimStart s).
Proof. by apply (trimStart_spec_fuel (String.length s)). Qed.

Lemma white_nonempty w : Js.isWhite w = true -> w <> "".
Proof. intros H ->. discriminate H. Qed.

Lemma append_eq_cons l w a t :
  l +:+ w = String a t ->
  (l = "" /\ w = String a t) \/ (exists l', l = String a l' /\ l' +:+ w = t).
Proof.
  destruct l as [|a' l']; cbn; intros H; [by left|].
  inversion H; subst. right. by eexists.
Qed.

Lemma trimEnd_spec s :
  exists r, s = Js.trimEnd s +:+ r /\ blank r /\ ~ endsWhite (Js.trimEnd s).
Proof.
  induction s as [|a s (r & Hr & Hb & Hn)].
  - exists "". split; [done|]. split; [constructor|].
    intros (l & w & Hw & Heq). apply white_nonempty in Hw.
    destruct l; [rewrite append_nil_l in Heq; by subst w | discriminate Heq].
  - cbn [Js.trimEnd]. cbv zeta.
    destruct (Js.isWhite (String a (Js.trimEnd s))) eqn:Hw.
    + exists (String a (Js.trimEnd s) +:+ r). split; [|split].
      * by rewrite append_nil_l, append_cons, <- Hr.
      * by apply blank_cons.
      * intros (l & w & Hw' & Heq). apply white_nonempty in Hw'.
        destruct l; [rewrite append_nil_l in Heq; by subst w | discriminate Heq].
    + exists r. split; [|split; [done|]].
      * by rewrite append_cons, <- Hr.
      * intros (l & w & Hw' & Heq). symmetry in Heq.
        apply append_eq_cons in Heq as [[-> ->]|(l' & -> & Heq)]; [congruence|].
        apply Hn. by exists l', w.
Qed.

Lemma trim_spec s : trimmed s (Js.trim s).
Proof.
  unfold Js.trim.
  destruct (trimStart_spec s) as (l & Hl & Hbl & Hnl).
  destruct (trimEnd_spec (Js.trimStart s)) as (r & Hr & Hbr & Hnr).
  exists l, r. split; [|split; [done|split; [done|split; [|done]]]].
  - by rewrite <- Hr.
  - intros (w & t & Hw & Heq). apply Hnl. exists w, (t +:+ r).
    split; [done|]. rewrite Hr at 1. rewrite Heq. by rewrite append_assoc.
Qed.

Example replace_sample : Js.replace "language-" "" "language-mermaid" = "mermaid".
Proof. reflexivity. Qed.

Module PromiseFacts.
Import Promise.

Section Join.
Context {A : Type}.
Implicit Types (tasks : list (Settled A)) (q : list (nat * Settled A)).
Implicit Types (slots : list (option A)).

Lemma indexed_lookup tasks : forall i j x,
  (j, x) ∈ indexed i tasks <-> (i <= j /\ tasks !! (j - i) = Some x).
Proof.
  induction tasks as [|y tasks IH]; intros i j x; simpl.
  - split; [intros H; inversion H | intros [_ H]; discriminate].
  - rewrite elem_of_cons, IH. split.
    + intros [Heq | [Hle Hl]].
      * inversion Heq; subst. split; [lia|]. by rewrite Nat.sub_diag.
      * split; [lia|]. replace (j - i) with (S (j - S i)) by lia. done.
    + intros [Hle Hl]. destruct (decide (j = i)) as [->|Hne].
      * left. rewrite Nat.sub_diag in Hl. simpl in Hl. congruence.
      * right. split; [lia|].
        replace (j - i) with (S (j - S i)) in Hl by lia. done.
Qed.

Lemma insertByTime_perm x q : Permutation (insertByTime x q) (x :: q).
Proof.
  induction q as [|y q IH]; simpl; [done|].
  destruct (Nat.ltb _ _); [|done].
  rewrite IH. apply perm_swap.
Qed.

Lemma completionOrder_perm (l : list (nat * Settled A)) :
  Permutation (completionOrder l) l.
Proof.
  induction l as [|x l IH]; simpl; [done|].
  rewrite insertByTime_perm. by constructor.
Qed.

(** The join never loses a branch: with every queued branch fulfilled, the
    slots come back with the same length, untouched positions keep their
    content, and every queued position holds the value of a branch queued
    for it. *)
Lemma settle_fulfilled q : forall now slots,
  Forall (fun e => isOk (snd (snd e)) = true) q ->
  exists t slots', settle now slots q = (t, Ok slots')
    /\ length slots' = length slots
    /\ (forall j, j ∉ q.*1 -> slots' !! j = slots !! j)
    /\ (forall j, j ∈ q.*1 -> j < length slots ->
          exists s' v', (j, (s', Ok v')) ∈ q /\ slots' !! j = Some (Some v')).
Proof.
  induction q as [|[i [s r]] q IH]; intros now slots Hall.
  - exists now, slots. simpl. repeat split; auto.
    intros j H. inversion H.
  - inversion Hall as [|? ? Hhd Htl]; subst. simpl in Hhd.
    destruct r as [v|e]; [|discriminate]. simpl.
    destruct (IH s (<[i := Some v]> slots) Htl)
      as (t & slots' & Hrun & Hlen & Hkeep & Hfill).
    exists t, slots'. rewrite length_insert in Hlen.
    split; [done|]. split; [done|]. split.
    + intros j Hj. rewrite not_elem_of_cons in Hj. destruct Hj as [Hne Hj].
      rewrite Hkeep by done. by apply list_lookup_insert_ne.
    + intros j Hin Hlt.
      destruct (decide (j ∈ q.*1)) as [Hq|Hno].
      * destruct (Hfill j Hq) as (s' & v' & Hin' & Hl).
        { by rewrite length_insert. }
        exists s', v'. split; [by right | done].
      * apply elem_of_cons in Hin as [-> | Hin]; [|done].
        exists s, v. split; [by left|].
        rewrite Hkeep by done. by apply list_lookup_insert_eq.
Qed.

Lemma sequential_fulfilled tasks :
  fulfilled tasks = true ->
  exists vs, sequential tasks = Ok vs
    /\ length vs = length tasks
    /\ (forall j s v, tasks !! j = Some (s, Ok v) -> vs !! j = Some v).
Proof.
  induction tasks as [|[s r] tasks IH]; simpl; intros Hall.
  - exists []. repeat split; auto. intros j s v H. discriminate.
  - apply andb_true_iff in Hall as [Hhd Htl]. simpl in Hhd.
    destruct r as [v|e]; [|discriminate].
    destruct (IH Htl) as (vs & -> & Hlen & Hval).
    exists (v :: vs). simpl. split; [done|]. split; [by rewrite Hlen|].
    intros [|j] s0 v0 Hj; simpl in *; [congruence | eauto].
Qed.

Lemma omap_id_Some (vs : list A) : omap id (Some <$> vs) = vs.
Proof. induction vs as [|v vs IH]; [done | by simpl; f_equal]. Qed.

(** Fan-in preserves array order: when every branch is fulfilled, the
    join yields the branches' values in array order, whatever the times
    at which they settle. *)
Theorem all_fulfilled tasks :
  fulfilled tasks = true ->
  snd (all tasks) = sequential tasks.
Proof.
  intros Hall.
  destruct (sequential_fulfilled tasks Hall) as (vs & Hseq & Hlen & Hval).
  rewrite Hseq. unfold all. simpl.
  pose proof (completionOrder_perm (indexed 0 tasks)) as Hperm.
  set (q := completionOrder (indexed 0 tasks)) in *.
  assert (Hin : forall j x, (j, x) ∈ q <-> tasks !! j = Some x).
  { intros j x. rewrite Hperm, indexed_lookup, Nat.sub_0_r.
    split; [by intros [_ H] | intros H; split; [lia | done]]. }
  assert (Hok : Forall (fun e => isOk (snd (snd e)) = true) q).
  { apply Forall_forall. intros [j x] Hx. apply Hin in Hx. simpl.
    unfold fulfilled in Hall. rewrite forallb_forall in Hall.
    apply (Hall x). apply list_elem_of_In. eapply list_elem_of_lookup_2, Hx. }
  destruct (settle_fulfilled q 0 (replicate (length tasks) None) Hok)
    as (t & slots' & -> & Hlen' & _ & Hfill).
  rewrite length_replicate in Hlen'. simpl.
  assert (Heq : slots' = Some <$> vs); [|by rewrite Heq, omap_id_Some].
  apply list_eq. intros j. rewrite list_lookup_fmap.
  destruct (decide (j < length tasks)) as [Hlt|Hge].
  - destruct (lookup_lt_is_Some_2 tasks j Hlt) as [x Hx].
    destruct (Hfill j) as (s' & v' & Hq & ->).
    + apply list_elem_of_fmap. exists (j, x). split; [done | by apply Hin].
    + by rewrite length_replicate.
    + apply Hin in Hq. by rewrite (Hval _ _ _ Hq).
  - rewrite !lookup_ge_None_2; [done | lia | lia].
Qed.

(** A rejected join reports the error of one of its branches. *)
Lemma settle_rejected q : forall now slots t e,
  settle now slots q = (t, Throw e) ->
  exists i, (i, (t, Throw e)) ∈ q.
Proof.
  induction q as [|[i [s r]] q IH]; intros now slots t e; simpl.
  - discriminate.
  - destruct r as [v|e'].
    + intros H. destruct (IH _ _ _ _ H) as [i' Hi']. exists i'. by right.
    + intros H. inversion H; subst. exists i. by left.
Qed.

Lemma all_rejected tasks t e :
  all tasks = (t, Throw e) -> (t, Throw e) ∈ tasks.
Proof.
  unfold all. intros H.
  destruct (settle _ _ _) as [t' [slots|e']] eqn:Hrun; simpl in H; [discriminate|].
  inversion H; subst.
  destruct (settle_rejected _ _ _ _ _ Hrun) as [i Hi].
  rewrite completionOrder_perm, indexed_lookup in Hi.
  destruct Hi as [_ Hi]. eapply list_elem_of_lookup_2, Hi.
Qed.

Lemma settle_ok_fulfilled q : forall now slots t slots',
  settle now slots q = (t, Ok slots') ->
  Forall (fun e => isOk (snd (snd e)) = true) q.
Proof.
  induction q as [|[i [s r]] q IH]; intros now slots t slots'; simpl.
  - constructor.
  - destruct r as [v|e]; [|discriminate].
    intros H. constructor; [done | eapply IH, H].
Qed.

(** A join is fulfilled only when every branch is. *)
Lemma all_ok_fulfilled tasks vs :
  snd (all tasks) = Ok vs -> fulfilled tasks = true.
Proof.
  unfold all. simpl.
  destruct (settle _ _ _) as [t [slots|e]] eqn:Hrun; [|discriminate].
  intros _. apply settle_ok_fulfilled in Hrun.
  rewrite completionOrder_perm in Hrun.
  unfold fulfilled. apply forallb_forall.
  intros x [j Hj]%list_elem_of_In%list_elem_of_lookup_1.
  rewrite Forall_forall in Hrun. apply (Hrun (j, x)).
  apply indexed_lookup. rewrite Nat.sub_0_r. split; [lia | done].
Qed.

End Join.

End PromiseFacts.

(* ================================================================== *)
(** ** Reasoning about computations *)
(* ================================================================== *)

Lemma extends_refl P st : extends P st st.
Proof. split; [done|]. exists []. by rewrite app_nil_r. Qed.

Lemma extends_trans P st1 st2 st3 :
  extends P st1 st2 -> extends P st2 st3 -> extends P st1 st3.
Proof.
  intros [Hv1 (e1 & Ht1 & Hp1)] [Hv2 (e2 & Ht2 & Hp2)]. split; [congruence|].
  exists (e1 ++ e2). rewrite Ht2, Ht1, <- app_assoc. split; [done|].
  by rewrite forallb_app, Hp1, Hp2.
Qed.

Section Only.
Context {A B : Type} (P : Event -> bool).

Lemma only_ret (a : A) : only P (ret a).
Proof. intros st r st' H. inversion H; subst. apply extends_refl. Qed.

Lemma only_throw e : only P (@throw A e).
Proof. intros st r st' H. inversion H; subst. apply extends_refl. Qed.

Lemma only_lift (r : Result A) : only P (lift r).
Proof. intros st r' st' H. inversion H; subst. apply extends_refl. Qed.

Lemma only_bind (m : M A) (k : A -> M B) :
  only P m -> (forall a, only P (k a)) -> only P (bind m k).
Proof.
  intros Hm Hk st r st'. unfold bind.
  destruct (m st) as [[a|e] st1] eqn:Hrun; intros H.
  - eapply extends_trans; [eapply Hm, Hrun | eapply Hk, H].
  - inversion H; subst. eapply Hm, Hrun.
Qed.

Lemma only_tryCatch (m : M A) (h : string -> M A) :
  only P m -> (forall e, only P (h e)) -> only P (tryCatch m h).
Proof.
  intros Hm Hh st r st'. unfold tryCatch.
  destruct (m st) as [[a|e] st1] eqn:Hrun; intros H.
  - inversion H; subst. eapply Hm, Hrun.
  - eapply extends_trans; [eapply Hm, Hrun | eapply Hh, H].
Qed.

End Only.

Lemma only_emitAll P es : forallb P es = true -> only P (emitAll es).
Proof.
  intros HP st r st' H. inversion H; subst. split; [done|]. by exists es.
Qed.

Lemma only_emit P e : P e = true -> only P (emit e).
Proof.
  intros HP st r st' H. inversion H; subst. split; [done|].
  exists [e]. simpl. by rewrite HP.
Qed.

Lemma only_tick P : only P tick.
Proof.
  intros st r st' H. inversion H; subst. split; [done|].
  exists []. by rewrite app_nil_r.
Qed.

Lemma only_vaultRead P file :
  P (EVaultRead file) = true -> only P (vaultRead file).
Proof.
  intros HP. apply only_bind; [by apply only_emit|].
  intros _ st r st' H. destruct (vault st !! file_path file);
    inversion H; subst; apply extends_refl.
Qed.

Lemma only_foldM {A B} P (f : A -> B -> M A) l :
  (forall a x, only P (f a x)) -> forall a, only P (foldM f l a).
Proof.
  intros Hf. induction l as [|x l IH]; intros a; simpl.
  - apply only_ret.
  - apply only_bind; [apply Hf | apply IH].
Qed.

Lemma only_await {A} P (b : Branch A) :
  forallb P (started b) = true -> only P (await b).
Proof.
  intros HP. apply only_bind; [by apply only_emitAll|].
  intros _. apply only_lift.
Qed.

Lemma forallb_flat_map {A B} (P : B -> bool) (f : A -> list B) l :
  (forall x, forallb P (f x) = true) -> forallb P (flat_map f l) = true.
Proof.
  intros Hf. induction l as [|x l IH]; simpl; [done|].
  by rewrite forallb_app, Hf, IH.
Qed.

Section TraversalEffects.
Variable env : Env.

Lemma only_convertMermaidToImage code pageId :
  only isTraversalEvent (convertMermaidToImage env code pageId).
Proof.
  apply only_tryCatch.
  - unfold renderAndUpload.
    apply only_bind; [apply only_tick|]. intros r.
    apply only_bind; [by apply only_emit|]. intros _.
    apply only_bind; [apply only_lift|]. intros svg.
    destruct (firstElementChild env svg); [|apply only_throw].
    apply only_bind; [apply only_tick|]. intros now.
    apply only_bind; [by apply only_emit|]. intros _.
    apply only_bind; [apply only_lift|]. intros resp. apply only_ret.
  - intros e. apply only_bind; [by apply only_emit|]. intros _. apply only_ret.
Qed.

Lemma only_tryMermaid code path b :
  only isTraversalEvent (tryMermaid env code path b).
Proof.
  unfold tryMermaid.
  apply only_bind; [by apply only_emit|]. intros _.
  destruct (getAbstractFileByPath env path) as [[file|]|]; try apply only_ret.
  apply only_bind; [by apply only_vaultRead|]. intros data.
  apply only_bind; [apply only_lift|]. intros props.
  destruct (props !! "pageId") as [pid|]; [|apply only_ret].
  destruct (Js.truthy pid); [|apply only_ret].
  apply only_bind; [apply only_convertMermaidToImage|]. intros [fid|];
    [destruct (Js.truthy fid)|]; apply only_ret.
Qed.

Lemma started_join {A} (f : Node -> Branch A) l :
  (forall x, forallb isTraversalEvent (started (f x)) = true) ->
  forallb isTraversalEvent (started (joinBranches (map f l))) = true.
Proof.
  intros Hf. simpl. rewrite flat_map_concat_map, map_map.
  rewrite <- flat_map_concat_map. by apply forallb_flat_map.
Qed.

Lemma started_rowBranch path row :
  forallb isTraversalEvent (started (rowBranch env path row)) = true.
Proof.
  unfold rowBranch, thenMap. cbn [started]. by apply started_join.
Qed.

Lemma started_itemBranch t path li :
  forallb isTraversalEvent (started (itemBranch env t path li)) = true.
Proof. unfold itemBranch. by destruct t. Qed.

(** A traversal step never touches the vault's content and makes no
    call besides those listed in [isTraversalEvent]: in particular no
    page is created or updated and no file is modified. *)
Lemma only_traverse node b path :
  only isTraversalEvent (traverse env node b path).
Proof.
  unfold traverse.
  destruct (isHeadingName _); [apply only_ret|].
  destruct (String.eqb _ "TABLE").
  { apply only_bind; [|intros; apply only_ret].
    apply only_await, started_join, started_rowBranch. }
  destruct (String.eqb _ "PRE").
  { destruct (querySelector sel_code node) as [c|]; [|apply only_ret].
    destruct (languageOf c) as [lang|]; [|apply only_ret].
    destruct (String.eqb lang "mermaid"); [|apply only_ret].
    apply only_bind.
    - apply only_tryCatch; [apply only_tryMermaid|].
      intros e. apply only_bind; [by apply only_emit|]. intros _.
      apply only_ret.
    - intros [b'|]; apply only_ret. }
  destruct (String.eqb _ "P").
  { apply only_bind; [by apply only_emit|]. intros _.
    apply only_bind; [by apply only_emit|]. intros _.
    apply only_bind; [apply only_lift|]. intros es. apply only_ret. }
  destruct (_ || _).
  { apply only_bind.
    - apply only_await, started_join. intros li. apply started_itemBranch.
    - intros items. destruct (isTaskListNode node); [apply only_ret|].
      destruct (String.eqb _ "OL"); apply only_ret. }
  destruct (String.eqb _ "BLOCKQUOTE"); [apply only_ret|].
  destruct (String.eqb _ "HR"); apply only_ret.
Qed.

Lemma only_htmlToAdf container path :
  only isTraversalEvent (htmlToAdf env container path).
Proof.
  apply only_bind; [|intros; apply only_ret].
  apply only_foldM. intros a x. apply only_traverse.
Qed.

End TraversalEffects.

Example sample_task_detection :
  isTaskListNode Sample.taskList = true /\
  isTaskListNode Sample.lopsided = true /\
  isTaskListNode Sample.nested = true /\
  isTaskListNode Sample.plainList = false /\
  isTaskListNode Sample.emptyList = true.
Proof. repeat split; reflexivity. Qed.

Example sample_table :
  fst (traverse Sample.env Sample.table newBuilder "note" Sample.fresh)
  = Ok (mkBuilder
          [Table [TableRow [[Paragraph ["h1"]]; [Paragraph ["h-two"]]];
                  TableRow [[Paragraph ["a"]]; [Paragraph ["bcd"]]]]]).
Proof. vm_compute. reflexivity. Qed.

Example sample_first_link :
  fst (getConfluenceLink Sample.env "note" Sample.fresh)
  = Ok "https://wiki/pages/42".
Proof. vm_compute. reflexivity. Qed.

Example sample_first_link_trace :
  trace (snd (getConfluenceLink Sample.env "note" Sample.fresh))
  = [EGetFirstLinkpathDest "note"; EVaultRead Sample.noteFile;
     ECreatePage "SPACE" "note.md";
     EVaultModify Sample.noteFile "[42]body";
     EMarkdownRender "body" "note";
     EGetAbstractFileByPath "note"; EVaultRead Sample.noteFile;
     EMermaidRender "mermaid-x" "graph TD";
     EUploadFile "42"
       (mkFormFile "file" "mermaid-0.svg" "image/svg+xml"
                   (xmlDeclaration +:+ "<svg/>"));
     EUpdatePage "42" "note.md"
       [Heading 1 "Title"; MediaSingle "file-7" "attachment" "wide"];
     ENotice "Page Created: note.md"].
Proof. vm_compute. reflexivity. Qed.

(* ================================================================== *)
(** ** One traversal step, case by case *)
(* ================================================================== *)

Section TraverseCases.
Variable env : Env.
Implicit Types (node : Node) (b : ADFBuilder) (path : string) (st : State).

Lemma recognized_false node :
  recognized node = false ->
  isHeadingName (nodeName node) = false
  /\ String.eqb (nodeName node) "TABLE" = false
  /\ String.eqb (nodeName node) "PRE" = false
  /\ String.eqb (nodeName node) "P" = false
  /\ (String.eqb (nodeName node) "OL" || String.eqb (nodeName node) "UL") = false
  /\ String.eqb (nodeName node) "BLOCKQUOTE" = false
  /\ String.eqb (nodeName node) "HR" = false.
Proof.
  unfold recognized. cbv zeta. rewrite !orb_false_iff. tauto.
Qed.

(** A node of a kind without a case leaves builder and state as they
    are, and nothing is thrown. *)
Lemma traverse_unrecognized node b path st :
  recognized node = false -> traverse env node b path st = (Ok b, st).
Proof.
  intros H. apply recognized_false in H as (H1 & H2 & H3 & H4 & H5 & H6 & H7).
  unfold traverse. cbv zeta. by rewrite H1, H2, H3, H4, H5, H6, H7.
Qed.

Lemma await_ok {A} (br : Branch A) st a st' :
  await br st = (Ok a, st') -> snd (settled br) = Ok a.
Proof.
  unfold await, bind, emitAll, lift. simpl. intros H. by inversion H.
Qed.

(** Whatever a traversal step returns, it has only appended to the
    builder, and what it appended is what [contributes] describes. *)
Lemma traverse_contributes node b path st b' st' :
  traverse env node b path st = (Ok b', st') ->
  exists chunk, items b' = items b ++ chunk /\ contributes env path node chunk.
Proof.
  unfold traverse, contributes. cbv zeta.
  destruct (isHeadingName (nodeName node)).
  { intros H. inversion H; subst. by eexists. }
  destruct (String.eqb (nodeName node) "TABLE").
  { unfold bind. destruct (await _ st) as [[rows|e] st1]; intros H;
      inversion H; subst. eexists. split; [done|]. by exists rows. }
  destruct (String.eqb (nodeName node) "PRE").
  { destruct (querySelector sel_code node) as [c|].
    2:{ intros H. inversion H; subst. exists []. by rewrite app_nil_r. }
    assert (Hrest :
      exists chunk,
        items (if negb (classList_contains c "language-yaml")
               then addItem (codeBlockItem (textContent c)) b else b)
        = items b ++ chunk
        /\ ((chunk = [CodeBlock (textContent c)]
             /\ classList_contains c "language-yaml" = false)
            \/ (exists id, chunk = [MediaSingle id "attachment" "wide"]
                /\ languageOf c = Some "mermaid")
            \/ (chunk = [] /\ classList_contains c "language-yaml" = true))).
    { destruct (classList_contains c "language-yaml"); simpl.
      - exists []. rewrite app_nil_r. split; [done|]. right. right. done.
      - eexists. split; [done|]. by left. }
    destruct (languageOf c) as [lang|] eqn:Hlang.
    2:{ intros H. inversion H; subst.
        destruct Hrest as (chunk & ? & ?). by exists chunk. }
    destruct (String.eqb lang "mermaid") eqn:Hm.
    2:{ intros H. inversion H; subst.
        destruct Hrest as (chunk & ? & ?). by exists chunk. }
    apply String.eqb_eq in Hm. subst lang.
    unfold bind at 1.
    destruct (tryCatch _ _ st) as [[[bi|]|e] st1] eqn:Htry; intros H;
      inversion H; subst.
    - (* the image was appended inside the try block *)
      unfold tryCatch in Htry.
      destruct (tryMermaid env (textContent c) path b st)
        as [[r|e] st2] eqn:Hrun.
      2:{ unfold bind, emit, ret in Htry. simpl in Htry. by inversion Htry. }
      inversion Htry; subst. clear Htry.
      unfold tryMermaid, bind in Hrun. simpl in Hrun.
      destruct (getAbstractFileByPath env path) as [[file|]|];
        try (by inversion Hrun).
      destruct (vaultRead file _) as [[data|] st3]; [|by inversion Hrun].
      unfold lift in Hrun.
      destruct (loadProperties env data) as [props|]; [|by inversion Hrun].
      destruct (props !! "pageId") as [pid|]; [|by inversion Hrun].
      destruct (Js.truthy pid); [|by inversion Hrun].
      destruct (convertMermaidToImage env _ pid st3) as [[[fid|]|] st4];
        try (by inversion Hrun).
      destruct (Js.truthy fid); inversion Hrun; subst.
      eexists. split; [done|]. right. left. by eexists.
    - destruct Hrest as (chunk & ? & ?). by exists chunk. }
  destruct (String.eqb (nodeName node) "P").
  { unfold bind, emit, lift. simpl.
    destruct (paragraphDirector env node path) as [es|e]; intros H;
      inversion H; subst. exists es. split; [apply items_addItems | done]. }
  destruct (_ || _).
  { unfold bind. destruct (await _ st) as [[its|e] st1]; [|by inversion 1].
    destruct (isTaskListNode node).
    { intros H. inversion H; subst. eexists. split; [done|]. by exists its. }
    destruct (String.eqb (nodeName node) "OL"); intros H; inversion H; subst;
      (eexists; split; [done|]; by exists its). }
  destruct (String.eqb (nodeName node) "BLOCKQUOTE").
  { intros H. inversion H; subst. by eexists. }
  destruct (String.eqb (nodeName node) "HR").
  { intros H. inversion H; subst. by eexists. }
  intros H. inversion H; subst. exists []. by rewrite app_nil_r.
Qed.

End TraverseCases.

(* ================================================================== *)
(** ** The output sequence of [htmlToAdf] *)
(* ================================================================== *)

Section Sequence.
Variable env : Env.

Lemma foldM_traverse_chunks path nodes : forall b st b' st',
  foldM (fun b node => traverse env node b path) nodes b st = (Ok b', st') ->
  exists chunks,
    items b' = items b ++ concat chunks
    /\ Forall2 (contributes env path) nodes chunks.
Proof.
  induction nodes as [|node nodes IH]; intros b st b' st'; simpl.
  - intros H. inversion H; subst. exists []. simpl.
    by rewrite app_nil_r.
  - unfold bind at 1.
    destruct (traverse env node b path st) as [[b1|e] st1] eqn:Hstep;
      [|by inversion 1].
    intros Hrest.
    destruct (traverse_contributes _ _ _ _ _ _ _ Hstep) as (chunk & Hb1 & Hc).
    destruct (IH _ _ _ _ Hrest) as (chunks & Hb' & Hcs).
    exists (chunk :: chunks). simpl. split; [|by constructor].
    by rewrite Hb', Hb1, <- app_assoc.
Qed.

Lemma contributes_unrecognized path node chunk :
  contributes env path node chunk -> recognized node = false -> chunk = [].
Proof.
  intros Hc H.
  apply recognized_false in H as (H1 & H2 & H3 & H4 & H5 & H6 & H7).
  unfold contributes in Hc. cbv zeta in Hc.
  by rewrite H1, H2, H3, H4, H5, H6, H7 in Hc.
Qed.

Lemma contributes_single path node chunk :
  contributes env path node chunk -> singleElement node = true ->
  length chunk = 1.
Proof.
  unfold contributes, singleElement, recognized. cbv zeta.
  destruct (isHeadingName (nodeName node)); [by intros ->|].
  destruct (String.eqb (nodeName node) "TABLE"); [by intros [rows ->]|].
  destruct (String.eqb (nodeName node) "PRE").
  { destruct (String.eqb (nodeName node) "P"); [done|].
    destruct (querySelector sel_code node) as [c|]; [|done].
    intros [[-> _]|[(id & -> & _)|[_ Hy]]] Hn; try done.
    by rewrite Hy in Hn. }
  destruct (String.eqb (nodeName node) "P"); [done|].
  destruct (_ || _); [by intros (its & ->)|].
  destruct (String.eqb (nodeName node) "BLOCKQUOTE"); [by intros ->|].
  destruct (String.eqb (nodeName node) "HR"); [by intros ->|]. done.
Qed.

Lemma chunks_count path nodes chunks :
  Forall2 (contributes env path) nodes chunks ->
  forallb singleElement (List.filter recognized nodes) = true ->
  length (concat chunks) = length (List.filter recognized nodes).
Proof.
  induction 1 as [|node chunk nodes chunks Hc _ IH]; simpl; [done|].
  destruct (recognized node) eqn:Hr; simpl.
  - intros [Hs Hrest]%andb_true_iff. rewrite length_app, IH by done.
    by rewrite (contributes_single _ _ _ Hc Hs).
  - intros Hrest. rewrite (contributes_unrecognized _ _ _ Hc Hr). simpl. auto.
Qed.

End Sequence.

(** C1 (as amended).  The sequence returned by [htmlToAdf] is the
    concatenation, in the order of the input nodes, of what each top-level
    node contributes: a heading, table, list, blockquote or horizontal rule
    contributes exactly one element of its kind; a code block without a
    code element contributes nothing; a code block with a code element
    contributes either exactly one [MediaSingle], which it can only when
    its language tag is [mermaid], or else exactly one [CodeBlock], which
    is left out when the code element carries the class [language-yaml];
    a paragraph contributes what the paragraph content director appends; a
    node of any other kind contributes nothing, changes nothing and raises
    no error.  So the sequence has exactly N elements when each of the N
    recognized nodes is a heading, a table, a list, a blockquote, a
    horizontal rule or a code block with a code element that does not
    carry the class [language-yaml]. *)
Theorem htmlToAdf_concatenates_contributions
    env container path st adf st' :
  htmlToAdf env container path st = (Ok adf, st') ->
  (exists chunks,
      adf = concat chunks
      /\ Forall2 (contributes env path) (childNodes container) chunks)
  /\ (forallb singleElement (List.filter recognized (childNodes container))
      = true ->
      length adf = length (List.filter recognized (childNodes container)))
  /\ (forall node b s,
        recognized node = false -> traverse env node b path s = (Ok b, s)).
Proof.
  unfold htmlToAdf, bind.
  destruct (foldM _ _ _ st) as [[b'|e] st1] eqn:Hfold; [|by inversion 1].
  intros H. inversion H; subst. clear H.
  destruct (foldM_traverse_chunks _ _ _ _ _ _ _ Hfold) as (chunks & Hb' & Hcs).
  simpl in Hb'. unfold build. rewrite Hb'.
  split; [by exists chunks|]. split.
  - by apply (chunks_count env path).
  - intros node b s. apply traverse_unrecognized.
Qed.

Lemma htmlToAdf_concatenates_contributions_witness :
  (exists chunks,
      [Heading 2 "Plan"; CodeBlock "let x"; HorizontalRule;
       OrderedList [ListItem [Paragraph ["one"]];
                    ListItem [Paragraph ["three"]]]] = concat chunks
      /\ Forall2 (contributes Sample.env "note")
                 (childNodes sampleDocument) chunks)
  /\ (forallb singleElement
        (List.filter recognized (childNodes sampleDocument)) = true ->
      length [Heading 2 "Plan"; CodeBlock "let x"; HorizontalRule;
              OrderedList [ListItem [Paragraph ["one"]];
                           ListItem [Paragraph ["three"]]]]
      = length (List.filter recognized (childNodes sampleDocument)))
  /\ (forall node b s,
        recognized node = false ->
        traverse Sample.env node b "note" s = (Ok b, s)).
Proof.
  apply (htmlToAdf_concatenates_contributions
           Sample.env sampleDocument "note" Sample.fresh _
           (mkState {["note.md" := "body"]}
              [ENewParagraphDirector;
               EParagraphDirector
                 (Element "P" [] [] [Text "one"]) "note";
               ENewParagraphDirector;
               EParagraphDirector
                 (Element "P" [] [] [Text "three"]) "note"] 0)).
  vm_compute. reflexivity.
Defined.

(** C1, as stated, fails: a document whose only top-level node is a code
    block tagged [yaml] has one block node of a recognized kind, and the
    sequence returned for it is empty. *)
Lemma htmlToAdf_yaml_block_counterexample :
  length (List.filter recognized (childNodes Sample.yamlOnly)) = 1
  /\ htmlToAdf Sample.env Sample.yamlOnly "note" Sample.linked
     = (Ok [], Sample.linked).
Proof. split; vm_compute; reflexivity. Qed.

(* ================================================================== *)
(** ** Fan-out and fan-in inside [traverse] *)
(* ================================================================== *)

Section FanOut.
Context {X B : Type}.
Implicit Types (lat : X -> nat) (f : X -> Result B) (l : list X).

Lemma sequential_map lat f l :
  Promise.sequential (map (fun x => (lat x, f x)) l) = mapR f l.
Proof.
  induction l as [|x l IH]; simpl; [done|].
  destruct (f x); [by rewrite IH | done].
Qed.

Lemma fulfilled_map lat f l :
  Promise.fulfilled (map (fun x => (lat x, f x)) l) = isOk (mapR f l).
Proof.
  unfold Promise.fulfilled.
  induction l as [|x l IH]; simpl; [done|].
  destruct (f x); simpl; [|done].
  rewrite IH. by destruct (mapR f l).
Qed.

(** The join of a fan-out is fulfilled exactly when the calls made one
    after the other all succeed, and then with the same values in the
    same order. *)
Lemma all_map_ok lat f l vs :
  snd (Promise.all (map (fun x => (lat x, f x)) l)) = Ok vs
  <-> mapR f l = Ok vs.
Proof.
  split.
  - intros H. pose proof (PromiseFacts.all_ok_fulfilled _ _ H) as Hf.
    by rewrite PromiseFacts.all_fulfilled, sequential_map in H.
  - intros H. rewrite PromiseFacts.all_fulfilled, sequential_map; [done|].
    by rewrite fulfilled_map, H.
Qed.

Lemma mapR_total (g : X -> B) l : mapR (fun x => Ok (g x)) l = Ok (map g l).
Proof. induction l as [|x l IH]; simpl; [done | by rewrite IH]. Qed.

Lemma mapR_Forall2 f l vs :
  mapR f l = Ok vs -> Forall2 (fun x v => f x = Ok v) l vs.
Proof.
  revert vs. induction l as [|x l IH]; simpl; intros vs.
  - intros H. inversion H. constructor.
  - destruct (f x) as [v|e] eqn:Hx; [|discriminate].
    destruct (mapR f l) as [vs'|e]; [|discriminate].
    intros H. inversion H; subst. constructor; auto.
Qed.

End FanOut.

Lemma emitAll_nil st : emitAll [] st = (Ok tt, st).
Proof. unfold emitAll. rewrite app_nil_r. by destruct st. Qed.

Section Lists.
Variable env : Env.
Implicit Types (node : Node) (b : ADFBuilder) (path : string) (st : State).

(** The list case, as the [switch] reaches it. *)
Lemma traverse_list_eq node b path :
  isListName node ->
  traverse env node b path =
  (let! listItems :=
     await (joinBranches
              (map (itemBranch env (isTaskListNode node) path)
                   (children node))) in
   if isTaskListNode node then ret (addItem (taskListItem listItems) b)
   else if String.eqb (nodeName node) "OL"
   then ret (addItem (orderedListItem listItems) b)
   else ret (addItem (bulletListItem listItems) b)).
Proof. unfold traverse. intros [H|H]; rewrite H; reflexivity. Qed.

Lemma started_task_items path l :
  flat_map started (map (itemBranch env true path) l)
  = map (fun _ => ENewParagraphDirector) l.
Proof. induction l as [|li l IH]; simpl; [done | by rewrite IH]. Qed.

Lemma settled_task_items path l :
  map settled (map (itemBranch env true path) l)
  = map (fun li => (0, Ok (taskItemOf li))) l.
Proof. by rewrite map_map. Qed.

(** A list classified as a task list: one [TaskList] is appended, holding
    one task item per element child, read off synchronously; a director
    is constructed per child, none is run and nothing can fail. *)
Lemma traverse_task_list node b path st :
  isListName node -> isTaskListNode node = true ->
  traverse env node b path st
  = (Ok (addItem (TaskList (map taskItemOf (children node))) b),
     afterCalls st (taskListCalls node)).
Proof.
  intros Hname Htask. rewrite traverse_list_eq by done. rewrite Htask.
  unfold bind, await, joinBranches. cbn [started settled].
  rewrite started_task_items, settled_task_items.
  unfold bind, emitAll, lift, afterCalls, taskListCalls.
  assert (Hall : snd (Promise.all
                        (map (fun li => (0, Ok (taskItemOf li)))
                             (children node)))
                 = Ok (map taskItemOf (children node))).
  { apply (all_map_ok (fun _ => 0) (fun li => Ok (taskItemOf li))).
    apply mapR_total. }
  by rewrite Hall.
Qed.

Lemma settled_plain_items path l :
  map settled (map (itemBranch env false path) l)
  = map (fun li => (latency env (createEl_with "P" (childNodes li)),
                    listItemDirect env path li)) l.
Proof. by rewrite map_map. Qed.

(** A list that is not a task list: when the step returns, it has
    appended one [OrderedList] or [BulletList], by the node's name,
    holding the items' direct conversions in source order. *)
Lemma traverse_plain_list node b path st b' st' :
  isListName node -> isTaskListNode node = false ->
  traverse env node b path st = (Ok b', st') ->
  exists its,
    mapR (listItemDirect env path) (children node) = Ok its
    /\ b' = addItem (if String.eqb (nodeName node) "OL"
                     then OrderedList its else BulletList its) b.
Proof.
  intros Hname Htask. rewrite traverse_list_eq by done. rewrite Htask.
  unfold bind at 1.
  destruct (await _ st) as [[its|e] st1] eqn:Hjoin; [|by inversion 1].
  apply await_ok in Hjoin. unfold joinBranches in Hjoin.
  cbn [settled] in Hjoin. rewrite settled_plain_items in Hjoin.
  apply all_map_ok in Hjoin.
  intros H. exists its. split; [done|].
  by destruct (String.eqb (nodeName node) "OL"); inversion H.
Qed.

End Lists.

(* ================================================================== *)
(** ** Lists and task lists *)
(* ================================================================== *)

(** C4 (as amended).  An ordered or unordered list node is classified as
    a task list if and only if the number of [li] elements anywhere under
    the node (not only its item children) equals the number of checkbox
    inputs anywhere under the node: then, and only then, the element that
    [traverse] appends is a [TaskList].  In particular a flat list of
    three items with three checkboxes, all in the first item, is
    classified as a task list.  A checkbox input is an [input] whose
    [type] is [checkbox] in any letter case. *)
Theorem task_list_iff_li_count_is_checkbox_count env node b path st :
  isListName node ->
  (isTaskListNode node = true <->
   length (querySelectorAll sel_li node)
   = length (querySelectorAll sel_checkbox node))
  /\ (isTaskListNode node = true ->
      traverse env node b path st
      = (Ok (addItem (TaskList (map taskItemOf (children node))) b),
         afterCalls st (taskListCalls node)))
  /\ (isTaskListNode node = false ->
      forall b' st', traverse env node b path st = (Ok b', st') ->
      exists its e, b' = addItem e b /\ isTaskList e = false
        /\ (e = OrderedList its \/ e = BulletList its))
  /\ (length (itemChildren Sample.lopsided) = 3
      /\ length (querySelectorAll sel_checkbox Sample.lopsided) = 3
      /\ traverse env Sample.lopsided b path st
         = (Ok (addItem (TaskList [TaskItem "a" false; TaskItem "b" false;
                                   TaskItem "c" false]) b),
            afterCalls st [ENewParagraphDirector; ENewParagraphDirector;
                           ENewParagraphDirector]))
  /\ (length (querySelectorAll sel_li Sample.shouting) = 1
      /\ length (querySelectorAll sel_checkbox Sample.shouting) = 1
      /\ isTaskListNode Sample.shouting = true).
Proof.
  intros Hname. split; [apply Nat.eqb_eq|]. split; [|split; [|split]].
  4: by repeat split.
  - intros Ht. by apply traverse_task_list.
  - intros Ht b' st' Hrun.
    destruct (traverse_plain_list _ _ _ _ _ _ _ Hname Ht Hrun)
      as (its & _ & ->).
    exists its. destruct (String.eqb (nodeName node) "OL");
      eexists; (split; [done|]); (split; [done|]); tauto.
  - split; [reflexivity|]. split; [reflexivity|].
    by rewrite traverse_task_list; [|right|].
Qed.

Lemma task_list_iff_li_count_is_checkbox_count_witness :
  (isTaskListNode Sample.plainList = true <->
   length (querySelectorAll sel_li Sample.plainList)
   = length (querySelectorAll sel_checkbox Sample.plainList))
  /\ (isTaskListNode Sample.plainList = true ->
      traverse Sample.env Sample.plainList newBuilder "note" Sample.fresh
      = (Ok (addItem (TaskList (map taskItemOf (children Sample.plainList)))
                     newBuilder),
         afterCalls Sample.fresh (taskListCalls Sample.plainList)))
  /\ (isTaskListNode Sample.plainList = false ->
      forall b' st',
        traverse Sample.env Sample.plainList newBuilder "note" Sample.fresh
        = (Ok b', st') ->
        exists its e, b' = addItem e newBuilder /\ isTaskList e = false
          /\ (e = OrderedList its \/ e = BulletList its))
  /\ (length (itemChildren Sample.lopsided) = 3
      /\ length (querySelectorAll sel_checkbox Sample.lopsided) = 3
      /\ traverse Sample.env Sample.lopsided newBuilder "note" Sample.fresh
         = (Ok (addItem (TaskList [TaskItem "a" false; TaskItem "b" false;
                                   TaskItem "c" false]) newBuilder),
            afterCalls Sample.fresh
              [ENewParagraphDirector; ENewParagraphDirector;
               ENewParagraphDirector]))
  /\ (length (querySelectorAll sel_li Sample.shouting) = 1
      /\ length (querySelectorAll sel_checkbox Sample.shouting) = 1
      /\ isTaskListNode Sample.shouting = true).
Proof.
  apply (task_list_iff_li_count_is_checkbox_count
           Sample.env Sample.plainList newBuilder "note" Sample.fresh).
  left. reflexivity.
Defined.

(** C4, as stated, fails in both directions.  A task nested under a task
    gives one item child and two checkboxes, yet the list is classified as
    a task list (two list items below the node); a checked item with a
    plain list nested under it gives one item child and one checkbox, yet
    the list is not classified as a task list. *)
Lemma task_list_item_children_counterexample :
  (length (itemChildren Sample.nested) = 1
   /\ length (querySelectorAll sel_checkbox Sample.nested) = 2
   /\ length (querySelectorAll sel_li Sample.nested) = 2
   /\ fst (traverse Sample.env Sample.nested newBuilder "note" Sample.fresh)
      = Ok (mkBuilder [TaskList [TaskItem "ab" false]]))
  /\ (length (itemChildren nestedPlain) = 1
      /\ length (querySelectorAll sel_checkbox nestedPlain) = 1
      /\ length (querySelectorAll sel_li nestedPlain) = 2
      /\ fst (traverse Sample.env nestedPlain newBuilder "note" Sample.fresh)
         = Ok (mkBuilder
                 [BulletList
                    [ListItem
                       [Paragraph ["ab"]]]])).
Proof. repeat split; vm_compute; reflexivity. Qed.

(** The checkbox selector compares the value of [type] without regard to
    case, and a blank [data-task] is a non-empty string. *)
Example sample_checkbox_any_case :
  length (querySelectorAll sel_checkbox Sample.shouting) = 1
  /\ traverse Sample.env Sample.shouting newBuilder "note" Sample.fresh
     = (Ok (mkBuilder [TaskList [TaskItem "a" true]]),
        afterCalls Sample.fresh [ENewParagraphDirector]).
Proof. split; vm_compute; reflexivity. Qed.

Lemma checked_iff li :
  Js.Boolean (getAttr li "data-task") = true
  <-> exists v, getAttr li "data-task" = Some v /\ v <> "".
Proof.
  destruct (getAttr li "data-task") as [v|]; simpl.
  - unfold Js.truthy. destruct (String.eqb_spec v ""); simpl.
    + split; [discriminate|]. intros (v' & Hv & Hne). congruence.
    + split; [|done]. intros _. by exists v.
  - split; [discriminate|]. by intros (v & Hv & _).
Qed.

(** C9.  For the list [- [x] a] / [- [ ] b] (two items, two checkboxes)
    [traverse] appends exactly one [TaskList] with the two task items
    ["a"], checked, and ["b"], not checked, and the same when the text of
    the items comes with white space around it; for every list classified
    as a task list each task item holds the text content of its item
    without the white space at its two ends, and is checked exactly when
    the item has a non-empty [data-task] attribute. *)
Theorem traverse_task_list_scenario env b path st :
  traverse env Sample.taskList b path st
  = (Ok (addItem (TaskList [TaskItem "a" true; TaskItem "b" false]) b),
     afterCalls st [ENewParagraphDirector; ENewParagraphDirector])
  /\ traverse env Sample.spacedTaskList b path st
     = (Ok (addItem (TaskList [TaskItem "a b" true; TaskItem "b" false]) b),
        afterCalls st [ENewParagraphDirector; ENewParagraphDirector])
  /\ (forall node, isListName node -> isTaskListNode node = true ->
      exists its,
        traverse env node b path st
        = (Ok (addItem (TaskList its) b), afterCalls st (taskListCalls node))
        /\ Forall2 (fun li it =>
                      exists text checked,
                        it = TaskItem text checked
                        /\ trimmed (textContent li) text
                        /\ (checked = true <->
                            exists v, getAttr li "data-task" = Some v
                                      /\ v <> ""))
                   (children node) its).
Proof.
  split; [|split].
  - by rewrite traverse_task_list; [|right|].
  - by rewrite traverse_task_list; [|right|].
  - intros node Hname Ht. exists (map taskItemOf (children node)).
    split; [by apply traverse_task_list|].
    induction (children node) as [|li l IH]; simpl; constructor; [|done].
    exists (Js.trim (textContent li)), (Js.Boolean (getAttr li "data-task")).
    split; [done|]. split; [apply trim_spec | apply checked_iff].
Qed.

Lemma child_in_descendants node c :
  c ∈ children node -> c ∈ descendants node.
Proof.
  unfold children, descendants. rewrite !list_elem_of_In.
  rewrite filter_In, in_flat_map. intros [Hin Hel].
  exists c. split; [done|]. destruct c; [by left | done].
Qed.

(** Without an [li] below the node, no element child is a list item. *)
Lemma no_items_no_item_children node :
  length (querySelectorAll sel_li node) = 0 ->
  Forall (fun c => matches sel_li c = false) (children node).
Proof.
  intros Hli. apply Forall_forall. intros c Hc.
  destruct (matches sel_li c) eqn:Hm; [|done]. exfalso.
  assert (Hin : c ∈ querySelectorAll sel_li node).
  { unfold querySelectorAll. apply list_elem_of_In, filter_In.
    split; [|done]. by apply list_elem_of_In, child_in_descendants. }
  destruct (querySelectorAll sel_li node); [inversion Hin | discriminate].
Qed.

Lemma afterCalls_nil st : afterCalls st [] = st.
Proof. unfold afterCalls. rewrite app_nil_r. by destruct st. Qed.

(** C10 (as amended).  An ordered or unordered list node with no [li]
    element and no checkbox below it is classified as a task list, since
    0 equals 0: what [traverse] appends is one [TaskList], never an
    [OrderedList] or a [BulletList].  The [TaskList] holds one task item
    per element child of the node, none of which is a list item; it is
    the empty [TaskList] exactly when the node has no element child. *)
Theorem empty_list_is_task_list env node b path st :
  isListName node ->
  length (querySelectorAll sel_li node) = 0 ->
  length (querySelectorAll sel_checkbox node) = 0 ->
  isTaskListNode node = true
  /\ traverse env node b path st
     = (Ok (addItem (TaskList (map taskItemOf (children node))) b),
        afterCalls st (taskListCalls node))
  /\ length (map taskItemOf (children node)) = length (children node)
  /\ Forall (fun c => matches sel_li c = false) (children node)
  /\ (children node = [] <->
      traverse env node b path st = (Ok (addItem (TaskList []) b), st)).
Proof.
  intros Hname Hli Hcb.
  assert (Ht : isTaskListNode node = true).
  { unfold isTaskListNode. by rewrite Hli, Hcb. }
  split; [done|]. split; [by apply traverse_task_list|].
  split; [apply length_map|]. split; [by apply no_items_no_item_children|].
  rewrite traverse_task_list by done. split.
  - intros Hc. unfold taskListCalls. rewrite Hc. simpl.
    by rewrite afterCalls_nil.
  - intros H. inversion H as [[Hitems Hst]].
    apply app_inv_head in Hitems. inversion Hitems as [Hmap].
    by destruct (children node).
Qed.

Lemma empty_list_is_task_list_witness :
  isTaskListNode Sample.emptyList = true
  /\ traverse Sample.env Sample.emptyList newBuilder "note" Sample.fresh
     = (Ok (addItem (TaskList (map taskItemOf (children Sample.emptyList)))
                    newBuilder),
        afterCalls Sample.fresh (taskListCalls Sample.emptyList))
  /\ length (map taskItemOf (children Sample.emptyList))
     = length (children Sample.emptyList)
  /\ Forall (fun c => matches sel_li c = false) (children Sample.emptyList)
  /\ (children Sample.emptyList = [] <->
      traverse Sample.env Sample.emptyList newBuilder "note" Sample.fresh
      = (Ok (addItem (TaskList []) newBuilder), Sample.fresh)).
Proof.
  apply (empty_list_is_task_list
           Sample.env Sample.emptyList newBuilder "note" Sample.fresh).
  - right. reflexivity.
  - reflexivity.
  - reflexivity.
Defined.

(** C10, as stated, fails: a list whose only element child is a [DIV]
    has no [li] and no checkbox below it, and the [TaskList] appended
    for it is not empty: it holds a task item for the [DIV]. *)
Lemma empty_list_stray_child_counterexample :
  nodeName Sample.strayList = "UL"
  /\ length (querySelectorAll sel_li Sample.strayList) = 0
  /\ length (querySelectorAll sel_checkbox Sample.strayList) = 0
  /\ traverse Sample.env Sample.strayList newBuilder "note" Sample.fresh
     = (Ok (mkBuilder [TaskList [TaskItem "x" false]]),
        afterCalls Sample.fresh [ENewParagraphDirector]).
Proof. repeat split; vm_compute; reflexivity. Qed.

(* ================================================================== *)
(** ** Tables *)
(* ================================================================== *)

Lemma mapR_through {X C V} (g : X -> Result V) (h : X -> Result C)
    (F : C -> V) (l : list X) :
  (forall x c, h x = Ok c -> g x = Ok (F c)) ->
  forall cs, mapR h l = Ok cs -> mapR g l = Ok (map F cs).
Proof.
  intros Hgh. induction l as [|x l IH]; simpl; intros cs.
  - intros H. by inversion H.
  - destruct (h x) as [c|e] eqn:Hx; [|discriminate].
    destruct (mapR h l) as [cs'|e]; [|discriminate].
    intros H. inversion H; subst. rewrite (Hgh _ _ Hx), (IH cs') by done.
    reflexivity.
Qed.

Lemma mapR_back {X C V} (g : X -> Result V) (h : X -> Result C)
    (F : C -> V) (l : list X) :
  (forall x v, g x = Ok v -> exists c, h x = Ok c /\ v = F c) ->
  forall vs, mapR g l = Ok vs -> exists cs, mapR h l = Ok cs /\ vs = map F cs.
Proof.
  intros Hgh. induction l as [|x l IH]; simpl; intros vs.
  - intros H. inversion H. by exists [].
  - destruct (g x) as [v|e] eqn:Hx; [|discriminate].
    destruct (mapR g l) as [vs'|e]; [|discriminate].
    intros H. inversion H; subst.
    destruct (Hgh _ _ Hx) as (c & -> & ->).
    destruct (IH vs' eq_refl) as (cs & -> & ->). by exists (c :: cs).
Qed.

Lemma mapR_length {X V} (g : X -> Result V) l vs :
  mapR g l = Ok vs -> length vs = length l.
Proof.
  intros H. apply mapR_Forall2 in H.
  symmetry. eapply Forall2_length, H.
Qed.

Section Tables.
Variable env : Env.
Implicit Types (node row cell : Node) (b : ADFBuilder) (path : string).

Lemma traverse_table_eq node b path :
  nodeName node = "TABLE" ->
  traverse env node b path =
  (let! tableContent :=
     await (joinBranches
              (map (rowBranch env path) (querySelectorAll sel_tr node))) in
   ret (addItem (tableItem tableContent) b)).
Proof. unfold traverse. intros H; rewrite H; reflexivity. Qed.

Lemma started_rows path rows :
  flat_map started (map (rowBranch env path) rows)
  = flat_map (fun row =>
                flat_map (fun cell =>
                            [ENewTableDirector; ETableDirector cell path])
                         (querySelectorAll sel_td_th row)) rows.
Proof.
  induction rows as [|row rows IH]; simpl; [done|]. rewrite IH. f_equal.
  induction (querySelectorAll sel_td_th row) as [|c cs IHc]; simpl;
    [done | by rewrite IHc].
Qed.

Lemma row_settles path row cs :
  mapR (cellDirect env path) (querySelectorAll sel_td_th row) = Ok cs ->
  snd (settled (rowBranch env path row)) = Ok (TableRow cs).
Proof.
  intros H. apply (all_map_ok (latency env) (cellDirect env path)) in H.
  unfold rowBranch, thenMap, joinBranches. cbn [settled snd].
  rewrite map_map.
  replace (map (fun x => settled (cellBranch env path x))
               (querySelectorAll sel_td_th row))
    with (map (fun x => (latency env x, cellDirect env path x))
              (querySelectorAll sel_td_th row)) by reflexivity.
  by rewrite H.
Qed.

Lemma rows_settle path rows vs :
  mapR (fun row => mapR (cellDirect env path) (querySelectorAll sel_td_th row))
       rows = Ok vs ->
  snd (Promise.all (map settled (map (rowBranch env path) rows)))
  = Ok (map TableRow vs).
Proof.
  intros H. rewrite map_map.
  apply (all_map_ok (fun row => fst (settled (rowBranch env path row)))
                    (fun row => snd (settled (rowBranch env path row)))).
  eapply mapR_through, H. intros row cs. apply row_settles.
Qed.

(** A table whose selected cells all convert: one [Table] is appended,
    with the rows and cells of their sequential conversion; the directors
    have been constructed and called in source order. *)
Lemma traverse_table node b path st rows :
  nodeName node = "TABLE" ->
  tableSelected env path node = Ok rows ->
  traverse env node b path st
  = (Ok (addItem (Table (map TableRow rows)) b),
     mkState (vault st) (trace st ++ tableCalls path node) (clock st)).
Proof.
  intros Hname Hrows. rewrite traverse_table_eq by done.
  unfold bind, await, joinBranches. cbn [started settled].
  unfold bind, emitAll, lift. rewrite started_rows.
  by rewrite (rows_settle _ _ _ Hrows).
Qed.

Lemma row_settles_inv path row v :
  snd (settled (rowBranch env path row)) = Ok v ->
  exists cs,
    mapR (cellDirect env path) (querySelectorAll sel_td_th row) = Ok cs
    /\ v = TableRow cs.
Proof.
  unfold rowBranch, thenMap, joinBranches. cbn [settled snd].
  rewrite map_map.
  replace (map (fun x => settled (cellBranch env path x))
               (querySelectorAll sel_td_th row))
    with (map (fun x => (latency env x, cellDirect env path x))
              (querySelectorAll sel_td_th row)) by reflexivity.
  destruct (snd (Promise.all _)) as [cs|e] eqn:Hall; [|discriminate].
  intros H. inversion H; subst. exists cs. split; [|done].
  by apply (all_map_ok (latency env) (cellDirect env path)).
Qed.

(** Conversely, a table step that returns has appended the table of the
    sequential conversion of the selected cells: no cell is dropped or
    replaced. *)
Lemma traverse_table_inv node b path st b' :
  nodeName node = "TABLE" ->
  fst (traverse env node b path st) = Ok b' ->
  exists rows,
    tableSelected env path node = Ok rows
    /\ b' = addItem (Table (map TableRow rows)) b.
Proof.
  intros Hname. rewrite traverse_table_eq by done. unfold bind at 1.
  destruct (await _ st) as [[content|e] st1] eqn:Hjoin; [|discriminate].
  intros H. inversion H; subst. clear H.
  apply await_ok in Hjoin. unfold joinBranches in Hjoin.
  cbn [settled] in Hjoin. rewrite map_map in Hjoin.
  apply (all_map_ok (fun row => fst (settled (rowBranch env path row)))
                    (fun row => snd (settled (rowBranch env path row))))
    in Hjoin.
  destruct (mapR_back _
              (fun row => mapR (cellDirect env path)
                               (querySelectorAll sel_td_th row))
              TableRow _ (row_settles_inv path) _ Hjoin)
    as (rows & Hrows & ->).
  by exists rows.
Qed.

End Tables.

Lemma Forall2_mapR {X V} (f : X -> Result V) l vs :
  Forall2 (fun x v => f x = Ok v) l vs -> mapR f l = Ok vs.
Proof.
  induction 1 as [|x v l vs Hx _ IH]; simpl; [done|]. by rewrite Hx, IH.
Qed.

Lemma mapR_ext_Forall {X V} (f g : X -> Result V) l :
  Forall (fun x => f x = g x) l -> mapR f l = mapR g l.
Proof.
  induction 1 as [|x l Hx _ IH]; simpl; [done|]. by rewrite Hx, IH.
Qed.

(** The rows and cells of a sequential conversion, one by one. *)
Lemma tableSelected_cells env path node rows :
  tableSelected env path node = Ok rows <->
  Forall2 (fun row cells =>
             Forall2 (fun cell content =>
                        cellDirect env path cell = Ok content)
                     (querySelectorAll sel_td_th row) cells)
          (querySelectorAll sel_tr node) rows.
Proof.
  unfold tableSelected. split.
  - intros Hrows. apply mapR_Forall2 in Hrows.
    eapply Forall2_impl; [exact Hrows|]. intros row cells Hc.
    by apply mapR_Forall2 in Hc.
  - intros Hshape. apply Forall2_mapR.
    eapply Forall2_impl; [exact Hshape|]. intros row cells Hc.
    by apply Forall2_mapR.
Qed.

(** When nothing is nested in the table, the rows and cells the table
    case selects are the table's own. *)
Lemma tableDirect_unnested env path node :
  unnested node -> tableDirect env path node = tableSelected env path node.
Proof.
  intros [Hrows Hcells]. unfold tableDirect, tableSelected. rewrite Hrows.
  apply mapR_ext_Forall. eapply Forall_impl; [exact Hcells|].
  intros row Hrow. simpl in Hrow. by rewrite Hrow.
Qed.

Lemma filter_bare (s : Selector) n :
  (forall d, matches s d = true ->
             matches sel_tr d || matches sel_td_th d = true) ->
  bare n = true -> List.filter (matches s) (subtree n) = [].
Proof.
  intros Hs Hb. unfold bare in Hb. rewrite forallb_forall in Hb.
  induction (subtree n) as [|d l IH]; cbn [List.filter]; [done|].
  destruct (matches s d) eqn:Hm.
  - specialize (Hb d (or_introl eq_refl)). apply Hs in Hm.
    apply andb_true_iff in Hb as [H1 H2].
    apply negb_true_iff in H1, H2. by rewrite H1, H2 in Hm.
  - apply IH. intros x Hx. apply Hb. by right.
Qed.

Lemma filter_flat_map_bare (s : Selector) l :
  (forall d, matches s d = true ->
             matches sel_tr d || matches sel_td_th d = true) ->
  forallb bare l = true ->
  List.filter (matches s) (flat_map subtree l) = [].
Proof.
  intros Hs. induction l as [|k l IH]; cbn [flat_map forallb]; [done|].
  intros [Hk Hl]%andb_true_iff.
  rewrite List.filter_app. by rewrite (filter_bare s k Hs Hk), IH.
Qed.

Lemma sel_tr_covered d :
  matches sel_tr d = true -> matches sel_tr d || matches sel_td_th d = true.
Proof. by intros ->. Qed.

Lemma sel_td_th_covered d :
  matches sel_td_th d = true ->
  matches sel_tr d || matches sel_td_th d = true.
Proof. intros ->. apply orb_true_r. Qed.

Lemma matches_isElement s n : matches s n = true -> isElement n = true.
Proof.
  induction s as [t|t a v|s1 IH1 s2 IH2]; simpl.
  - by intros [? _]%andb_true_iff.
  - by intros [[? _]%andb_true_iff _]%andb_true_iff.
  - intros [H|H]%orb_true_iff; auto.
Qed.

Lemma subtree_element n :
  isElement n = true -> subtree n = n :: descendants n.
Proof. by destruct n. Qed.

Lemma filter_children (s : Selector) n :
  List.filter (matches s) (children n) = List.filter (matches s) (childNodes n).
Proof.
  unfold children.
  induction (childNodes n) as [|k l IH]; cbn [List.filter]; [done|].
  destruct (isElement k) eqn:He; cbn [List.filter].
  - by rewrite IH.
  - destruct (matches s k) eqn:Hm; [|done].
    apply matches_isElement in Hm. congruence.
Qed.

Lemma tr_not_cell d : matches sel_tr d = true -> matches sel_td_th d = false.
Proof.
  simpl. intros [_ H]%andb_true_iff. apply String.eqb_eq in H. rewrite H.
  by rewrite !andb_false_r.
Qed.

Lemma cell_not_tr d : matches sel_td_th d = true -> matches sel_tr d = false.
Proof.
  intros H. destruct (matches sel_tr d) eqn:Ht; [|done].
  apply tr_not_cell in Ht. congruence.
Qed.

(** The cells of a plain row are the row's own. *)
Lemma plainRow_cells row :
  plainRow row = true -> querySelectorAll sel_td_th row = ownCells row.
Proof.
  unfold plainRow, querySelectorAll, ownCells, descendants.
  rewrite filter_children.
  pose proof sel_td_th_covered as Hs. set (s := sel_td_th) in *.
  induction (childNodes row) as [|k l IH];
    cbn [flat_map forallb List.filter]; [done|].
  intros [Hk Hl]%andb_true_iff. rewrite List.filter_app, (IH Hl).
  destruct (matches s k) eqn:Hm.
  - rewrite (subtree_element k (matches_isElement _ _ Hm)).
    cbn [List.filter app]. rewrite Hm. unfold descendants.
    by rewrite (filter_flat_map_bare s _ Hs Hk).
  - by rewrite (filter_bare s k Hs Hk).
Qed.

(** No row lies below a plain row. *)
Lemma plainRow_rows row :
  plainRow row = true ->
  List.filter (matches sel_tr) (descendants row) = [].
Proof.
  unfold plainRow, descendants.
  pose proof sel_tr_covered as Hs. pose proof cell_not_tr as Hc.
  set (s := sel_tr) in *. set (c := sel_td_th) in *.
  induction (childNodes row) as [|k l IH];
    cbn [flat_map forallb List.filter]; [done|].
  intros [Hk Hl]%andb_true_iff. rewrite List.filter_app, (IH Hl), app_nil_r.
  destruct (matches c k) eqn:Hm.
  - rewrite (subtree_element k (matches_isElement _ _ Hm)).
    cbn [List.filter]. rewrite (Hc k Hm). unfold descendants.
    by apply filter_flat_map_bare.
  - by apply filter_bare.
Qed.

Lemma section_not_tr k : isSection k = true -> matches sel_tr k = false.
Proof.
  unfold isSection. simpl.
  intros [H|[H|H]%orb_true_iff]%orb_true_iff;
    apply andb_true_iff in H as [_ H]; apply String.eqb_eq in H;
    rewrite H; by rewrite andb_false_r.
Qed.

Lemma plainRow_subtree r :
  matches sel_tr r = true -> plainRow r = true ->
  List.filter (matches sel_tr) (subtree r) = [r].
Proof.
  intros Hm Hr. rewrite (subtree_element r (matches_isElement _ _ Hm)).
  cbn [List.filter]. by rewrite Hm, (plainRow_rows r Hr).
Qed.

Lemma section_rows k :
  forallb (fun r => if matches sel_tr r then plainRow r else bare r)
          (childNodes k) = true ->
  List.filter (matches sel_tr) (descendants k)
  = List.filter (matches sel_tr) (children k).
Proof.
  rewrite filter_children. unfold descendants.
  induction (childNodes k) as [|r rs IH];
    cbn [flat_map forallb List.filter]; [done|].
  intros [Hr Hrs]%andb_true_iff. rewrite List.filter_app, (IH Hrs).
  destruct (matches sel_tr r) eqn:Hmr.
  - by rewrite (plainRow_subtree r Hmr Hr).
  - by rewrite (filter_bare sel_tr r sel_tr_covered Hr).
Qed.

(** A plain table has nothing nested in it. *)
Lemma plainTable_unnested table : plainTable table = true -> unnested table.
Proof.
  intros Hp. split.
  - revert Hp.
    unfold plainTable, querySelectorAll, ownRows, descendants, children.
    induction (childNodes table) as [|k l IH];
      cbn [flat_map forallb List.filter]; [done|].
    intros [Hk Hl]%andb_true_iff. rewrite List.filter_app, (IH Hl).
    destruct (matches sel_tr k) eqn:Hm.
    + rewrite (matches_isElement _ _ Hm). cbn [flat_map]. rewrite Hm.
      by rewrite (plainRow_subtree k Hm Hk).
    + destruct (isSection k) eqn:Hs.
      * rewrite (matches_isElement _ _ Hs). cbn [flat_map]. rewrite Hm, Hs.
        rewrite (subtree_element k (matches_isElement _ _ Hs)).
        cbn [List.filter]. rewrite Hm. by rewrite (section_rows k Hk).
      * rewrite (filter_bare sel_tr k sel_tr_covered Hk).
        destruct (isElement k); cbn [flat_map]; [by rewrite Hm, Hs | done].
  - apply Forall_forall. intros row Hrow%list_elem_of_In.
    apply plainRow_cells.
    revert Hp Hrow. unfold plainTable, ownRows, children.
    induction (childNodes table) as [|k l IH];
      cbn [flat_map forallb List.filter]; [by inversion 2|].
    intros [Hk Hl]%andb_true_iff.
    destruct (isElement k) eqn:He; cbn [flat_map]; [|by apply IH].
    rewrite in_app_iff. intros [Hin|Hin]; [|by apply IH].
    destruct (matches sel_tr k) eqn:Hm.
    + destruct Hin as [<-|[]]. exact Hk.
    + destruct (isSection k); [|destruct Hin].
      apply filter_In in Hin as [Hin Hmr].
      apply filter_In in Hin as [Hin _].
      rewrite forallb_forall in Hk. specialize (Hk row Hin).
      by rewrite Hmr in Hk.
Qed.

(** C5 (as amended).  For a table node, and for every assignment of
    completion times to the concurrent cell conversions, [traverse]
    returns exactly when the conversion of every selected cell succeeds,
    and what it has appended then is a single [Table] element with one
    [TableRow] per [tr] element anywhere below the table, in document
    order, each with one content per [td] or [th] element anywhere below
    that row, in document order, each content being what the direct
    conversion of that cell alone (fresh sub-builder, table-cell director)
    produces.  When nothing is nested in the table (the [tr] elements
    below it are its own rows, the [td] and [th] elements below a row are
    the row's own cells), and the table has R rows of C cells each, this
    is the result of the direct conversion row by row and cell by cell: R
    [TableRow] elements in source row order, each with C contents in
    source cell order.  Nothing is nested in a table whose rows are
    children of the table or of its sections, whose cells are children of
    its rows, and that has no other row or cell below it. *)
Theorem traverse_table_matches_direct_conversion env node b path st :
  nodeName node = "TABLE" ->
  forall lat b',
    (fst (traverse (withLatency lat env) node b path st) = Ok b'
     <->
     exists rows,
       b' = addItem (Table (map TableRow rows)) b
       /\ Forall2 (fun row cells =>
                     Forall2 (fun cell content =>
                                cellDirect env path cell = Ok content)
                             (querySelectorAll sel_td_th row) cells)
                  (querySelectorAll sel_tr node) rows)
    /\ (unnested node ->
        forall R C,
          length (ownRows node) = R ->
          Forall (fun row => length (ownCells row) = C) (ownRows node) ->
          (fst (traverse (withLatency lat env) node b path st) = Ok b'
           <->
           exists rows,
             tableDirect env path node = Ok rows
             /\ b' = addItem (Table (map TableRow rows)) b
             /\ length rows = R
             /\ Forall (fun cells => length cells = C) rows
             /\ Forall2 (fun row cells =>
                           Forall2 (fun cell content =>
                                      cellDirect env path cell = Ok content)
                                   (ownCells row) cells)
                        (ownRows node) rows))
    /\ (plainTable node = true -> unnested node).
Proof.
  intros Hname lat b'.
  assert (Hcode :
    fst (traverse (withLatency lat env) node b path st) = Ok b'
    <-> exists rows,
          tableSelected env path node = Ok rows
          /\ b' = addItem (Table (map TableRow rows)) b).
  { split.
    - intros Hrun.
      exact (traverse_table_inv (withLatency lat env) _ _ _ _ _ Hname Hrun).
    - intros (rows & Hrows & ->).
      by rewrite (traverse_table (withLatency lat env) node b path st rows). }
  split; [|split; [|apply plainTable_unnested]].
  - rewrite Hcode. split.
    + intros (rows & Hrows & ->). exists rows.
      split; [done|]. by apply tableSelected_cells.
    + intros (rows & -> & Hrows). exists rows.
      split; [|done]. by apply tableSelected_cells.
  - intros Hun R C HR HC. rewrite Hcode.
    rewrite (tableDirect_unnested env path node Hun).
    split.
    + intros (rows & Hrows & ->). exists rows.
      split; [done|]. split; [done|].
      pose proof Hrows as Hshape. apply tableSelected_cells in Hshape.
      destruct Hun as [Hrs Hcs]. rewrite Hrs in Hshape.
      assert (Hown :
        Forall2 (fun row cells =>
                   Forall2 (fun cell content =>
                              cellDirect env path cell = Ok content)
                           (ownCells row) cells)
                (ownRows node) rows).
      { clear -Hshape Hcs. induction Hshape as [|row cells rs cs Hrc _ IH].
        - constructor.
        - apply Forall_cons in Hcs as [Hrow Hrest].
          constructor; [|by apply IH]. simpl in Hrow. by rewrite <- Hrow. }
      split; [|split; [|exact Hown]].
      * rewrite <- HR. symmetry. eapply Forall2_length, Hown.
      * clear -HC Hown. revert HC.
        induction Hown as [|row cells rs cs Hrc _ IH]; intros HC.
        -- constructor.
        -- apply Forall_cons in HC as [Hrow Hrest].
           constructor; [|by apply IH].
           rewrite <- Hrow. symmetry. eapply Forall2_length, Hrc.
    + intros (rows & Hrows & -> & _). by exists rows.
Qed.

Lemma sample_table_unnested : unnested Sample.table.
Proof. by apply plainTable_unnested. Qed.

Lemma sample_table_cells :
  Forall (fun row => length (ownCells row) = 2) (ownRows Sample.table).
Proof. vm_compute. repeat constructor. Qed.

Lemma traverse_table_matches_direct_conversion_witness :
  unnested Sample.table
  /\ length (ownRows Sample.table) = 2
  /\ tableDirect Sample.env "note" Sample.table = Ok sampleRows
  /\ fst (traverse (withLatency (fun n => String.length (textContent n))
                                Sample.env)
                   Sample.table newBuilder "note" Sample.fresh)
     = Ok (addItem (Table (map TableRow sampleRows)) newBuilder).
Proof.
  split; [exact sample_table_unnested|].
  split; [reflexivity|]. split; [reflexivity|].
  destruct (traverse_table_matches_direct_conversion
              Sample.env Sample.table newBuilder "note" Sample.fresh eq_refl
              (fun n => String.length (textContent n))
              (addItem (Table (map TableRow sampleRows)) newBuilder))
    as (_ & Hdirect & _).
  apply (Hdirect sample_table_unnested 2 2 eq_refl sample_table_cells).
  exists sampleRows. split; [reflexivity|]. split; [reflexivity|].
  split; [reflexivity|]. split; [repeat constructor|].
  vm_compute. repeat constructor.
Defined.

(** C5, as stated, fails: a table of one row of two cells, the second of
    which holds a table of one row and one cell, gets two [TableRow]
    elements, of three contents and of one, where the direct conversion
    of its rows and cells gives one row of two contents. *)
Lemma nested_table_rows_counterexample :
  nodeName Sample.nestedTable = "TABLE"
  /\ plainTable Sample.nestedTable = false
  /\ length (ownRows Sample.nestedTable) = 1
  /\ map (fun row => length (ownCells row)) (ownRows Sample.nestedTable) = [2]
  /\ tableDirect Sample.env "note" Sample.nestedTable
     = Ok [[[Paragraph ["a"]]; [Paragraph ["in"]]]]
  /\ fst (traverse Sample.env Sample.nestedTable newBuilder "note"
                   Sample.fresh)
     = Ok (mkBuilder
             [Table [TableRow [[Paragraph ["a"]]; [Paragraph ["in"]];
                               [Paragraph ["in"]]];
                     TableRow [[Paragraph ["in"]]]]]).
Proof. repeat split; vm_compute; reflexivity. Qed.

(** The sample table under two different completion orders. *)
Example sample_table_any_order :
  fst (traverse (withLatency (fun n => String.length (textContent n))
                             Sample.env)
                Sample.table newBuilder "note" Sample.fresh)
  = Ok (addItem (Table (map TableRow sampleRows)) newBuilder)
  /\ fst (traverse Sample.env Sample.table newBuilder "note" Sample.fresh)
     = Ok (addItem (Table (map TableRow sampleRows)) newBuilder)
  /\ tableDirect Sample.env "note" Sample.table = Ok sampleRows.
Proof. repeat split; vm_compute; reflexivity. Qed.

(* ================================================================== *)
(** ** The diagram pipeline *)
(* ================================================================== *)

Section Diagram.
Variable env : Env.

(** [convertMermaidToImage] always returns: whatever is thrown inside
    is caught and turned into [null]. *)
Lemma convertMermaidToImage_run code pageId st :
  exists st', convertMermaidToImage env code pageId st
              = (Ok (pipelineValue env code pageId st), st').
Proof.
  unfold convertMermaidToImage, tryCatch, renderAndUpload, pipelineValue.
  unfold bind, tick, emit, lift, ret, throw, renderId, uploadBody. simpl.
  destruct (mermaidRender env _ code) as [svg|e]; [|by eexists].
  destruct (firstElementChild env svg) as [el|]; simpl; [|by eexists].
  destruct (uploadFile env pageId _) as [response|e]; by eexists.
Qed.

Lemma firstFileId_Some response fid :
  firstFileId response = Some fid <->
  exists r first rest ext,
    response = Some r /\ results r = first :: rest
    /\ extensions first = Some ext /\ fileId ext = fid.
Proof.
  unfold firstFileId. split.
  - destruct response as [r|]; [|done].
    destruct (results r) as [|first rest] eqn:Hr; [done|].
    destruct (extensions first) as [ext|] eqn:He; [|done].
    intros H. inversion H. by exists r, first, rest, ext.
  - intros (r & first & rest & ext & -> & -> & -> & <-). done.
Qed.

End Diagram.

(** C7.  [convertMermaidToImage] never throws.  On a well-formed upload
    response it returns the file identifier of the first attachment; when
    the renderer throws, when the rendered markup has no element to
    post-process, when the upload throws, and on any other response shape
    (no response, no attachment, a first attachment without [extensions])
    it returns [null]. *)
Theorem convertMermaidToImage_never_throws env code pageId st :
  exists r st',
    convertMermaidToImage env code pageId st = (Ok r, st')
    /\ (forall svg el resp first rest ext,
          mermaidRender env (renderId env st) code = Ok svg ->
          firstElementChild env svg = Some el ->
          uploadFile env pageId (uploadBody env st el) = Ok (Some resp) ->
          results resp = first :: rest ->
          extensions first = Some ext ->
          r = Some (fileId ext))
    /\ (forall e,
          mermaidRender env (renderId env st) code = Throw e -> r = None)
    /\ (forall svg,
          mermaidRender env (renderId env st) code = Ok svg ->
          firstElementChild env svg = None -> r = None)
    /\ (forall svg el e,
          mermaidRender env (renderId env st) code = Ok svg ->
          firstElementChild env svg = Some el ->
          uploadFile env pageId (uploadBody env st el) = Throw e ->
          r = None)
    /\ (forall svg el response,
          mermaidRender env (renderId env st) code = Ok svg ->
          firstElementChild env svg = Some el ->
          uploadFile env pageId (uploadBody env st el) = Ok response ->
          (forall resp first rest ext,
             response = Some resp -> results resp = first :: rest ->
             extensions first = Some ext -> False) ->
          r = None).
Proof.
  destruct (convertMermaidToImage_run env code pageId st) as [st' Hrun].
  exists (pipelineValue env code pageId st), st'. split; [exact Hrun|].
  unfold pipelineValue. repeat split.
  - intros svg el resp first rest ext -> -> -> Hr He.
    unfold firstFileId. by rewrite Hr, He.
  - by intros e ->.
  - by intros svg -> ->.
  - by intros svg el e -> -> ->.
  - intros svg el response -> -> -> Hshape.
    destruct (firstFileId response) as [fid|] eqn:Hf; [|done].
    apply firstFileId_Some in Hf as (r & first & rest & ext & H1 & H2 & H3 & _).
    exfalso. eapply Hshape; eauto.
Qed.

Example convertMermaidToImage_sample :
  fst (convertMermaidToImage Sample.env "graph TD" "42" Sample.linked)
  = Ok (Some "file-7")
  /\ fst (convertMermaidToImage Sample.env "graf" "42" Sample.linked)
     = Ok None.
Proof. split; vm_compute; reflexivity. Qed.

(* ================================================================== *)
(** ** Code blocks *)
(* ================================================================== *)

Lemma prefix_split p s :
  String.prefix p s = true -> exists r, s = p +:+ r.
Proof.
  revert s. induction p as [|a p IH]; intros s.
  - intros _. by exists s.
  - destruct s as [|a' s]; simpl; [intros H; discriminate H|].
    destruct (ascii_dec a a') as [->|]; [|intros H; discriminate H].
    intros [r ->]%IH. by exists r.
Qed.

Lemma substring_all s : String.substring 0 (String.length s) s = s.
Proof. induction s as [|a s IH]; simpl; [done | by rewrite IH]. Qed.

(** Replacing the prefix [language-] by the empty string drops it. *)
Lemma replace_prefix r : Js.replace "language-" "" ("language-" +:+ r) = r.
Proof.
  unfold Js.replace. cbv [String.append].
  destruct r as [|a r]; [reflexivity|]. cbn. f_equal. apply substring_all.
Qed.

Section CodeBlocks.
Variable env : Env.
Implicit Types (node c : Node) (b : ADFBuilder) (path : string) (st : State).

Lemma traverse_pre_eq node c b path :
  nodeName node = "PRE" ->
  querySelector sel_code node = Some c ->
  languageOf c = Some "mermaid" ->
  traverse env node b path =
  (let! image :=
     tryCatch (tryMermaid env (textContent c) path b)
              (consoleHandler "Error processing mermaid diagram: ") in
   match image with
   | Some builder' => ret builder'
   | None =>
       ret (if negb (classList_contains c "language-yaml")
            then addItem (codeBlockItem (textContent c)) b else b)
   end).
Proof.
  unfold traverse. intros Hn Hc Hl. rewrite Hn. cbv zeta.
  change (isHeadingName "PRE") with false.
  change (String.eqb "PRE" "TABLE") with false.
  change (String.eqb "PRE" "PRE") with true. cbv iota.
  rewrite Hc, Hl. reflexivity.
Qed.

(** The mermaid attempt never throws past its handler, and yields the
    builder with the image exactly when a page id is found and the
    pipeline returns a non-empty identifier. *)
Lemma tryMermaid_run c b path st :
  exists st',
    tryCatch (tryMermaid env (textContent c) path b)
             (consoleHandler "Error processing mermaid diagram: ") st
    = (Ok (option_map (fun e => addItem e b) (imageChunk env c path st)), st').
Proof.
  unfold tryCatch, tryMermaid, imageChunk, linkedPageId, consoleHandler.
  unfold bind at 1. unfold emit at 1.
  destruct (getAbstractFileByPath env path) as [[file|dir]|];
    try (by eexists).
  unfold bind at 1. unfold vaultRead at 1. unfold bind at 1. unfold emit at 1.
  cbn [vault trace clock].
  destruct (vault st !! file_path file) as [data|]; [|by eexists].
  unfold bind at 1. unfold lift at 1.
  destruct (loadProperties env data) as [props|e]; [|by eexists].
  destruct (props !! "pageId") as [pid|]; [|by eexists].
  destruct (Js.truthy pid); [|by eexists].
  unfold bind at 1.
  match goal with
  | |- context [convertMermaidToImage env ?code pid ?s] =>
      destruct (convertMermaidToImage_run env code pid s) as [s' Hrun];
      rewrite Hrun;
      change (pipelineValue env code pid s)
        with (pipelineValue env code pid st)
  end.
  destruct (pipelineValue env (textContent c) pid st) as [fid|]; [|by eexists].
  destruct (Js.truthy fid); by eexists.
Qed.

Lemma traverse_mermaid node c b path st :
  nodeName node = "PRE" ->
  querySelector sel_code node = Some c ->
  languageOf c = Some "mermaid" ->
  appends env node b path st
    (match imageChunk env c path st with
     | Some image => [image]
     | None => fallbackChunk c
     end).
Proof.
  intros Hn Hc Hl. unfold appends. rewrite (traverse_pre_eq _ _ _ _ Hn Hc Hl).
  unfold bind at 1. destruct (tryMermaid_run c b path st) as [st' ->].
  destruct (imageChunk env c path st) as [image|]; simpl.
  - by eexists _, _.
  - unfold fallbackChunk.
    destruct (classList_contains c "language-yaml"); simpl;
      eexists _, _; (split; [done|]); [by rewrite app_nil_r | done].
Qed.

(** A language tag of [yaml] means that the class [language-yaml] is on
    the element. *)
Lemma language_yaml_class c :
  languageOf c = Some "yaml" -> classList_contains c "language-yaml" = true.
Proof.
  unfold languageOf, classList_contains.
  destruct (List.find _ (classList c)) as [cls|] eqn:Hf; [|done].
  apply find_some in Hf as [Hin Hp]. simpl. intros H. inversion H as [Hr].
  destruct (prefix_split _ _ Hp) as [r ->].
  rewrite replace_prefix in Hr. subst r.
  apply existsb_exists. exists "language-yaml". split; [exact Hin | reflexivity].
Qed.

End CodeBlocks.

Section CodeBlockCases.
Variable env : Env.
Implicit Types (node c : Node) (b : ADFBuilder) (path : string) (st : State).

Lemma convertMermaidToImage_value code pageId st r :
  fst (convertMermaidToImage env code pageId st) = Ok r ->
  pipelineValue env code pageId st = r.
Proof.
  destruct (convertMermaidToImage_run env code pageId st) as [st' ->].
  simpl. congruence.
Qed.

(** A code block whose language tag is not [mermaid]: no call is made. *)
Lemma traverse_plain_code node c b path st :
  nodeName node = "PRE" ->
  querySelector sel_code node = Some c ->
  languageOf c <> Some "mermaid" ->
  appends env node b path st (fallbackChunk c).
Proof.
  intros Hn Hc Hl. unfold appends, traverse. rewrite Hn. cbv zeta.
  change (isHeadingName "PRE") with false.
  change (String.eqb "PRE" "TABLE") with false.
  change (String.eqb "PRE" "PRE") with true. cbv iota. rewrite Hc.
  assert (Hrest : exists b' st',
    ret (if negb (classList_contains c "language-yaml")
         then addItem (codeBlockItem (textContent c)) b else b) st
    = (Ok b', st') /\ items b' = items b ++ fallbackChunk c).
  { unfold fallbackChunk. destruct (classList_contains c "language-yaml");
      simpl; eexists _, _; (split; [done|]); [by rewrite app_nil_r | done]. }
  destruct (languageOf c) as [lang|]; [|exact Hrest].
  destruct (String.eqb_spec lang "mermaid") as [->|]; [done | exact Hrest].
Qed.

End CodeBlockCases.

(** C3 (as amended).  For a code block node (a [PRE]): without a code
    element below it [traverse] appends nothing.  With a code element:
    when its language tag (its first class that starts with [language-],
    without that prefix) is [mermaid], the document has a linked page id
    and the diagram pipeline returns an attachment id, [traverse] appends
    exactly one [MediaSingle] with layout [wide] that refers to this id,
    and no [CodeBlock]; in every other case, that is when the pipeline
    returns nothing usable, when no page id is found, or when the language
    tag is not [mermaid], it appends exactly one [CodeBlock] holding the
    raw code text, unless the code element carries the class
    [language-yaml], whether or not that class is its language tag, in
    which case it appends nothing.  A language tag of [yaml] puts the code
    element in that last case, and a code block whose tag is not
    [mermaid] is converted without any call. *)
Theorem traverse_code_block env node b path st :
  nodeName node = "PRE" ->
  (querySelector sel_code node = None ->
   traverse env node b path st = (Ok b, st))
  /\ (forall c,
        querySelector sel_code node = Some c ->
        let fallback :=
          if classList_contains c "language-yaml" then []
          else [CodeBlock (textContent c)] in
        (languageOf c = Some "mermaid" ->
         (forall pageId fileId,
             linkedPageId env path st = Some pageId ->
             fst (convertMermaidToImage env (textContent c) pageId st)
             = Ok (Some fileId) ->
             Js.truthy fileId = true ->
             appends env node b path st
               [MediaSingle fileId "attachment" "wide"])
         /\ (forall pageId r,
               linkedPageId env path st = Some pageId ->
               fst (convertMermaidToImage env (textContent c) pageId st)
               = Ok r ->
               Js.Boolean r = false ->
               appends env node b path st fallback)
         /\ (linkedPageId env path st = None ->
             appends env node b path st fallback))
        /\ (languageOf c <> Some "mermaid" ->
            exists b',
              traverse env node b path st = (Ok b', st)
              /\ items b' = items b ++ fallback)
        /\ (languageOf c = Some "yaml" ->
            classList_contains c "language-yaml" = true
            /\ traverse env node b path st = (Ok b, st))).
Proof.
  intros Hn. split.
  { intros Hc. unfold traverse. rewrite Hn. cbv zeta.
    change (isHeadingName "PRE") with false.
    change (String.eqb "PRE" "TABLE") with false.
    change (String.eqb "PRE" "PRE") with true. cbv iota. by rewrite Hc. }
  intros c Hc fallback.
  assert (Hplain : languageOf c <> Some "mermaid" ->
    exists b', traverse env node b path st = (Ok b', st)
               /\ items b' = items b ++ fallback).
  { intros Hl. unfold traverse. rewrite Hn. cbv zeta.
    change (isHeadingName "PRE") with false.
    change (String.eqb "PRE" "TABLE") with false.
    change (String.eqb "PRE" "PRE") with true. cbv iota. rewrite Hc.
    assert (Hrest : exists b',
      ret (if negb (classList_contains c "language-yaml")
           then addItem (codeBlockItem (textContent c)) b else b) st
      = (Ok b', st) /\ items b' = items b ++ fallback).
    { unfold fallback. destruct (classList_contains c "language-yaml");
        simpl; eexists; (split; [done|]); [by rewrite app_nil_r | done]. }
    destruct (languageOf c) as [lang|]; [|exact Hrest].
    destruct (String.eqb_spec lang "mermaid") as [->|]; [done | exact Hrest]. }
  split; [|split; [exact Hplain|]].
  - intros Hl. pose proof (traverse_mermaid env node c b path st Hn Hc Hl) as H.
    unfold imageChunk, fallbackChunk in H. repeat split.
    + intros pid fid Hp Hrun Hfid.
      apply convertMermaidToImage_value in Hrun.
      by rewrite Hp, Hrun, Hfid in H.
    + intros pid r Hp Hrun Hr.
      apply convertMermaidToImage_value in Hrun. rewrite Hp, Hrun in H.
      destruct r as [fid|]; simpl in Hr; [by rewrite Hr in H | done].
    + intros Hp. by rewrite Hp in H.
  - intros Hl. pose proof (language_yaml_class c Hl) as Hy.
    split; [exact Hy|].
    destruct Hplain as (b' & Hrun & Hitems); [by rewrite Hl|].
    unfold fallback in Hitems. rewrite Hy, app_nil_r in Hitems.
    rewrite Hrun. destruct b, b'. simpl in Hitems. by subst.
Qed.

Lemma traverse_code_block_witness :
  appends Sample.env (Sample.code "language-mermaid" "graph TD")
          newBuilder "note" Sample.linked
          [MediaSingle "file-7" "attachment" "wide"]
  /\ appends Sample.env (Sample.code "language-mermaid" "graf")
             newBuilder "note" Sample.linked [CodeBlock "graf"]
  /\ appends Sample.env (Sample.code "language-mermaid" "graph TD")
             newBuilder "note" Sample.fresh [CodeBlock "graph TD"]
  /\ (exists b',
        traverse Sample.env (Sample.code "language-js" "let x") newBuilder
                 "note" Sample.linked = (Ok b', Sample.linked)
        /\ items b' = items newBuilder ++ [CodeBlock "let x"])
  /\ traverse Sample.env (Sample.code "language-yaml" "pageId: 42")
              newBuilder "note" Sample.linked = (Ok newBuilder, Sample.linked).
Proof.
  split; [|split; [|split; [|split]]].
  - destruct (traverse_code_block Sample.env
                (Sample.code "language-mermaid" "graph TD")
                newBuilder "note" Sample.linked eq_refl)
      as [_ Hcode].
    destruct (Hcode (codeElement "language-mermaid" "graph TD") eq_refl)
      as (Hm & _ & _).
    destruct (Hm eq_refl) as (Himage & _ & _).
    apply (Himage "42" "file-7"); reflexivity.
  - destruct (traverse_code_block Sample.env
                (Sample.code "language-mermaid" "graf")
                newBuilder "note" Sample.linked eq_refl)
      as [_ Hcode].
    destruct (Hcode (codeElement "language-mermaid" "graf") eq_refl)
      as (Hm & _ & _).
    destruct (Hm eq_refl) as (_ & Hfail & _).
    apply (Hfail "42" None); reflexivity.
  - destruct (traverse_code_block Sample.env
                (Sample.code "language-mermaid" "graph TD")
                newBuilder "note" Sample.fresh eq_refl)
      as [_ Hcode].
    destruct (Hcode (codeElement "language-mermaid" "graph TD") eq_refl)
      as (Hm & _ & _).
    destruct (Hm eq_refl) as (_ & _ & Hnone).
    apply Hnone. reflexivity.
  - destruct (traverse_code_block Sample.env
                (Sample.code "language-js" "let x")
                newBuilder "note" Sample.linked eq_refl)
      as [_ Hcode].
    destruct (Hcode (codeElement "language-js" "let x") eq_refl)
      as (_ & Hplain & _).
    apply Hplain. discriminate.
  - destruct (traverse_code_block Sample.env
                (Sample.code "language-yaml" "pageId: 42")
                newBuilder "note" Sample.linked eq_refl)
      as [_ Hcode].
    destruct (Hcode (codeElement "language-yaml" "pageId: 42") eq_refl)
      as (_ & _ & Hy).
    apply Hy. reflexivity.
Defined.

(** C3, as stated, fails: a code element with the classes
    [language-mermaid] and [language-yaml], in this order, has the
    language tag [mermaid], not [yaml]; the document has a linked page id
    and the pipeline fails on the diagram; and yet no [CodeBlock] is
    appended, since the element carries the class [language-yaml]. *)
Lemma traverse_code_block_mermaid_yaml_counterexample :
  languageOf (Sample.mermaidYamlElement "graf") = Some "mermaid"
  /\ querySelector sel_code (Sample.mermaidYaml "graf")
     = Some (Sample.mermaidYamlElement "graf")
  /\ linkedPageId Sample.env "note" Sample.linked = Some "42"
  /\ fst (convertMermaidToImage Sample.env "graf" "42" Sample.linked)
     = Ok None
  /\ fst (traverse Sample.env (Sample.mermaidYaml "graf") newBuilder "note"
                   Sample.linked)
     = Ok newBuilder.
Proof. repeat split; vm_compute; reflexivity. Qed.

(* ================================================================== *)
(** ** A traversal returns when the content directors do *)
(* ================================================================== *)

Lemma mapR_isOk {X V} (f : X -> Result V) (l : list X) :
  (forall x, isOk (f x) = true) -> exists vs, mapR f l = Ok vs.
Proof.
  intros Hf. induction l as [|x l [vs IH]]; simpl; [by eexists|].
  specialize (Hf x). destruct (f x) as [v|e]; [|discriminate].
  rewrite IH. by eexists.
Qed.

Section Totality.
Variable env : Env.
Hypothesis paragraphs_convert :
  forall node path, isOk (paragraphDirector env node path) = true.
Hypothesis cells_convert :
  forall cell path, isOk (tableDirector env cell path) = true.

Lemma await_join_ok {A} (bs : list (Branch A)) vs st :
  snd (Promise.all (map settled bs)) = Ok vs ->
  await (joinBranches bs) st
  = (Ok vs, mkState (vault st) (trace st ++ flat_map started bs) (clock st)).
Proof.
  intros H. unfold await, joinBranches, bind, emitAll, lift.
  cbn [started settled]. by rewrite H.
Qed.

Lemma traverse_total node b path st :
  exists b' st', traverse env node b path st = (Ok b', st').
Proof.
  unfold traverse. cbv zeta.
  destruct (isHeadingName (nodeName node)); [by eexists _, _|].
  destruct (String.eqb (nodeName node) "TABLE").
  { destruct (mapR_isOk
                (fun row => mapR (cellDirect env path)
                                 (querySelectorAll sel_td_th row))
                (querySelectorAll sel_tr node)) as [rows Hrows].
    { intros row.
      destruct (mapR_isOk (cellDirect env path)
                          (querySelectorAll sel_td_th row)) as [cs ->];
        [|done].
      intros cell. unfold cellDirect. specialize (cells_convert cell path).
      by destruct (tableDirector env cell path). }
    unfold bind. rewrite (await_join_ok _ _ _ (rows_settle env _ _ _ Hrows)).
    by eexists _, _. }
  destruct (String.eqb_spec (nodeName node) "PRE") as [Hpre|_].
  { destruct (querySelector sel_code node) as [c|] eqn:Hc; [|by eexists _, _].
    destruct (languageOf c) as [lang|] eqn:Hl; [|by eexists _, _].
    destruct (String.eqb_spec lang "mermaid") as [->|]; [|by eexists _, _].
    unfold bind at 1.
    destruct (tryMermaid_run env c b path st) as [st' Hrun].
    unfold consoleHandler in Hrun. rewrite Hrun.
    destruct (imageChunk env c path st); by eexists _, _. }
  destruct (String.eqb (nodeName node) "P").
  { unfold bind, emit, lift. specialize (paragraphs_convert node path).
    destruct (paragraphDirector env node path); [by eexists _, _ | done]. }
  destruct (_ || _).
  { destruct (mapR_isOk (listItemDirect env path) (children node))
      as [its Hits].
    { intros li. unfold listItemDirect.
      specialize (paragraphs_convert
                    (createEl_with "P" (childNodes li)) path).
      by destruct (paragraphDirector env _ path). }
    destruct (isTaskListNode node) eqn:Ht.
    - assert (Hall :
        snd (Promise.all
               (map settled (map (itemBranch env true path) (children node))))
        = Ok (map taskItemOf (children node))).
      { rewrite settled_task_items.
        apply (all_map_ok (fun _ => 0) (fun li => Ok (taskItemOf li))).
        apply mapR_total. }
      unfold bind. rewrite (await_join_ok _ _ _ Hall). by eexists _, _.
    - assert (Hall :
        snd (Promise.all
               (map settled (map (itemBranch env false path) (children node))))
        = Ok its).
      { rewrite settled_plain_items. by apply all_map_ok. }
      unfold bind. rewrite (await_join_ok _ _ _ Hall).
      destruct (String.eqb (nodeName node) "OL"); by eexists _, _. }
  destruct (String.eqb (nodeName node) "BLOCKQUOTE"); [by eexists _, _|].
  destruct (String.eqb (nodeName node) "HR"); by eexists _, _.
Qed.

Lemma foldM_traverse_total path nodes : forall b st,
  exists b' st',
    foldM (fun b node => traverse env node b path) nodes b st = (Ok b', st').
Proof.
  induction nodes as [|node nodes IH]; intros b st; simpl.
  - by eexists _, _.
  - unfold bind at 1.
    destruct (traverse_total node b path st) as (b1 & st1 & ->). apply IH.
Qed.

Lemma htmlToAdf_total container path st :
  exists adf st', htmlToAdf env container path st = (Ok adf, st').
Proof.
  unfold htmlToAdf, bind.
  destruct (foldM_traverse_total path (childNodes container) newBuilder st)
    as (b' & st' & ->).
  by eexists _, _.
Qed.

End Totality.

(* ================================================================== *)
(** ** Page linkage *)
(* ================================================================== *)

Section Linkage.
Variable env : Env.
Implicit Types (path : string) (st : State) (file : TFile).

Lemma identity_pageId properties response :
  asString (addProperties (identityOf response) properties !! "pageId")
  = page_id response.
Proof.
  unfold addProperties, identityOf.
  erewrite lookup_union_Some_l; [done|]. apply lookup_insert_eq.
Qed.

(** The fast path: a cached URL is returned after the file has been
    looked up and read; nothing else is called, nothing changes. *)
Lemma getConfluenceLink_cached path st file fileData properties url :
  documentAt env path st file fileData properties ->
  cachedUrl properties = Some url ->
  getConfluenceLink env path st
  = (Ok url,
     mkState (vault st)
             (trace st ++ [EGetFirstLinkpathDest path; EVaultRead file])
             (clock st)).
Proof.
  intros (Hfile & Hdata & Hprops) Hurl.
  unfold getConfluenceLink, vaultRead, bind, emit, lift, ret.
  cbn [vault trace clock]. rewrite Hfile. cbn [vault trace clock].
  rewrite Hdata, Hprops.
  unfold cachedUrl in Hurl.
  destruct (properties !! "confluenceUrl") as [u|]; [|discriminate].
  destruct (Js.truthy u); [|discriminate]. inversion Hurl; subst.
  simpl. by rewrite <- app_assoc.
Qed.

(** The first linkage, up to the content conversion and from there on. *)
Lemma getConfluenceLink_first path st file fileData properties response :
  documentAt env path st file fileData properties ->
  cachedUrl properties = None ->
  createPage env (spaceId env) (file_name file) = Ok response ->
  getConfluenceLink env path st
  = match htmlToAdf env (renderedContainer env fileData path) path
            (stateBeforeTraversal env path st file fileData properties response)
    with
    | (Ok adf, st2) =>
        let update :=
          EUpdatePage (page_id response) (file_name file) adf in
        match updatePage env (page_id response) (file_name file) adf with
        | Ok _ =>
            (Ok (links_base response +:+ links_webui response),
             mkState (vault st2)
                     (trace st2 ++
                      [update; ENotice ("Page Created: " +:+ file_name file)])
                     (clock st2))
        | Throw e =>
            (Throw e, mkState (vault st2) (trace st2 ++ [update]) (clock st2))
        end
    | (Throw e, st2) => (Throw e, st2)
    end.
Proof.
  intros (Hfile & Hdata & Hprops) Hurl Hcreate.
  assert (Hc : match properties !! "confluenceUrl" with
               | Some url => Js.truthy url
               | None => false
               end = false).
  { unfold cachedUrl in Hurl.
    destruct (properties !! "confluenceUrl") as [u|]; [|done].
    by destruct (Js.truthy u). }
  unfold getConfluenceLink, vaultRead, vaultModify, convertObs2Adf.
  unfold bind, emit, lift, ret.
  cbn [vault trace clock]. rewrite Hfile. cbn [vault trace clock].
  rewrite Hdata, Hprops, Hc, Hcreate. cbn [vault trace clock].
  rewrite Hdata. cbn [vault trace clock].
  fold (identityOf response). rewrite identity_pageId.
  unfold stateBeforeTraversal, renderedContainer, annotated.
  rewrite <- !app_assoc. cbn [app].
  destruct (htmlToAdf env _ path _) as [[adf|e] st2]; [|done].
  destruct (updatePage env _ _ adf) as [[]|e]; [|done].
  by rewrite <- app_assoc.
Qed.

End Linkage.

Lemma count_app Q evs1 evs2 : count Q (evs1 ++ evs2) = count Q evs1 + count Q evs2.
Proof. unfold count. by rewrite List.filter_app, length_app. Qed.

Lemma count_excluded (P Q : Event -> bool) evs :
  (forall e, P e = true -> Q e = false) ->
  forallb P evs = true -> count Q evs = 0.
Proof.
  intros HPQ. unfold count. induction evs as [|e evs IH]; simpl; [done|].
  intros [He Hrest]%andb_true_iff. by rewrite (HPQ e He), IH.
Qed.

Lemma traversal_creates_no_page e :
  isTraversalEvent e = true -> isCreatePage e = false.
Proof. by destruct e. Qed.

Lemma traversal_updates_no_page e :
  isTraversalEvent e = true -> isUpdatePage e = false.
Proof. by destruct e. Qed.

Lemma traversal_modifies_no_file e :
  isTraversalEvent e = true -> isVaultModify e = false.
Proof. by destruct e. Qed.

Lemma traversal_renders_no_markdown e :
  isTraversalEvent e = true -> isMarkdownRender e = false.
Proof. by destruct e. Qed.

(** C2.  For a brand-new document (the path resolves to a file whose
    properties hold no cached remote URL), with a Remote Client and
    content directors that answer, [getConfluenceLink] returns the
    concatenation of the [base] and [webui] links of the [createPage]
    response, after having made, in this order, one [createPage] call, one
    write of the source with its metadata block, one rendering followed by
    one full traversal of the rendered document, and one [updatePage] call
    with the result of that traversal; no other page is created or
    updated and nothing else is written. *)
Theorem first_link_call_sequence
    env path st file fileData properties response :
  documentAt env path st file fileData properties ->
  cachedUrl properties = None ->
  createPage env (spaceId env) (file_name file) = Ok response ->
  (forall node p, isOk (paragraphDirector env node p) = true) ->
  (forall cell p, isOk (tableDirector env cell p) = true) ->
  (forall adf,
      isOk (updatePage env (page_id response) (file_name file) adf) = true) ->
  exists adf evs st2 st',
    getConfluenceLink env path st
    = (Ok (links_base response +:+ links_webui response), st')
    /\ htmlToAdf env (renderedContainer env fileData path) path
         (stateBeforeTraversal env path st file fileData properties response)
       = (Ok adf, st2)
    /\ trace st2
       = trace (stateBeforeTraversal env path st file fileData properties
                                     response) ++ evs
    /\ forallb isTraversalEvent evs = true
    /\ trace st'
       = trace st ++
         [EGetFirstLinkpathDest path; EVaultRead file;
          ECreatePage (spaceId env) (file_name file);
          EVaultModify file (annotated env properties response fileData);
          EMarkdownRender fileData path]
         ++ evs ++
         [EUpdatePage (page_id response) (file_name file) adf;
          ENotice ("Page Created: " +:+ file_name file)]
    /\ (forall calls, trace st' = trace st ++ calls ->
        count isCreatePage calls = 1 /\ count isVaultModify calls = 1
        /\ count isMarkdownRender calls = 1 /\ count isUpdatePage calls = 1).
Proof.
  intros Hdoc Hurl Hcreate Hpar Hcell Hupd.
  rewrite (getConfluenceLink_first env _ _ _ _ _ _ Hdoc Hurl Hcreate).
  destruct (htmlToAdf_total env Hpar Hcell (renderedContainer env fileData path)
              path
              (stateBeforeTraversal env path st file fileData properties
                                    response))
    as (adf & st2 & Hrun).
  destruct (only_htmlToAdf env _ _ _ _ _ Hrun) as [_ (evs & Htrace & Hevs)].
  rewrite Hrun. cbv zeta. specialize (Hupd adf).
  destruct (updatePage env _ _ adf) as [u|e]; [|discriminate].
  exists adf, evs, st2. eexists. split; [reflexivity|]. split; [done|].
  split; [exact Htrace|]. split; [done|].
  assert (Hfinal : forall tail,
    (trace st2 ++ tail)
    = trace st ++
      [EGetFirstLinkpathDest path; EVaultRead file;
       ECreatePage (spaceId env) (file_name file);
       EVaultModify file (annotated env properties response fileData);
       EMarkdownRender fileData path] ++ evs ++ tail).
  { intros tail. rewrite Htrace. cbn [stateBeforeTraversal trace].
    by rewrite <- !app_assoc. }
  cbn [trace]. split; [apply Hfinal|].
  intros calls Hcalls. rewrite Hfinal in Hcalls. apply app_inv_head in Hcalls.
  subst calls. rewrite !count_app.
  rewrite (count_excluded _ _ _ traversal_creates_no_page Hevs).
  rewrite (count_excluded _ _ _ traversal_updates_no_page Hevs).
  rewrite (count_excluded _ _ _ traversal_modifies_no_file Hevs).
  rewrite (count_excluded _ _ _ traversal_renders_no_markdown Hevs).
  repeat split; reflexivity.
Qed.

Lemma sample_document_fresh :
  documentAt Sample.env "note" Sample.fresh Sample.noteFile "body" ∅.
Proof. repeat split; reflexivity. Qed.

Lemma sample_document_linked :
  documentAt Sample.env "note" Sample.linked Sample.noteFile "[42]body"
             (identityOf Sample.response).
Proof. repeat split; reflexivity. Qed.

Lemma first_link_call_sequence_witness :
  exists adf evs st2 st',
    getConfluenceLink Sample.env "note" Sample.fresh
    = (Ok "https://wiki/pages/42", st')
    /\ htmlToAdf Sample.env (renderedContainer Sample.env "body" "note") "note"
         (stateBeforeTraversal Sample.env "note" Sample.fresh Sample.noteFile
                               "body" ∅ Sample.response)
       = (Ok adf, st2)
    /\ trace st2
       = trace (stateBeforeTraversal Sample.env "note" Sample.fresh
                  Sample.noteFile "body" ∅ Sample.response) ++ evs
    /\ forallb isTraversalEvent evs = true
    /\ trace st'
       = trace Sample.fresh ++
         [EGetFirstLinkpathDest "note"; EVaultRead Sample.noteFile;
          ECreatePage "SPACE" "note.md";
          EVaultModify Sample.noteFile
            (annotated Sample.env ∅ Sample.response "body");
          EMarkdownRender "body" "note"]
         ++ evs ++
         [EUpdatePage "42" "note.md" adf; ENotice "Page Created: note.md"]
    /\ (forall calls, trace st' = trace Sample.fresh ++ calls ->
        count isCreatePage calls = 1 /\ count isVaultModify calls = 1
        /\ count isMarkdownRender calls = 1 /\ count isUpdatePage calls = 1).
Proof.
  apply (first_link_call_sequence Sample.env "note" Sample.fresh
           Sample.noteFile "body" ∅ Sample.response).
  - exact sample_document_fresh.
  - reflexivity.
  - reflexivity.
  - intros node p. reflexivity.
  - intros cell p. reflexivity.
  - intros adf. reflexivity.
Defined.

(** C6.  For a document whose properties already hold a cached remote
    URL, two successive calls of [getConfluenceLink] both return that
    URL; the second call only looks the file up and reads it: it makes no
    Remote Client call, renders and converts nothing, uploads nothing and
    leaves the vault as it was. *)
Theorem cached_link_is_returned_twice
    env path st file fileData properties url :
  documentAt env path st file fileData properties ->
  cachedUrl properties = Some url ->
  exists st1 st2 calls,
    getConfluenceLink env path st = (Ok url, st1)
    /\ getConfluenceLink env path st1 = (Ok url, st2)
    /\ trace st2 = trace st1 ++ calls
    /\ calls = [EGetFirstLinkpathDest path; EVaultRead file]
    /\ count isRemoteCall calls = 0
    /\ count isMarkdownRender calls = 0
    /\ count isVaultModify calls = 0
    /\ vault st2 = vault st.
Proof.
  intros Hdoc Hurl.
  pose proof (getConfluenceLink_cached env _ _ _ _ _ _ Hdoc Hurl) as H1.
  set (calls := [EGetFirstLinkpathDest path; EVaultRead file]) in *.
  set (st1 := mkState (vault st) (trace st ++ calls) (clock st)) in *.
  exists st1, (mkState (vault st1) (trace st1 ++ calls) (clock st1)), calls.
  split; [exact H1|]. split; [|repeat split; reflexivity].
  apply (getConfluenceLink_cached env _ _ file fileData properties);
    [|done].
  destruct Hdoc as (Hf & Hd & Hp). repeat split; done.
Qed.

Lemma cached_link_is_returned_twice_witness :
  exists st1 st2 calls,
    getConfluenceLink Sample.env "note" Sample.linked
    = (Ok "https://wiki/pages/42", st1)
    /\ getConfluenceLink Sample.env "note" st1
       = (Ok "https://wiki/pages/42", st2)
    /\ trace st2 = trace st1 ++ calls
    /\ calls = [EGetFirstLinkpathDest "note"; EVaultRead Sample.noteFile]
    /\ count isRemoteCall calls = 0
    /\ count isMarkdownRender calls = 0
    /\ count isVaultModify calls = 0
    /\ vault st2 = vault Sample.linked.
Proof.
  apply (cached_link_is_returned_twice Sample.env "note" Sample.linked
           Sample.noteFile "[42]body" (identityOf Sample.response)).
  - exact sample_document_linked.
  - reflexivity.
Defined.

(* ================================================================== *)
(** ** What a traversal step calls *)
(* ================================================================== *)




Section Calls.
Variable env : Env.
Implicit Types (node : Node) (b : ADFBuilder) (path : string) (st : State).






End Calls.






(** A note that is reached by its link text only: the first linkage
    writes the page id into the file, and the diagram of the note is still
    sent as a code block, without a rendering or an upload, since the
    lookup by path finds no file. *)
Example first_link_by_link_text_sample :
  trace (snd (getConfluenceLink linkOnlyEnv "note" Sample.fresh))
  = [EGetFirstLinkpathDest "note"; EVaultRead Sample.noteFile;
     ECreatePage "SPACE" "note.md";
     EVaultModify Sample.noteFile "[42]body";
     EMarkdownRender "body" "note";
     EGetAbstractFileByPath "note";
     EUpdatePage "42" "note.md" [Heading 1 "Title"; CodeBlock "graph TD"];
     ENotice "Page Created: note.md"].
Proof. vm_compute. reflexivity. Qed.


(* ================================================================== *)
(** ** The builder is only appended to *)
(* ================================================================== *)

Lemma appendTo_new b : appendTo b newBuilder = b.
Proof. destruct b as [l]. unfold appendTo. simpl. by rewrite app_nil_r. Qed.

Lemma appendTo_addItem b e : appendTo b (addItem e newBuilder) = addItem e b.
Proof. reflexivity. Qed.

Lemma appendTo_addItems b es :
  appendTo b (addItems es newBuilder) = addItems es b.
Proof.
  unfold appendTo. rewrite items_addItems. simpl.
  destruct (addItems es b) as [l] eqn:H.
  f_equal. by rewrite <- (items_addItems es b), H.
Qed.

Section Rebase.
Variable env : Env.
Implicit Types (node : Node) (b : ADFBuilder) (path : string) (st : State).

Lemma tryMermaid_rebase code path b st :
  tryMermaid env code path b st
  = (mapResult (option_map (appendTo b))
               (fst (tryMermaid env code path newBuilder st)),
     snd (tryMermaid env code path newBuilder st)).
Proof.
  unfold tryMermaid, vaultRead, bind, emit, lift, ret.
  destruct (getAbstractFileByPath env path) as [[file|dir]|]; try reflexivity.
  cbn [vault trace clock].
  destruct (vault st !! file_path file) as [data|]; [|reflexivity].
  destruct (loadProperties env data) as [props|e]; [|reflexivity].
  destruct (props !! "pageId") as [pid|]; [|reflexivity].
  destruct (Js.truthy pid); [|reflexivity].
  destruct (convertMermaidToImage env code pid _) as [[[fid|]|e] s'];
    try reflexivity.
  destruct (Js.truthy fid); reflexivity.
Qed.

(** [traverse] never reads the builder it is given: run on a builder
    that holds items already, it does what it does on a fresh builder,
    and returns those items followed by the new ones. *)
Lemma traverse_rebase node b path st :
  traverse env node b path st = rebase b (traverse env node newBuilder path st).
Proof.
  unfold rebase, traverse. cbv zeta.
  destruct (isHeadingName (nodeName node)); [reflexivity|].
  destruct (String.eqb (nodeName node) "TABLE").
  { unfold bind. by destruct (await _ st) as [[rows|e] st1]. }
  destruct (String.eqb (nodeName node) "PRE").
  { destruct (querySelector sel_code node) as [c|];
      [|simpl; by rewrite appendTo_new].
    assert (Hrest :
      (if negb (classList_contains c "language-yaml")
       then addItem (codeBlockItem (textContent c)) b else b)
      = appendTo b (if negb (classList_contains c "language-yaml")
                    then addItem (codeBlockItem (textContent c)) newBuilder
                    else newBuilder)).
    { destruct (classList_contains c "language-yaml"); simpl;
        [by rewrite appendTo_new | reflexivity]. }
    destruct (languageOf c) as [lang|]; [|simpl; by rewrite Hrest].
    destruct (String.eqb lang "mermaid"); [|simpl; by rewrite Hrest].
    unfold bind at 1 3 5. unfold tryCatch. rewrite tryMermaid_rebase.
    destruct (tryMermaid env (textContent c) path newBuilder st)
      as [[[c'|]|e] s']; simpl; by rewrite ?Hrest. }
  destruct (String.eqb (nodeName node) "P").
  { unfold bind, emit, lift. simpl.
    destruct (paragraphDirector env node path) as [es|e]; simpl;
      [by rewrite appendTo_addItems | reflexivity]. }
  destruct (_ || _).
  { unfold bind. destruct (await _ st) as [[its|e] st1]; [|reflexivity].
    destruct (isTaskListNode node); [reflexivity|].
    by destruct (String.eqb (nodeName node) "OL"). }
  destruct (String.eqb (nodeName node) "BLOCKQUOTE"); [reflexivity|].
  destruct (String.eqb (nodeName node) "HR"); [reflexivity|].
  simpl. by rewrite appendTo_new.
Qed.

Lemma appendTo_assoc b c d : appendTo (appendTo b c) d = appendTo b (appendTo c d).
Proof. unfold appendTo. simpl. by rewrite app_assoc. Qed.

(** The same holds for a whole sequence of sibling nodes. *)
Lemma foldM_traverse_rebase path nodes : forall b st,
  foldM (fun b node => traverse env node b path) nodes b st
  = rebase b (foldM (fun b node => traverse env node b path)
                    nodes newBuilder st).
Proof.
  induction nodes as [|node nodes IH]; intros b st; simpl.
  - unfold rebase, ret. simpl. by rewrite appendTo_new.
  - unfold bind at 1 2. rewrite (traverse_rebase node b).
    destruct (traverse env node newBuilder path st) as [[c|e] st1]; simpl;
      [|reflexivity].
    rewrite (IH (appendTo b c)), (IH c). unfold rebase. simpl.
    destruct (foldM _ nodes newBuilder st1) as [[d|e] st2]; simpl;
      [|reflexivity].
    by rewrite appendTo_assoc.
Qed.

End Rebase.

Lemma foldM_app {A B} (f : A -> B -> M A) l1 l2 : forall a st,
  foldM f (l1 ++ l2) a st = (let! a1 := foldM f l1 a in foldM f l2 a1) st.
Proof.
  induction l1 as [|x l1 IH]; intros a st; simpl.
  - reflexivity.
  - unfold bind. destruct (f a x st) as [[a'|e] st1]; [|reflexivity].
    rewrite IH. reflexivity.
Qed.

(** X1.  [traverse] never reads the builder it is given and never removes
    from it: on a builder that already holds items it makes the same
    calls, ends in the same state and fails or succeeds as on a fresh
    builder, and on success returns the old items followed by exactly the
    items it returns on the fresh builder. *)
Theorem traverse_only_appends env node b path st :
  traverse env node b path st
  = (mapResult (fun c => mkBuilder (items b ++ items c))
               (fst (traverse env node newBuilder path st)),
     snd (traverse env node newBuilder path st)).
Proof. apply traverse_rebase. Qed.

(** X2.  Conversions compose: when the conversion of a first run of
    sibling nodes returns, and the conversion of the following siblings,
    started in the state the first one ended in, returns too, then the
    conversion of all of them returns the first sequence followed by the
    second, in the state the second one ended in. *)
Theorem htmlToAdf_app env name classes attrs l1 l2 path st a1 st1 a2 st2 :
  htmlToAdf env (Element name classes attrs l1) path st = (Ok a1, st1) ->
  htmlToAdf env (Element name classes attrs l2) path st1 = (Ok a2, st2) ->
  htmlToAdf env (Element name classes attrs (l1 ++ l2)) path st
  = (Ok (a1 ++ a2), st2).
Proof.
  unfold htmlToAdf. cbn [childNodes]. unfold bind at 1 2 3. unfold ret.
  rewrite foldM_app. unfold bind.
  destruct (foldM _ l1 newBuilder st) as [[b1|e] s1]; [|discriminate].
  intros H1. inversion H1; subst. clear H1.
  intros H2. rewrite (foldM_traverse_rebase env path l2 b1 st1).
  destruct (foldM _ l2 newBuilder st1) as [[b2|e] s2]; [|discriminate].
  inversion H2; subst. reflexivity.
Qed.

Lemma htmlToAdf_app_witness :
  htmlToAdf Sample.env
    (Element "DIV" [] []
       ([Element "H1" [] [] [Text "Title"]; paragraph "intro"]
        ++ [Sample.plainList; Element "HR" [] [] []]))
    "note" Sample.fresh
  = (Ok ([Heading 1 "Title"; Paragraph ["intro"]]
         ++ [OrderedList [ListItem [Paragraph ["one"]];
                          ListItem [Paragraph ["three"]]];
             HorizontalRule]),
     mkState (vault Sample.fresh)
       [ENewParagraphDirector;
        EParagraphDirector (paragraph "intro") "note";
        ENewParagraphDirector;
        EParagraphDirector (paragraph "one") "note";
        ENewParagraphDirector;
        EParagraphDirector (paragraph "three") "note"] 0).
Proof.
  apply (htmlToAdf_app Sample.env "DIV" [] [] _ _ "note" Sample.fresh _
           (mkState (vault Sample.fresh)
              [ENewParagraphDirector;
               EParagraphDirector (paragraph "intro") "note"] 0));
    vm_compute; reflexivity.
Defined.

(** X3.  A failing node aborts the conversion: when the siblings before
    it convert and the node itself throws, [htmlToAdf] throws the same
    error and stops in the state the failing step ended in, whatever
    follows the node; no later sibling is visited. *)
Theorem htmlToAdf_stops_at_first_failure
    env name classes attrs l1 node l2 path st a1 st1 e st2 :
  htmlToAdf env (Element name classes attrs l1) path st = (Ok a1, st1) ->
  traverse env node newBuilder path st1 = (Throw e, st2) ->
  htmlToAdf env (Element name classes attrs (l1 ++ node :: l2)) path st
  = (Throw e, st2).
Proof.
  unfold htmlToAdf. cbn [childNodes]. unfold bind at 1 2. unfold ret.
  rewrite foldM_app. unfold bind at 1.
  destruct (foldM _ l1 newBuilder st) as [[b1|e1] s1]; [|discriminate].
  intros H1. inversion H1; subst. clear H1.
  intros Hnode. simpl. unfold bind.
  rewrite traverse_rebase, Hnode. reflexivity.
Qed.

Lemma htmlToAdf_stops_at_first_failure_witness :
  htmlToAdf pickyEnv
    (Element "DIV" [] []
       ([Element "H1" [] [] [Text "Title"]; paragraph "fine"]
        ++ paragraph "bad" :: [paragraph "never seen"; Sample.table]))
    "note" Sample.fresh
  = (Throw "malformed inline content",
     mkState (vault Sample.fresh)
       [ENewParagraphDirector;
        EParagraphDirector (paragraph "fine") "note";
        ENewParagraphDirector;
        EParagraphDirector (paragraph "bad") "note"] 0).
Proof.
  apply (htmlToAdf_stops_at_first_failure pickyEnv "DIV" [] [] _ _ _ "note"
           Sample.fresh [Heading 1 "Title"; Paragraph ["fine"]]
           (mkState (vault Sample.fresh)
              [ENewParagraphDirector;
               EParagraphDirector (paragraph "fine") "note"] 0));
    vm_compute; reflexivity.
Defined.


Section QuietCases.
Variable env : Env.
Implicit Types (node : Node) (b : ADFBuilder) (path : string) (st : State).

Lemma traverse_pre node b path st :
  nodeName node = "PRE" ->
  exists chunk, appends env node b path st chunk /\ length chunk <= 1.
Proof.
  intros Hn. destruct (querySelector sel_code node) as [c|] eqn:Hc.
  - destruct (decide (languageOf c = Some "mermaid")) as [Hl|Hl].
    + eexists. split; [exact (traverse_mermaid env node c b path st Hn Hc Hl)|].
      destruct (imageChunk env c path st); [done|].
      unfold fallbackChunk. destruct (classList_contains _ _); simpl; lia.
    + eexists. split; [exact (traverse_plain_code env node c b path st Hn Hc Hl)|].
      unfold fallbackChunk. destruct (classList_contains _ _); simpl; lia.
  - exists []. split; [|simpl; lia]. unfold appends, traverse.
    rewrite Hn. cbv zeta.
    change (isHeadingName "PRE") with false.
    change (String.eqb "PRE" "TABLE") with false.
    change (String.eqb "PRE" "PRE") with true. cbv iota. rewrite Hc.
    eexists _, _. split; [reflexivity|]. by rewrite app_nil_r.
Qed.

Lemma traverse_quiet node b path st :
  callsOut node = false ->
  exists b',
    traverse env node b path st = (Ok b', afterCalls st (quietCalls node)).
Proof.
  unfold quietCalls.
  destruct (String.eqb (nodeName node) "OL" || String.eqb (nodeName node) "UL")
    eqn:Hlist.
  { assert (Hname : isListName node).
    { apply orb_true_iff in Hlist as [H|H]; apply String.eqb_eq in H;
        [by left | by right]. }
    intros Hc. eexists. apply traverse_task_list; [done|].
    unfold callsOut in Hc. cbv zeta in Hc.
    destruct Hname as [H|H]; rewrite H in Hc; simpl in Hc;
      by apply negb_false_iff in Hc. }
  rewrite afterCalls_nil. unfold callsOut, traverse. cbv zeta. rewrite Hlist.
  destruct (isHeadingName (nodeName node)); [intros _; by eexists|].
  destruct (String.eqb (nodeName node) "TABLE"); [discriminate|].
  destruct (String.eqb (nodeName node) "PRE").
  { destruct (querySelector sel_code node) as [c|]; [|intros _; by eexists].
    destruct (languageOf c) as [lang|]; [|intros _; by eexists].
    intros ->. by eexists. }
  destruct (String.eqb (nodeName node) "P"); [discriminate|].
  intros _.
  destruct (String.eqb (nodeName node) "BLOCKQUOTE"); [by eexists|].
  destruct (String.eqb (nodeName node) "HR"); by eexists.
Qed.

End QuietCases.

(** X5.  A code block never makes the conversion fail: for a [PRE] node
    [traverse] always returns, whatever the vault, the properties parser,
    the renderer or the Remote Client do, and it has appended at most one
    element. *)
Theorem traverse_code_block_never_throws env node b path st :
  nodeName node = "PRE" ->
  exists chunk b' st',
    traverse env node b path st = (Ok b', st')
    /\ items b' = items b ++ chunk /\ length chunk <= 1.
Proof.
  intros Hn.
  destruct (traverse_pre env node b path st Hn)
    as (chunk & (b' & st' & Hrun & Hitems) & Hlen).
  by exists chunk, b', st'.
Qed.

(** A renderer that rejects the diagram: the code block falls back to
    its text. *)
Lemma traverse_code_block_never_throws_witness :
  exists chunk b' st',
    traverse offlineEnv (Sample.code "language-mermaid" "graf") newBuilder
             "note" Sample.linked = (Ok b', st')
    /\ items b' = items newBuilder ++ chunk /\ length chunk <= 1.
Proof.
  apply (traverse_code_block_never_throws offlineEnv
           (Sample.code "language-mermaid" "graf") newBuilder "note"
           Sample.linked).
  reflexivity.
Defined.

(** X6.  Headings, blockquotes, horizontal rules, nodes of unrecognized
    kinds and code blocks that are not tagged [mermaid] are converted
    without any call to the outside: [traverse] returns, and the state
    (vault, calls made, clock) is exactly what it was.  A task list is
    converted without running anything: [traverse] returns after having
    constructed one paragraph director per element child, and that is all
    the record of calls shows; the vault and the clock are what they
    were. *)
Theorem traverse_without_calls env node b path st :
  callsOut node = false ->
  exists b',
    traverse env node b path st = (Ok b', afterCalls st (quietCalls node))
    /\ (isListName node ->
        isTaskListNode node = true
        /\ quietCalls node
           = map (fun _ => ENewParagraphDirector) (children node))
    /\ (~ isListName node -> afterCalls st (quietCalls node) = st).
Proof.
  intros Hc. destruct (traverse_quiet env node b path st Hc) as [b' Hrun].
  exists b'. split; [exact Hrun|]. unfold quietCalls. split.
  - intros Hname. unfold callsOut in Hc. cbv zeta in Hc.
    destruct Hname as [H|H]; rewrite H in *; simpl in *;
      by apply negb_false_iff in Hc.
  - intros Hname.
    destruct (String.eqb_spec (nodeName node) "OL") as [H|_];
      [by destruct Hname; left|].
    destruct (String.eqb_spec (nodeName node) "UL") as [H|_];
      [by destruct Hname; right|].
    apply afterCalls_nil.
Qed.

Lemma traverse_without_calls_witness :
  (exists b', traverse offlineEnv Sample.taskList newBuilder "note"
                       Sample.fresh
              = (Ok b', afterCalls Sample.fresh
                          [ENewParagraphDirector; ENewParagraphDirector]))
  /\ (exists b', traverse offlineEnv (Sample.code "language-js" "let x")
                          newBuilder "note" Sample.fresh
                 = (Ok b', Sample.fresh))
  /\ (exists b', traverse offlineEnv (Element "BLOCKQUOTE" [] [] [Text "q"])
                          newBuilder "note" Sample.fresh
                 = (Ok b', Sample.fresh)).
Proof.
  repeat split.
  - destruct (traverse_without_calls offlineEnv Sample.taskList newBuilder
                "note" Sample.fresh eq_refl) as (b' & Hrun & _).
    by exists b'.
  - destruct (traverse_without_calls offlineEnv
                (Sample.code "language-js" "let x") newBuilder
                "note" Sample.fresh eq_refl) as (b' & Hrun & _).
    by exists b'.
  - destruct (traverse_without_calls offlineEnv
                (Element "BLOCKQUOTE" [] [] [Text "q"]) newBuilder
                "note" Sample.fresh eq_refl) as (b' & Hrun & _).
    by exists b'.
Defined.

(* ================================================================== *)
(** ** What the diagram pipeline calls and uploads *)
(* ================================================================== *)

Lemma lookupAttr_setAttr_eq name value a :
  lookupAttr name (setAttr name value a) = Some value.
Proof.
  induction a as [|[k v] a IH]; simpl.
  - by rewrite String.eqb_refl.
  - destruct (String.eqb k name) eqn:Hk; simpl; by rewrite Hk.
Qed.

Lemma lookupAttr_setAttr_ne name other value a :
  other <> name ->
  lookupAttr other (setAttr name value a) = lookupAttr other a.
Proof.
  intros Hne. induction a as [|[k v] a IH]; simpl.
  - destruct (String.eqb_spec name other); [congruence | done].
  - destruct (String.eqb_spec k name) as [->|Hk]; simpl.
    + destruct (String.eqb_spec name other); [congruence | done].
    + by rewrite IH.
Qed.

Lemma getAttr_setAttribute_eq name value el :
  isElement el = true -> getAttr (setAttribute name value el) name = Some value.
Proof. destruct el; [|done]. intros _. apply lookupAttr_setAttr_eq. Qed.

Lemma getAttr_setAttribute_ne name other value el :
  other <> name ->
  getAttr (setAttribute name value el) other = getAttr el other.
Proof. destruct el; [|done]. apply lookupAttr_setAttr_ne. Qed.

Lemma sized_attributes el :
  nodeName (sized el) = nodeName el
  /\ childNodes (sized el) = childNodes el
  /\ classList (sized el) = classList el
  /\ (isElement el = true ->
      getAttr (sized el) "width" = Some "1200"
      /\ getAttr (sized el) "height" = Some "800"
      /\ getAttr (sized el) "style" = Some "background-color: white;")
  /\ (forall a, a <> "width" -> a <> "height" -> a <> "style" ->
      getAttr (sized el) a = getAttr el a).
Proof.
  unfold sized. split; [by destruct el|]. split; [by destruct el|].
  split; [by destruct el|]. split.
  - intros Hel. repeat split.
    + rewrite !getAttr_setAttribute_ne by done.
      by apply getAttr_setAttribute_eq.
    + rewrite getAttr_setAttribute_ne by done.
      apply getAttr_setAttribute_eq. by destruct el.
    + apply getAttr_setAttribute_eq. by destruct el.
  - intros a H1 H2 H3. by rewrite !getAttr_setAttribute_ne.
Qed.

Section PipelineCalls.
Variable env : Env.

(** The state a pipeline run ends in, stage by stage. *)
Lemma convertMermaidToImage_state code pageId st :
  snd (convertMermaidToImage env code pageId st)
  = let render := EMermaidRender (renderId env st) code in
    let failed e :=
      EConsoleError ("Error in convertMermaidToImage: " +:+ e) in
    match mermaidRender env (renderId env st) code with
    | Ok svg =>
        match firstElementChild env svg with
        | Some el =>
            let upload := EUploadFile pageId (uploadBody env st el) in
            match uploadFile env pageId (uploadBody env st el) with
            | Ok _ =>
                mkState (vault st) (trace st ++ [render; upload])
                        (S (S (clock st)))
            | Throw e =>
                mkState (vault st) (trace st ++ [render; upload; failed e])
                        (S (S (clock st)))
            end
        | None =>
            mkState (vault st)
                    (trace st ++ [render; failed "TypeError: svgElement is null"])
                    (S (clock st))
        end
    | Throw e =>
        mkState (vault st) (trace st ++ [render; failed e]) (S (clock st))
    end.
Proof.
  unfold convertMermaidToImage, tryCatch, renderAndUpload.
  unfold bind, tick, emit, lift, ret, throw, renderId, uploadBody.
  cbn [vault trace clock].
  destruct (mermaidRender env _ code) as [svg|e];
    [|cbn [vault trace clock snd]; by rewrite <- app_assoc].
  destruct (firstElementChild env svg) as [el|]; cbn [vault trace clock snd];
    [|by rewrite <- app_assoc].
  destruct (uploadFile env pageId _) as [response|e];
    cbn [vault trace clock snd]; by rewrite <- !app_assoc.
Qed.

End PipelineCalls.

(** X7.  A pipeline run renders exactly once, first, and uploads at most
    once, and only after the renderer has answered with markup that holds
    an element: when rendering throws or yields no element, nothing is
    uploaded.  The vault is never touched. *)
Theorem convertMermaidToImage_call_discipline env code pageId st :
  vault (snd (convertMermaidToImage env code pageId st)) = vault st
  /\ exists rest,
       trace (snd (convertMermaidToImage env code pageId st))
       = trace st ++ EMermaidRender (renderId env st) code :: rest
       /\ count isMermaidRender rest = 0
       /\ count isUploadFile rest <= 1
       /\ (count isUploadFile rest = 1 <->
           exists svg el,
             mermaidRender env (renderId env st) code = Ok svg
             /\ firstElementChild env svg = Some el).
Proof.
  rewrite convertMermaidToImage_state. cbv zeta.
  destruct (mermaidRender env (renderId env st) code) as [svg|e] eqn:Hr.
  - destruct (firstElementChild env svg) as [el|] eqn:Hel.
    + destruct (uploadFile env pageId _) as [r|e];
        (split; [reflexivity|]; eexists; split; [reflexivity|];
         split; [reflexivity|]; split; [cbn; lia|];
         split; [intros _; by exists svg, el | intros _; reflexivity]).
    + split; [reflexivity|]. eexists. split; [reflexivity|].
      split; [reflexivity|]. split; [cbn; lia|].
      split; [by cbn|]. intros (svg' & el' & Hs & He).
      inversion Hs; subst. congruence.
  - split; [reflexivity|]. eexists. split; [reflexivity|].
    split; [reflexivity|]. split; [cbn; lia|].
    split; [by cbn | by intros (? & ? & ? & _)].
Qed.

(** X8.  What a pipeline run uploads: always to the page id it was given,
    a single file in the field [file], of type [image/svg+xml], named
    [mermaid-<time>.svg], whose content is the XML declaration followed by
    the serialization of the rendered element with [width] 1200, [height]
    800 and a white background; these three attributes replace whatever
    the renderer had set, every other attribute, the element's name and
    its children are kept. *)
Theorem convertMermaidToImage_upload_body env code pageId st calls p form :
  trace (snd (convertMermaidToImage env code pageId st)) = trace st ++ calls ->
  In (EUploadFile p form) calls ->
  p = pageId
  /\ form_field form = "file"
  /\ form_type form = "image/svg+xml"
  /\ form_filename form = "mermaid-" +:+ dateNow env (S (clock st)) +:+ ".svg"
  /\ exists svg el el',
       mermaidRender env (renderId env st) code = Ok svg
       /\ firstElementChild env svg = Some el
       /\ form_content form = xmlDeclaration +:+ serializeToString env el'
       /\ nodeName el' = nodeName el /\ childNodes el' = childNodes el
       /\ (isElement el = true ->
           getAttr el' "width" = Some "1200"
           /\ getAttr el' "height" = Some "800"
           /\ getAttr el' "style" = Some "background-color: white;")
       /\ (forall a, a <> "width" -> a <> "height" -> a <> "style" ->
           getAttr el' a = getAttr el a).
Proof.
  rewrite convertMermaidToImage_state. cbv zeta.
  assert (Hbody : forall svg el,
    mermaidRender env (renderId env st) code = Ok svg ->
    firstElementChild env svg = Some el ->
    EUploadFile pageId (uploadBody env st el) = EUploadFile p form ->
    p = pageId
    /\ form_field form = "file"
    /\ form_type form = "image/svg+xml"
    /\ form_filename form
       = "mermaid-" +:+ dateNow env (S (clock st)) +:+ ".svg"
    /\ exists svg el el',
         mermaidRender env (renderId env st) code = Ok svg
         /\ firstElementChild env svg = Some el
         /\ form_content form = xmlDeclaration +:+ serializeToString env el'
         /\ nodeName el' = nodeName el /\ childNodes el' = childNodes el
         /\ (isElement el = true ->
             getAttr el' "width" = Some "1200"
             /\ getAttr el' "height" = Some "800"
             /\ getAttr el' "style" = Some "background-color: white;")
         /\ (forall a, a <> "width" -> a <> "height" -> a <> "style" ->
             getAttr el' a = getAttr el a)).
  { intros svg el Hr Hel Heq. unfold uploadBody in Heq.
    inversion Heq; subst. repeat split; try done.
    exists svg, el, (sized el).
    destruct (sized_attributes el) as (H1 & H2 & _ & H3 & H4).
    repeat split; try done; by apply H3. }
  destruct (mermaidRender env (renderId env st) code) as [svg|e] eqn:Hr.
  - destruct (firstElementChild env svg) as [el|] eqn:Hel.
    + destruct (uploadFile env pageId _) as [r|e]; cbn [trace];
        intros <-%app_inv_head; cbn [In];
        intros [H|[H|H]]; try discriminate H; try (by eapply Hbody);
        try (destruct H as [H|[]]; discriminate H); destruct H.
    + cbn [trace]. intros <-%app_inv_head. cbn [In].
      intros [H|[H|[]]]; discriminate H.
  - cbn [trace]. intros <-%app_inv_head. cbn [In].
    intros [H|[H|[]]]; discriminate H.
Qed.

Lemma convertMermaidToImage_upload_body_witness :
  trace (snd (convertMermaidToImage svgEnv "graph TD" "42" Sample.linked))
  = [EMermaidRender "mermaid-x" "graph TD";
     EUploadFile "42"
       (mkFormFile "file" "mermaid-0.svg" "image/svg+xml"
                   (xmlDeclaration +:+ "1200x800"))]
  /\ exists svg el el',
       mermaidRender svgEnv (renderId svgEnv Sample.linked) "graph TD" = Ok svg
       /\ firstElementChild svgEnv svg = Some el
       /\ xmlDeclaration +:+ "1200x800"
          = xmlDeclaration +:+ serializeToString svgEnv el'
       /\ nodeName el' = nodeName el /\ childNodes el' = childNodes el
       /\ (isElement el = true ->
           getAttr el' "width" = Some "1200"
           /\ getAttr el' "height" = Some "800"
           /\ getAttr el' "style" = Some "background-color: white;")
       /\ (forall a, a <> "width" -> a <> "height" -> a <> "style" ->
           getAttr el' a = getAttr el a).
Proof.
  split; [vm_compute; reflexivity|].
  apply (convertMermaidToImage_upload_body svgEnv "graph TD" "42"
           Sample.linked
           [EMermaidRender "mermaid-x" "graph TD";
            EUploadFile "42"
              (mkFormFile "file" "mermaid-0.svg" "image/svg+xml"
                          (xmlDeclaration +:+ "1200x800"))]
           "42"
           (mkFormFile "file" "mermaid-0.svg" "image/svg+xml"
                       (xmlDeclaration +:+ "1200x800"))).
  - vm_compute. reflexivity.
  - right. left. reflexivity.
Defined.


(* ================================================================== *)
(** ** Failing cells, plain lists, headings *)
(* ================================================================== *)

Section MoreCases.
Variable env : Env.
Implicit Types (node : Node) (b : ADFBuilder) (path : string) (st : State).

(** A table starts every cell director, whatever becomes of them. *)
Lemma traverse_table_state node b path st :
  nodeName node = "TABLE" ->
  snd (traverse env node b path st)
  = mkState (vault st) (trace st ++ tableCalls path node) (clock st).
Proof.
  intros Hname. rewrite traverse_table_eq by done.
  unfold bind, await, joinBranches. cbn [started settled].
  unfold bind, emitAll, lift. rewrite started_rows. unfold tableCalls.
  by destruct (snd (Promise.all _)).
Qed.

Lemma join_rejected {A} (f : Node -> Promise.Settled A) l e :
  snd (Promise.all (map f l)) = Throw e ->
  exists x, In x l /\ snd (f x) = Throw e.
Proof.
  destruct (Promise.all (map f l)) as [t r] eqn:Hall. simpl. intros ->.
  apply PromiseFacts.all_rejected, list_elem_of_In, in_map_iff in Hall
    as (x & Hx & Hin).
  exists x. split; [done|]. by rewrite Hx.
Qed.

(** A table that throws throws what one of its cell directors threw. *)
Lemma traverse_table_error node b path st e :
  nodeName node = "TABLE" ->
  fst (traverse env node b path st) = Throw e ->
  exists row cell,
    In row (querySelectorAll sel_tr node)
    /\ In cell (querySelectorAll sel_td_th row)
    /\ tableDirector env cell path = Throw e.
Proof.
  intros Hname. rewrite traverse_table_eq by done.
  unfold bind, await, joinBranches. cbn [started settled].
  unfold bind, emitAll, lift. rewrite map_map.
  destruct (snd (Promise.all _)) as [content|e'] eqn:Hjoin; [discriminate|].
  simpl. intros H. inversion H; subst. clear H.
  apply (join_rejected (fun row => settled (rowBranch env path row)))
    in Hjoin as (row & Hrow & Hr).
  unfold rowBranch, thenMap, joinBranches in Hr. cbn [settled snd] in Hr.
  rewrite map_map in Hr.
  destruct (snd (Promise.all _)) as [cs|e'] eqn:Hcells; [discriminate|].
  simpl in Hr. inversion Hr; subst. clear Hr.
  apply (join_rejected (fun cell => settled (cellBranch env path cell)))
    in Hcells as (cell & Hcell & Hc).
  exists row, cell. split; [done|]. split; [done|].
  unfold cellBranch in Hc. cbn [settled snd] in Hc.
  by destruct (tableDirector env cell path).
Qed.

Lemma started_plain_items path l :
  flat_map started (map (itemBranch env false path) l)
  = flat_map (fun li => [ENewParagraphDirector;
                         EParagraphDirector (itemParagraph li) path]) l.
Proof. induction l as [|li l IH]; simpl; [done | by rewrite IH]. Qed.

(** A list that is not a task list starts one paragraph director per
    element child, whatever becomes of them. *)
Lemma traverse_plain_list_state node b path st :
  isListName node -> isTaskListNode node = false ->
  snd (traverse env node b path st)
  = mkState (vault st) (trace st ++ listCalls path node) (clock st).
Proof.
  intros Hname Ht. rewrite traverse_list_eq by done. rewrite Ht.
  unfold bind, await, joinBranches. cbn [started settled].
  unfold bind, emitAll, lift. rewrite started_plain_items. unfold listCalls.
  destruct (snd (Promise.all _)); [|reflexivity].
  by destruct (String.eqb (nodeName node) "OL").
Qed.

Lemma build_addItems es : build (addItems es newBuilder) = es.
Proof. unfold build. by rewrite items_addItems. Qed.

Lemma heading_names name :
  isHeadingName name = true ->
  name = "H1" \/ name = "H2" \/ name = "H3"
  \/ name = "H4" \/ name = "H5" \/ name = "H6".
Proof.
  unfold isHeadingName. cbn [existsb]. rewrite !orb_true_iff, !String.eqb_eq.
  intuition discriminate.
Qed.

End MoreCases.

(** X9.  A table with a failing cell: [traverse] has still started the
    director of every cell of every row, in source order, and of nothing
    else; and when the table step throws, what it throws is the error of
    one of its cell directors. *)
Theorem traverse_table_failure env node b path st :
  nodeName node = "TABLE" ->
  snd (traverse env node b path st)
  = mkState (vault st) (trace st ++ tableCalls path node) (clock st)
  /\ forall e,
       fst (traverse env node b path st) = Throw e ->
       exists row cell,
         In row (querySelectorAll sel_tr node)
         /\ In cell (querySelectorAll sel_td_th row)
         /\ tableDirector env cell path = Throw e.
Proof.
  intros Hname. split.
  - by apply traverse_table_state.
  - intros e. by apply traverse_table_error.
Qed.

Lemma traverse_table_failure_witness :
  traverse pickyEnv brokenTable newBuilder "note" Sample.fresh
  = (Throw "malformed inline content",
     mkState (vault Sample.fresh)
       [ENewTableDirector; ETableDirector (Sample.cell "TD" "a") "note";
        ENewTableDirector; ETableDirector (Sample.cell "TD" "bad") "note";
        ENewTableDirector; ETableDirector (Sample.cell "TD" "c") "note";
        ENewTableDirector; ETableDirector (Sample.cell "TD" "d") "note"] 0)
  /\ exists row cell,
       In row (querySelectorAll sel_tr brokenTable)
       /\ In cell (querySelectorAll sel_td_th row)
       /\ tableDirector pickyEnv cell "note" = Throw "malformed inline content".
Proof.
  split; [vm_compute; reflexivity|].
  destruct (traverse_table_failure pickyEnv brokenTable newBuilder "note"
              Sample.fresh eq_refl) as [_ Herr].
  apply Herr. vm_compute. reflexivity.
Defined.

(** X10.  A list that is not a task list: [traverse] starts one paragraph
    director per element child of the node, in source order, each on a
    synthetic paragraph made of the child's own child nodes; when it
    returns, it has appended one [OrderedList] for an [OL] and one
    [BulletList] otherwise, with exactly one [ListItem] per element child,
    in source order, holding what the director appended for that child. *)
Theorem traverse_plain_list_items env node b path st :
  isListName node ->
  isTaskListNode node = false ->
  snd (traverse env node b path st)
  = mkState (vault st) (trace st ++ listCalls path node) (clock st)
  /\ forall b',
       fst (traverse env node b path st) = Ok b' ->
       exists its,
         b' = addItem (if String.eqb (nodeName node) "OL"
                       then OrderedList its else BulletList its) b
         /\ length its = length (children node)
         /\ Forall2 (fun li it =>
                       exists es,
                         paragraphDirector env (itemParagraph li) path = Ok es
                         /\ it = ListItem es)
                    (children node) its.
Proof.
  intros Hname Ht. split; [by apply traverse_plain_list_state|].
  intros b' Hrun.
  destruct (traverse env node b path st) as [r st'] eqn:Hrun'.
  simpl in Hrun. subst r.
  destruct (traverse_plain_list env _ _ _ _ _ _ Hname Ht Hrun')
    as (its & Hits & ->).
  exists its. split; [done|]. apply mapR_Forall2 in Hits.
  split; [symmetry; eapply Forall2_length, Hits|].
  eapply Forall2_impl; [exact Hits|]. intros li it. unfold listItemDirect.
  fold (itemParagraph li).
  destruct (paragraphDirector env (itemParagraph li) path) as [es|e];
    [|discriminate].
  simpl. rewrite build_addItems. intros H. inversion H. by exists es.
Qed.

Lemma traverse_plain_list_items_witness :
  traverse Sample.env Sample.plainList newBuilder "note" Sample.fresh
  = (Ok (mkBuilder [OrderedList [ListItem [Paragraph ["one"]];
                                 ListItem [Paragraph ["three"]]]]),
     mkState (vault Sample.fresh)
       [ENewParagraphDirector; EParagraphDirector (paragraph "one") "note";
        ENewParagraphDirector; EParagraphDirector (paragraph "three") "note"]
       0)
  /\ exists its,
       mkBuilder [OrderedList [ListItem [Paragraph ["one"]];
                               ListItem [Paragraph ["three"]]]]
       = addItem (if String.eqb (nodeName Sample.plainList) "OL"
                  then OrderedList its else BulletList its) newBuilder
       /\ length its = length (children Sample.plainList)
       /\ Forall2 (fun li it =>
                     exists es,
                       paragraphDirector Sample.env (itemParagraph li) "note"
                       = Ok es
                       /\ it = ListItem es)
                  (children Sample.plainList) its.
Proof.
  split; [vm_compute; reflexivity|].
  destruct (traverse_plain_list_items Sample.env Sample.plainList newBuilder
              "note" Sample.fresh (or_introl eq_refl) eq_refl) as [_ Hok].
  apply Hok. vm_compute. reflexivity.
Defined.

(** X11.  A heading node [H1] .. [H6] is converted without any call into
    one [Heading] whose level is the digit of the node's name, a number
    from 1 to 6, and whose text is the flattened text content of the
    node. *)
Theorem traverse_heading_level env node b path st :
  isHeadingName (nodeName node) = true ->
  exists level,
    1 <= level <= 6
    /\ nodeName node = String "H" (String (ascii_of_nat (48 + level)) "")
    /\ traverse env node b path st
       = (Ok (addItem (Heading level (textContent node)) b), st).
Proof.
  intros Hh. unfold traverse. cbv zeta. rewrite Hh.
  destruct (heading_names _ Hh) as [H|[H|[H|[H|[H|H]]]]]; rewrite H;
    [exists 1 | exists 2 | exists 3 | exists 4 | exists 5 | exists 6];
    (split; [lia|]); split; reflexivity.
Qed.

Lemma traverse_heading_level_witness :
  exists level,
    1 <= level <= 6
    /\ "H3" = String "H" (String (ascii_of_nat (48 + level)) "")
    /\ traverse offlineEnv
         (Element "H3" [] [] [Text "a "; Element "EM" [] [] [Text "b"]])
         newBuilder "note" Sample.fresh
       = (Ok (addItem (Heading level "a b") newBuilder), Sample.fresh).
Proof.
  apply (traverse_heading_level offlineEnv
           (Element "H3" [] [] [Text "a "; Element "EM" [] [] [Text "b"]])
           newBuilder "note" Sample.fresh).
  reflexivity.
Defined.

(* ================================================================== *)
(** ** Conversions never write; linkage and its failures *)
(* ================================================================== *)

Section LinkageCases.
Variable env : Env.
Implicit Types (path : string) (st : State) (file : TFile).


(** The path does not resolve: the sentinel, and nothing else happens. *)
Lemma getConfluenceLink_unresolved path st :
  getFirstLinkpathDest env path = None ->
  getConfluenceLink env path st
  = (Ok "#",
     mkState (vault st) (trace st ++ [EGetFirstLinkpathDest path]) (clock st)).
Proof.
  intros H. unfold getConfluenceLink, bind, emit, ret. by rewrite H.
Qed.

(** The file cannot be read, or its metadata cannot be parsed. *)
Lemma getConfluenceLink_unreadable path st file :
  getFirstLinkpathDest env path = Some file ->
  vault st !! file_path file = None ->
  exists e,
    getConfluenceLink env path st
    = (Throw e,
       mkState (vault st)
               (trace st ++ [EGetFirstLinkpathDest path; EVaultRead file])
               (clock st)).
Proof.
  intros Hf Hd. unfold getConfluenceLink, vaultRead, bind, emit, ret.
  rewrite Hf. cbn [vault trace clock]. rewrite Hd.
  eexists. by rewrite <- app_assoc.
Qed.

Lemma getConfluenceLink_unparsable path st file fileData e :
  getFirstLinkpathDest env path = Some file ->
  vault st !! file_path file = Some fileData ->
  loadProperties env fileData = Throw e ->
  getConfluenceLink env path st
  = (Throw e,
     mkState (vault st)
             (trace st ++ [EGetFirstLinkpathDest path; EVaultRead file])
             (clock st)).
Proof.
  intros Hf Hd Hp. unfold getConfluenceLink, vaultRead, bind, emit, lift, ret.
  rewrite Hf. cbn [vault trace clock]. rewrite Hd, Hp.
  by rewrite <- app_assoc.
Qed.

(** The page cannot be created. *)
Lemma getConfluenceLink_not_created path st file fileData properties e :
  documentAt env path st file fileData properties ->
  cachedUrl properties = None ->
  createPage env (spaceId env) (file_name file) = Throw e ->
  getConfluenceLink env path st
  = (Throw e,
     mkState (vault st)
             (trace st ++ [EGetFirstLinkpathDest path; EVaultRead file;
                           ECreatePage (spaceId env) (file_name file)])
             (clock st)).
Proof.
  intros (Hfile & Hdata & Hprops) Hurl Hcreate.
  assert (Hc : match properties !! "confluenceUrl" with
               | Some url => Js.truthy url
               | None => false
               end = false).
  { unfold cachedUrl in Hurl.
    destruct (properties !! "confluenceUrl") as [u|]; [|done].
    by destruct (Js.truthy u). }
  unfold getConfluenceLink, vaultRead, bind, emit, lift, ret.
  rewrite Hfile. cbn [vault trace clock].
  rewrite Hdata, Hprops, Hc, Hcreate. cbn [vault trace clock].
  by rewrite <- !app_assoc.
Qed.



End LinkageCases.


(** X13.  When the document cannot be found, read or parsed, nothing is
    created: an unresolvable path gives the sentinel ["#"] after the
    lookup alone; a file that cannot be read, or whose metadata cannot be
    parsed, makes the call throw after the lookup and the read; in all
    three cases the vault is unchanged and the Remote Client is not
    called. *)
Theorem getConfluenceLink_without_document env path st :
  (getFirstLinkpathDest env path = None ->
   getConfluenceLink env path st
   = (Ok "#",
      mkState (vault st) (trace st ++ [EGetFirstLinkpathDest path])
              (clock st)))
  /\ (forall file,
        getFirstLinkpathDest env path = Some file ->
        vault st !! file_path file = None ->
        exists e,
          getConfluenceLink env path st
          = (Throw e,
             mkState (vault st)
               (trace st ++ [EGetFirstLinkpathDest path; EVaultRead file])
               (clock st)))
  /\ (forall file fileData e,
        getFirstLinkpathDest env path = Some file ->
        vault st !! file_path file = Some fileData ->
        loadProperties env fileData = Throw e ->
        getConfluenceLink env path st
        = (Throw e,
           mkState (vault st)
             (trace st ++ [EGetFirstLinkpathDest path; EVaultRead file])
             (clock st))).
Proof.
  split; [apply getConfluenceLink_unresolved|].
  split; [apply getConfluenceLink_unreadable|].
  apply getConfluenceLink_unparsable.
Qed.

(** X14.  When [createPage] throws, the first linkage stops there: the
    error is passed on, the document source is not modified, nothing is
    rendered or converted and no page is updated. *)
Theorem getConfluenceLink_create_failure
    env path st file fileData properties e :
  documentAt env path st file fileData properties ->
  cachedUrl properties = None ->
  createPage env (spaceId env) (file_name file) = Throw e ->
  getConfluenceLink env path st
  = (Throw e,
     mkState (vault st)
             (trace st ++ [EGetFirstLinkpathDest path; EVaultRead file;
                           ECreatePage (spaceId env) (file_name file)])
             (clock st)).
Proof. apply getConfluenceLink_not_created. Qed.

Lemma sample_document_offline :
  documentAt offlineEnv "note" Sample.fresh Sample.noteFile "body" ∅.
Proof. repeat split; reflexivity. Qed.

Lemma getConfluenceLink_create_failure_witness :
  getConfluenceLink offlineEnv "note" Sample.fresh
  = (Throw "503",
     mkState (vault Sample.fresh)
             (trace Sample.fresh ++
              [EGetFirstLinkpathDest "note"; EVaultRead Sample.noteFile;
               ECreatePage (spaceId offlineEnv) (file_name Sample.noteFile)])
             (clock Sample.fresh)).
Proof.
  apply (getConfluenceLink_create_failure offlineEnv "note" Sample.fresh
           Sample.noteFile "body" ∅ "503").
  - exact sample_document_offline.
  - reflexivity.
  - reflexivity.
Defined.





Lemma foldM_traverse_recognized env path nodes : forall b st,
  foldM (fun b node => traverse env node b path) nodes b st
  = foldM (fun b node => traverse env node b path)
          (List.filter recognized nodes) b st.
Proof.
  induction nodes as [|node nodes IH]; intros b st; simpl; [reflexivity|].
  destruct (recognized node) eqn:Hr; simpl.
  - unfold bind. destruct (traverse env node b path st) as [[b1|e] st1];
      [apply IH | reflexivity].
  - unfold bind. rewrite traverse_unrecognized by done. apply IH.
Qed.

(** X17.  Nodes of unrecognized kinds (text between blocks, [DIV], [SPAN]
    and the like, with everything they contain) are invisible to the
    conversion: removing them from the container changes neither the
    result, nor the error, nor the calls made, nor the final state. *)
Theorem htmlToAdf_skips_unrecognized env name classes attrs kids path st :
  htmlToAdf env (Element name classes attrs kids) path st
  = htmlToAdf env (Element name classes attrs (List.filter recognized kids))
              path st.
Proof.
  unfold htmlToAdf. cbn [childNodes]. unfold bind.
  by rewrite foldM_traverse_recognized.
Qed.
